(** * Round-robin doubles scheduling: bench, team and court allocation

    Shallow embedding of [benchAlloc.py], [teamAlloc.py] and [courtAlloc.py].

    Each script builds a CP-SAT model (boolean variables and linear
    constraints) and hands it to the solver together with a solution
    callback.  The embedding keeps that shape:

    - Python integers are [Z]; [range] produces lists of [Z].
    - A script's [main] is a function from the command-line values (and
      the content of the files it reads) to a [result]: either the Python
      exception that aborts it, or the model on which [solver.Solve] is
      invoked.
    - A boolean variable returned by [model.NewBoolVar] is named by its
      creation site and the loop indices at which it is created, which
      are distinct for distinct calls.
    - A solution is a valuation of the variables under which every
      constraint of the model evaluates to true.
    - A callback is a function from its private state and the valuation
      ([self.Value]) to the new state and what it emits. *)

From Stdlib Require Import ZArith List Bool Lia.
From Stdlib Require String DecimalString DecimalZ.
Import ListNotations.
Open Scope Z_scope.

(** ** Python runtime fragments *)

Inductive exn := ZeroDivisionError | IndexError | KeyError | ValueError.

Inductive result (A : Type) :=
| Raise (e : exn)
| Ok (a : A).
Arguments Raise {A} e.
Arguments Ok {A} a.

Definition bind {A B} (m : result A) (k : A -> result B) : result B :=
  match m with
  | Raise e => Raise e
  | Ok a => k a
  end.

Notation "x <- m ;; k" := (bind m (fun x => k))
  (at level 61, m at next level, right associativity).

(** [range(n)] and [range(a, b)]. *)
Definition range2 (a b : Z) : list Z :=
  map (fun i => a + Z.of_nat i) (seq 0 (Z.to_nat (b - a))).

Definition range (n : Z) : list Z := range2 0 n.

(** [sum] of a list of integers. *)
Definition sum (l : list Z) : Z := fold_right Z.add 0 l.

(** [math.floor(a / b)] and [math.ceil(a / b)] on integers.  The quotient
    of the true division is taken exactly; the division raises when the
    divisor is zero. *)
Definition floor_div (a b : Z) : result Z :=
  if b =? 0 then Raise ZeroDivisionError else Ok (a / b).

Definition ceil_div (a b : Z) : result Z :=
  if b =? 0 then Raise ZeroDivisionError else Ok (- ((- a) / b)).

(** [l[i]] and [l[i] = x] on a Python list, negative indices included. *)
Definition py_index {A} (l : list A) (i : Z) : result nat :=
  let n := Z.of_nat (length l) in
  if (0 <=? i) && (i <? n) then Ok (Z.to_nat i)
  else if (- n <=? i) && (i <? 0) then Ok (Z.to_nat (i + n))
  else Raise IndexError.

Definition py_get {A} (l : list A) (i : Z) : result A :=
  k <- py_index l i ;;
  match nth_error l k with
  | Some x => Ok x
  | None => Raise IndexError
  end.

Fixpoint set_nth {A} (l : list A) (k : nat) (x : A) : list A :=
  match l, k with
  | [], _ => []
  | _ :: t, O => x :: t
  | h :: t, S k' => h :: set_nth t k' x
  end.

Definition py_set {A} (l : list A) (i : Z) (x : A) : result (list A) :=
  k <- py_index l i ;;
  Ok (set_nth l k x).

(** [max(...)] and [min(...)] of a generator; both raise on an empty one. *)
Definition py_max (l : list Z) : result Z :=
  match l with
  | [] => Raise ValueError
  | h :: t => Ok (fold_left Z.max t h)
  end.

Definition py_min (l : list Z) : result Z :=
  match l with
  | [] => Raise ValueError
  | h :: t => Ok (fold_left Z.min t h)
  end.

(** A loop whose body may raise. *)
Fixpoint for_each {A S} (l : list A) (body : A -> S -> result S) (s : S)
  : result S :=
  match l with
  | [] => Ok s
  | a :: t => s' <- body a s ;; for_each t body s'
  end.

(** ** The fragment of CP-SAT models the scripts use *)

Section CpModel.
Context {V : Type}.

Inductive relop := REq | RNe | RGe | RLe | RGt | RLt.

(** Left and right sides of the constraints the scripts post: a sum of
    boolean variables, or an integer. *)
Inductive linexpr :=
| LSum (vs : list V)
| LConst (k : Z).

(** [model.Add(l op r)], optionally followed by
    [.OnlyEnforceIf(b)] ([Some (b, true)]) or
    [.OnlyEnforceIf(b.Not())] ([Some (b, false)]);
    [model.AddExactlyOne(vs)]. *)
Inductive constraint :=
| Add (l : linexpr) (op : relop) (r : linexpr) (enforce : option (V * bool))
| AddExactlyOne (vs : list V).

Record CpModel := {
  constraints : list constraint;
  objective : option (list V)  (* [model.Minimize(sum(tmp))] *)
}.

Definition valuation := V -> bool.

Definition Value (a : valuation) (v : V) : Z := Z.b2z (a v).

Definition eval (a : valuation) (e : linexpr) : Z :=
  match e with
  | LSum vs => sum (map (Value a) vs)
  | LConst k => k
  end.

Definition test (op : relop) (x y : Z) : bool :=
  match op with
  | REq => x =? y
  | RNe => negb (x =? y)
  | RGe => y <=? x
  | RLe => x <=? y
  | RGt => y <? x
  | RLt => x <? y
  end.

Definition holds (a : valuation) (c : constraint) : bool :=
  match c with
  | Add l op r None => test op (eval a l) (eval a r)
  | Add l op r (Some (b, pol)) =>
      if Bool.eqb (a b) pol then test op (eval a l) (eval a r) else true
  | AddExactlyOne vs => sum (map (Value a) vs) =? 1
  end.

(** [a] is a feasible solution of [m]. *)
Definition solution (m : CpModel) (a : valuation) : bool :=
  forallb (holds a) (constraints m).

(** [b <=> (sum(vs) == k)], posted as two half-reified constraints. *)
Definition reified_eq (b : V) (vs : list V) (k : Z) : list constraint :=
  [ Add (LSum vs) REq (LConst k) (Some (b, true));
    Add (LSum vs) RNe (LConst k) (Some (b, false)) ].
End CpModel.
Arguments CpModel V : clear implicits.
Arguments constraint V : clear implicits.
Arguments linexpr V : clear implicits.
Arguments valuation V : clear implicits.

(** ** benchAlloc.py *)

Module BenchAlloc.

Inductive var :=
| bench (player round : Z)          (* [bench[(player, round)]] *)
| b_bench (p1 t1 : Z)               (* [b_p{p1}_t{t1}_bench] *)
| b_dist (p1 t1 t2 : Z)             (* [b_p{p1}_t{t1}_t{tn}_bench], made at [(t1, t2)] *)
| b_pair (p1 p2 t1 t2 : Z).        (* [b_p{p1}_p{p2}_t{t1}_t{t2}] *)

(** constraint #1: the bench roster of each round has [num_bench] players *)
Definition constraint1 (num_players num_rounds num_bench : Z)
  : list (constraint var) :=
  flat_map (fun round =>
    let tmp_players := map (fun player => bench player round) (range num_players) in
    [Add (LSum tmp_players) REq (LConst num_bench) None])
    (range num_rounds).

(** constraint #2: each player sits between [min_bench] and [max_bench] times *)
Definition constraint2 (num_players num_rounds min_bench max_bench : Z)
  : list (constraint var) :=
  flat_map (fun p1 =>
    let tmp := map (fun t1 => b_bench p1 t1) (range num_rounds) in
    flat_map (fun t1 => reified_eq (b_bench p1 t1) [bench p1 t1] 1)
      (range num_rounds)
    ++ [Add (LSum tmp) RGe (LConst min_bench) None;
        Add (LSum tmp) RLe (LConst max_bench) None])
    (range num_players).

(** constraint #3: distance between two bench presences *)
Definition constraint3 (num_players num_rounds distance_on_bench : Z)
  : list (constraint var) :=
  flat_map (fun p1 =>
    let window t1 := range2 (t1 + 1) (t1 + 1 + distance_on_bench) in
    let tmp :=
      flat_map (fun t1 => map (fun t2 => b_dist p1 t1 t2) (window t1))
        (range num_rounds) in
    flat_map (fun t1 =>
      flat_map (fun t2 =>
        let tn := t2 mod num_rounds in
        reified_eq (b_dist p1 t1 t2) [bench p1 t1; bench p1 tn] 2)
        (window t1))
      (range num_rounds)
    ++ [Add (LSum tmp) REq (LConst 0) None])
    (range num_players).

(** objective #1: indicators of a pair of players benched together twice *)
Definition objective1_vars (num_players num_rounds : Z) : list var :=
  flat_map (fun p1 =>
    flat_map (fun p2 =>
      flat_map (fun t1 =>
        map (fun t2 => b_pair p1 p2 t1 t2) (range2 (t1 + 1) num_rounds))
        (range num_rounds))
      (range2 (p1 + 1) num_players))
    (range num_players).

Definition objective1 (num_players num_rounds : Z) : list (constraint var) :=
  flat_map (fun p1 =>
    flat_map (fun p2 =>
      flat_map (fun t1 =>
        flat_map (fun t2 =>
          reified_eq (b_pair p1 p2 t1 t2)
            [bench p1 t1; bench p2 t1; bench p1 t2; bench p2 t2] 4)
          (range2 (t1 + 1) num_rounds))
        (range num_rounds))
      (range2 (p1 + 1) num_players))
    (range num_players).

(** [main()], up to the call [solver.Solve(model, solution_printer)].
    The statement [exit] under [if num_bench==0:] only names the builtin
    and does not call it, so control falls through to the divisions. *)
Definition main (num_players num_rounds num_courts : Z)
  : result (CpModel var) :=
  let num_players_per_court := 4 in
  let num_bench := num_players - num_courts * num_players_per_court in
  min_bench <- floor_div (num_rounds * num_bench) num_players ;;
  max_bench <- ceil_div (num_rounds * num_bench) num_players ;;
  q <- ceil_div num_players num_bench ;;
  let distance_on_bench := q - 2 in
  Ok {| constraints :=
          constraint1 num_players num_rounds num_bench
          ++ constraint2 num_players num_rounds min_bench max_bench
          ++ constraint3 num_players num_rounds distance_on_bench
          ++ objective1 num_players num_rounds;
        objective := Some (objective1_vars num_players num_rounds) |}.

(** [PlayersPartialSolutionPrinter.write_bench]: the list dumped to the
    bench file. *)
Definition write_bench (a : valuation var) (num_players num_rounds : Z)
  : list Z :=
  flat_map (fun round =>
    flat_map (fun player =>
      if a (bench player round) then [player + 1] else [])
      (range num_players))
    (range num_rounds).

End BenchAlloc.

(** ** teamAlloc.py *)

Module TeamAlloc.

Inductive var :=
| games (player round court : Z)     (* [games[(player, round, court)]] *)
| benchVar (player round : Z)        (* [benchVar[(player, round)]] *)
| b_court (p1 p2 round court : Z)    (* [b_p{p1}_p{p2}_r{round}_c{court}] *)
| duoVar (player round pair : Z)     (* [duoVar[(player, round, pair)]] *)
| b_duo (p1 p2 round pair : Z).      (* [b_p{p1}_p{p2}_t{round}_d{pair}] *)

Definition all_bench (num_courts : Z) : list Z :=
  range2 (num_courts + 1) (num_courts + 1).

(** [games[(player, round, court)]]: the dictionary has a key for every
    player, round and court of [all_courts]; any other key raises. *)
Definition games_lookup (num_players num_rounds num_courts : Z)
  (player round court : Z) : result var :=
  if (0 <=? player) && (player <? num_players)
     && (0 <=? round) && (round <? num_rounds)
     && (0 <=? court) && (court <? num_courts + 1)
  then Ok (games player round court)
  else Raise KeyError.

(** constraint #1: each played court has [num_players_per_court] players *)
Definition constraint1 (num_players num_rounds num_courts npc : Z)
  : list (constraint var) :=
  flat_map (fun round =>
    flat_map (fun court =>
      let tmp_players := map (fun player => games player round court) (range num_players) in
      [Add (LSum tmp_players) REq (LConst npc) None])
      (range num_courts))
    (range num_rounds).

(** constraint #2: bench roster, posted for the courts of [all_bench] *)
Definition constraint2 (num_players num_rounds num_courts num_bench : Z)
  : list (constraint var) :=
  flat_map (fun round =>
    flat_map (fun court =>
      let tmp_players := map (fun player => games player round court) (range num_players) in
      [Add (LSum tmp_players) REq (LConst num_bench) None])
      (all_bench num_courts))
    (range num_rounds).

(** constraint #3: each player is on one court, or on the bench, per round *)
Definition constraint3 (num_players num_rounds num_courts : Z)
  : list (constraint var) :=
  flat_map (fun player =>
    map (fun round =>
      AddExactlyOne (map (fun court => games player round court) (range (num_courts + 1))))
      (range num_rounds))
    (range num_players).

(** State of the loop that reads the bench file under constraint #4. *)
Record bench_reader := {
  count : Z;
  bench_assignements : list (list Z);
  bench_matrix : list (list Z);
  bench : list Z;
  posted : list (constraint var)
}.

(** Body of [for _ in range(num_bench):]. *)
Definition read_entry (num_players num_rounds num_courts : Z)
  (bench_list : list Z) (round : Z) (_ : Z) (s : bench_reader)
  : result bench_reader :=
  let benchcourt := num_courts in
  v <- py_get bench_list (count s) ;;
  row <- py_get (bench_assignements s) (v - 1) ;;
  row' <- py_set row round 1 ;;
  ba' <- py_set (bench_assignements s) (v - 1) row' ;;
  g <- games_lookup num_players num_rounds num_courts (v - 1) round benchcourt ;;
  Ok {| count := count s + 1;
        bench_assignements := ba';
        bench_matrix := bench_matrix s;
        bench := bench s ++ [v];
        posted := posted s ++ [Add (LSum [g]) REq (LConst 1) None] |}.

(** Body of [for round in all_rounds:]. *)
Definition read_round (num_players num_rounds num_courts num_bench : Z)
  (bench_list : list Z) (round : Z) (s : bench_reader)
  : result bench_reader :=
  s' <- for_each (range num_bench)
          (read_entry num_players num_rounds num_courts bench_list round)
          {| count := count s;
             bench_assignements := bench_assignements s;
             bench_matrix := bench_matrix s;
             bench := [];
             posted := posted s |} ;;
  Ok {| count := count s';
        bench_assignements := bench_assignements s';
        bench_matrix := bench_matrix s' ++ [bench s'];
        bench := bench s';
        posted := posted s' |}.

(** First half of constraint #4: the players of the bench file are put
    on the bench court. *)
Definition read_bench (num_players num_rounds num_courts num_bench : Z)
  (bench_list : list Z) : result bench_reader :=
  for_each (range num_rounds)
    (read_round num_players num_rounds num_courts num_bench bench_list)
    {| count := 0;
       bench_assignements :=
         map (fun p => map (fun t => 0) (range num_rounds)) (range num_players);
       bench_matrix := [];
       bench := [];
       posted := [] |}.

(** Second half of constraint #4: [benchVar] mirrors the bench court. *)
Definition bench_mirror (num_players num_rounds num_courts : Z)
  : list (constraint var) :=
  flat_map (fun player =>
    map (fun round =>
      Add (LSum [benchVar player round]) REq
          (LSum [games player round num_courts]) None)
      (range num_rounds))
    (range num_players).

Definition constraint4 (num_players num_rounds num_courts num_bench : Z)
  (bench_list : list Z) : result (list (constraint var)) :=
  if 0 <? num_bench then
    s <- read_bench num_players num_rounds num_courts num_bench bench_list ;;
    Ok (posted s ++ bench_mirror num_players num_rounds num_courts)
  else Ok [].

(** constraint #5: every pair of players meets on a court at least once *)
Definition constraint5 (num_players num_rounds num_courts : Z)
  : list (constraint var) :=
  flat_map (fun p1 =>
    flat_map (fun p2 =>
      let tmp :=
        flat_map (fun round =>
          map (fun court => b_court p1 p2 round court) (range num_courts))
          (range num_rounds) in
      flat_map (fun round =>
        flat_map (fun court =>
          reified_eq (b_court p1 p2 round court)
            [games p1 round court; games p2 round court] 2)
          (range num_courts))
        (range num_rounds)
      ++ [Add (LSum tmp) RGt (LConst 0) None])
      (range2 (p1 + 1) num_players))
    (range num_players).

(** the two duos of a court add up to the court *)
Definition duo_definition (num_players num_rounds num_courts : Z)
  : list (constraint var) :=
  flat_map (fun player =>
    flat_map (fun round =>
      map (fun court =>
        let pair := court * 2 in
        Add (LSum [duoVar player round pair; duoVar player round (pair + 1)])
            REq (LSum [games player round court]) None)
        (range num_courts))
      (range num_rounds))
    (range num_players).

(** constraint #6: every duo has exactly 2 players *)
Definition constraint6 (num_players num_rounds num_courts : Z)
  : list (constraint var) :=
  flat_map (fun round =>
    flat_map (fun court =>
      let pair := court * 2 in
      let tmp_pair1 := map (fun player => duoVar player round pair) (range num_players) in
      let tmp_pair2 := map (fun player => duoVar player round (pair + 1)) (range num_players) in
      [Add (LSum tmp_pair1) REq (LConst 2) None;
       Add (LSum tmp_pair2) REq (LConst 2) None])
      (range num_courts))
    (range num_rounds).

(** constraint #7: every pair of partners is unique *)
Definition duo_indicators (num_rounds num_courts p1 p2 : Z) : list var :=
  flat_map (fun round =>
    flat_map (fun court =>
      let pair := court * 2 in
      [b_duo p1 p2 round pair; b_duo p1 p2 round (pair + 1)])
      (range num_courts))
    (range num_rounds).

Definition constraint7 (num_players num_rounds num_courts : Z)
  : list (constraint var) :=
  flat_map (fun p1 =>
    flat_map (fun p2 =>
      flat_map (fun round =>
        flat_map (fun court =>
          let pair := court * 2 in
          reified_eq (b_duo p1 p2 round pair)
            [duoVar p1 round pair; duoVar p2 round pair] 2
          ++ reified_eq (b_duo p1 p2 round (pair + 1))
            [duoVar p1 round (pair + 1); duoVar p2 round (pair + 1)] 2)
          (range num_courts))
        (range num_rounds)
      ++ [Add (LSum (duo_indicators num_rounds num_courts p1 p2)) RLt (LConst 2) None])
      (range2 (p1 + 1) num_players))
    (range num_players).

(** [main()], up to the call [solver.Solve(model, solution_printer)];
    [bench_list] is the array held by the bench file. *)
Definition main (num_players num_rounds num_courts : Z) (bench_list : list Z)
  : result (CpModel var) :=
  let num_players_per_court := 4 in
  let num_bench := num_players - num_courts * num_players_per_court in
  _ <- (if 0 <? num_bench then
          min_bench <- floor_div (num_rounds * num_bench) num_players ;;
          max_bench <- ceil_div (num_rounds * num_bench) num_players ;;
          q <- ceil_div num_players num_bench ;;
          Ok tt
        else Ok tt) ;;
  c4 <- constraint4 num_players num_rounds num_courts num_bench bench_list ;;
  Ok {| constraints :=
          constraint1 num_players num_rounds num_courts num_players_per_court
          ++ constraint2 num_players num_rounds num_courts num_bench
          ++ constraint3 num_players num_rounds num_courts
          ++ c4
          ++ constraint5 num_players num_rounds num_courts
          ++ duo_definition num_players num_rounds num_courts
          ++ constraint6 num_players num_rounds num_courts
          ++ constraint7 num_players num_rounds num_courts;
        objective := None |}.

(** *** TeamAllocationSolutionPrinter *)

Record printer := {
  _solution_count : Z;
  _solution_limit : Z;
  _best : Z;
  _better : Z
}.

(** [__init__]: [num_players*(num_players+1)] is even, so the quotient
    by 2 is the integer it denotes. *)
Definition init (num_players num_rounds limit : Z) : printer :=
  {| _solution_count := 0;
     _solution_limit := limit;
     _best := num_rounds;
     _better := num_players * (num_players + 1) / 2 |}.

(** [paircounts[p1][p2]] once the counting loops are over. *)
Definition paircount (a : valuation var) (num_rounds num_courts p1 p2 : Z) : Z :=
  sum (flat_map (fun round =>
    map (fun court =>
      let p1rc := Value a (games p1 round court) in
      let p2rc := Value a (games p2 round court) in
      if p1rc + p2rc =? 2 then 1 else 0)
      (range num_courts))
    (range num_rounds)).

Definition paircounts (a : valuation var) (num_players num_rounds num_courts : Z)
  : list Z :=
  flat_map (fun p1 =>
    map (fun p2 => paircount a num_rounds num_courts p1 p2)
      (range2 (p1 + 1) num_players))
    (range num_players).

(** [sameplayers]: pairs found on a common court in two consecutive rounds *)
Definition sameplayers (a : valuation var) (num_players num_rounds num_courts : Z) : Z :=
  sum (flat_map (fun p1 =>
    flat_map (fun p2 =>
      flat_map (fun r1 =>
        let rn := (r1 + 1) mod num_rounds in
        flat_map (fun c1 =>
          map (fun c2 =>
            let p1r1c1 := Value a (games p1 r1 c1) in
            let p2r1c1 := Value a (games p2 r1 c1) in
            let p1rnc2 := Value a (games p1 rn c2) in
            let p2rnc2 := Value a (games p2 rn c2) in
            if p1r1c1 + p2r1c1 + p1rnc2 + p2rnc2 =? 4 then 1 else 0)
            (range num_courts))
          (range num_courts))
        (range num_rounds))
      (range2 (p1 + 1) num_players))
    (range num_players)).

(** The acceptance test of [print_schedule], given the two counts and
    the value of [sameplayers] (only computed under the outer test).
    Returns the new state and [printit]. *)
Definition accept (s : printer) (maxCount minCount same : Z) : printer * bool :=
  let printit := false in
  if maxCount - minCount <=? _best s then
    let best' := maxCount - minCount in
    let printit := if maxCount - minCount <? best' then true else printit in
    if same <=? _better s then
      ({| _solution_count := _solution_count s;
          _solution_limit := _solution_limit s;
          _best := best';
          _better := same |}, true)
    else
      ({| _solution_count := _solution_count s;
          _solution_limit := _solution_limit s;
          _best := best';
          _better := _better s |}, printit)
  else (s, printit).

Definition print_schedule (s : printer) (a : valuation var)
  (num_players num_rounds num_courts : Z) : result (printer * bool) :=
  let counts := paircounts a num_players num_rounds num_courts in
  maxCount <- py_max counts ;;
  minCount <- py_min counts ;;
  Ok (accept s maxCount minCount
        (sameplayers a num_players num_rounds num_courts)).

(** [on_solution_callback]: new state, [printit], and whether
    [StopSearch] is requested. *)
Definition on_solution_callback (s : printer) (a : valuation var)
  (num_players num_rounds num_courts : Z) : result (printer * bool * bool) :=
  let s1 := {| _solution_count := _solution_count s + 1;
               _solution_limit := _solution_limit s;
               _best := _best s;
               _better := _better s |} in
  r <- print_schedule s1 a num_players num_rounds num_courts ;;
  let '(s2, printit) := r in
  Ok (s2, printit, _solution_limit s2 <=? _solution_count s2).

(** The solver calls the callback serially on the solutions it finds. *)
Fixpoint search (sols : list (valuation var)) (s : printer)
  (num_players num_rounds num_courts : Z) : result (printer * list bool) :=
  match sols with
  | [] => Ok (s, [])
  | a :: rest =>
      r <- on_solution_callback s a num_players num_rounds num_courts ;;
      let '(s', printit, stop) := r in
      if stop then Ok (s', [printit])
      else
        r' <- search rest s' num_players num_rounds num_courts ;;
        let '(s'', emitted) := r' in
        Ok (s'', printit :: emitted)
  end.

End TeamAlloc.

(** ** courtAlloc.py *)

Module CourtAlloc.

Inductive var :=
| games (round court group : Z)       (* [games[(round, court, group)]] *)
| groupVar (round group player : Z).  (* [groupVar[(round, group, player)]] *)

Fixpoint map_result {A B} (f : A -> result B) (l : list A) : result (list B) :=
  match l with
  | [] => Ok []
  | a :: t => b <- f a ;; bs <- map_result f t ;; Ok (b :: bs)
  end.

(** constraint #1: in each round, each group is assigned to exactly 1 court *)
Definition constraint1 (num_rounds num_courts : Z) : list (constraint var) :=
  flat_map (fun round =>
    map (fun group =>
      let tmp_courts := map (fun court => games round court group) (range num_courts) in
      Add (LSum tmp_courts) REq (LConst 1) None)
      (range num_courts))
    (range num_rounds).

(** constraint #2: in each round, each court is assigned to exactly 1 group *)
Definition constraint2 (num_rounds num_courts : Z) : list (constraint var) :=
  flat_map (fun round =>
    map (fun court =>
      let tmp_groups := map (fun group => games round court group) (range num_courts) in
      Add (LSum tmp_groups) REq (LConst 1) None)
      (range num_courts))
    (range num_rounds).

(** [group_assignements[round][group][player]] *)
Definition group_cell (group_assignements : list (list (list Z)))
  (round group player : Z) : result Z :=
  by_round <- py_get group_assignements round ;;
  by_group <- py_get by_round group ;;
  py_get by_group player.

(** [groupVar] is pinned to the groups read from the groups file *)
Definition group_pins (num_players num_rounds num_courts : Z)
  (group_assignements : list (list (list Z))) : result (list (constraint var)) :=
  map_result (fun rgp : Z * Z * Z =>
    let '(round, group, player) := rgp in
    x <- group_cell group_assignements round group player ;;
    Ok (Add (LSum [groupVar round group player]) REq (LConst x) None))
    (flat_map (fun round =>
       flat_map (fun group =>
         map (fun player => (round, group, player)) (range num_players))
         (range num_courts))
       (range num_rounds)).

(** The model [main()] has posted when it calls [solver.Solve], from the
    matrix [group_assignements] it filled from the groups file. *)
Definition model (num_players num_rounds num_courts : Z)
  (group_assignements : list (list (list Z))) : result (CpModel var) :=
  pins <- group_pins num_players num_rounds num_courts group_assignements ;;
  Ok {| constraints :=
          constraint1 num_rounds num_courts
          ++ constraint2 num_rounds num_courts
          ++ pins;
        objective := None |}.

(** *** PlayersPartialSolutionPrinter *)

Record printer := {
  _solution_count : Z;
  _solution_limit : Z;
  _bestCourtDiffMax : Z;
  _numPlayersWith_best : Z
}.

Definition init (num_players num_rounds limit : Z) : printer :=
  {| _solution_count := 0;
     _solution_limit := limit;
     _bestCourtDiffMax := num_rounds;
     _numPlayersWith_best := num_players |}.

(** [courtCount] of one player on one court *)
Definition courtCount (a : valuation var)
  (group_assignements : list (list (list Z)))
  (num_rounds num_courts court player : Z) : result Z :=
  for_each (range num_courts) (fun group =>
    for_each (range num_rounds) (fun round courtCount =>
      if a (games round court group) then
        x <- group_cell group_assignements round group player ;;
        Ok (if x =? 0 then courtCount else courtCount + 1)
      else Ok courtCount))
    0.

Definition playersCourtCount (a : valuation var)
  (group_assignements : list (list (list Z)))
  (num_players num_rounds num_courts : Z) : result (list (list Z)) :=
  map_result (fun court =>
    map_result (courtCount a group_assignements num_rounds num_courts court)
      (range num_players))
    (range num_courts).

Definition playersCourtDiffMax (counts : list (list Z))
  (num_players num_courts : Z) : result (list Z) :=
  map_result (fun player =>
    let per_court :=
      map (fun court => nth (Z.to_nat player) (nth (Z.to_nat court) counts []) 0)
        (range num_courts) in
    maxCount <- py_max per_court ;;
    minCount <- py_min per_court ;;
    Ok (maxCount - minCount))
    (range num_players).

(** [playersCourtDiffMax.count(x)] *)
Definition count (l : list Z) (x : Z) : Z :=
  Z.of_nat (count_occ Z.eq_dec l x).

(** The acceptance test of [print_schedule] on the list of spreads:
    new state and [printit]. *)
Definition accept (s : printer) (diffs : list Z) : result (printer * bool) :=
  m <- py_max diffs ;;
  let printit := false in
  let '(s1, printit) :=
    if _bestCourtDiffMax s =? m then
      if count diffs m <=? _numPlayersWith_best s then
        ({| _solution_count := _solution_count s;
            _solution_limit := _solution_limit s;
            _bestCourtDiffMax := _bestCourtDiffMax s;
            _numPlayersWith_best := count diffs m |}, true)
      else (s, printit)
    else (s, printit) in
  if m <? _bestCourtDiffMax s1 then
    Ok ({| _solution_count := _solution_count s1;
           _solution_limit := _solution_limit s1;
           _bestCourtDiffMax := m;
           _numPlayersWith_best := count diffs m |}, true)
  else Ok (s1, printit).

Definition print_schedule (s : printer) (a : valuation var)
  (group_assignements : list (list (list Z)))
  (num_players num_rounds num_courts : Z) : result (printer * bool) :=
  counts <- playersCourtCount a group_assignements num_players num_rounds num_courts ;;
  diffs <- playersCourtDiffMax counts num_players num_courts ;;
  accept s diffs.

Definition on_solution_callback (s : printer) (a : valuation var)
  (group_assignements : list (list (list Z)))
  (num_players num_rounds num_courts : Z) : result (printer * bool * bool) :=
  let s1 := {| _solution_count := _solution_count s + 1;
               _solution_limit := _solution_limit s;
               _bestCourtDiffMax := _bestCourtDiffMax s;
               _numPlayersWith_best := _numPlayersWith_best s |} in
  r <- print_schedule s1 a group_assignements num_players num_rounds num_courts ;;
  let '(s2, printit) := r in
  Ok (s2, printit, _solution_limit s2 <=? _solution_count s2).

(** The metrics the acceptance test compares: the largest spread and the
    number of players at that spread. *)
Definition metrics (a : valuation var)
  (group_assignements : list (list (list Z)))
  (num_players num_rounds num_courts : Z) : result (Z * Z) :=
  counts <- playersCourtCount a group_assignements num_players num_rounds num_courts ;;
  diffs <- playersCourtDiffMax counts num_players num_courts ;;
  m <- py_max diffs ;;
  Ok (m, count diffs m).

End CourtAlloc.

(** ** Quantities the properties are stated with *)

(** Number of players benched in a round, number of rounds a player is
    benched. *)
Definition benched_in_round (a : valuation BenchAlloc.var) (num_players round : Z) : Z :=
  sum (map (fun player => Value a (BenchAlloc.bench player round)) (range num_players)).

Definition rounds_on_bench (a : valuation BenchAlloc.var) (num_rounds player : Z) : Z :=
  sum (map (fun round => Value a (BenchAlloc.bench player round)) (range num_rounds)).

(** The valuation of the bench model fixed by a bench matrix: every
    indicator takes the value its reified constraint gives it. *)
Definition bench_valuation (plan : Z -> Z -> bool) (num_rounds : Z)
  : valuation BenchAlloc.var :=
  fun v =>
    match v with
    | BenchAlloc.bench p r => plan p r
    | BenchAlloc.b_bench p r => plan p r
    | BenchAlloc.b_dist p t1 t2 => plan p t1 && plan p (t2 mod num_rounds)
    | BenchAlloc.b_pair p1 p2 t1 t2 =>
        plan p1 t1 && plan p2 t1 && plan p1 t2 && plan p2 t2
    end.

(** 6 players, 2 rounds, 1 court: players 1 and 2 sit out the first round,
    players 3 and 4 the second. *)
Definition plan_6_2_1 (player round : Z) : bool :=
  ((round =? 0) && ((player =? 0) || (player =? 1)))
  || ((round =? 1) && ((player =? 2) || (player =? 3))).

(** 14 players, 6 rounds, 3 courts: players [2r+1] and [2r+2] sit out
    round [r]. *)
Definition plan_14_6_3 (player round : Z) : bool :=
  (0 <=? round) && (round <? 6)
  && ((player =? 2 * round) || (player =? 2 * round + 1)).

(** Two players are partners in a duo slot of a round; they are on the
    same played court in a round. *)
Definition partnered (a : valuation TeamAlloc.var) (p1 p2 round slot : Z) : bool :=
  a (TeamAlloc.duoVar p1 round slot) && a (TeamAlloc.duoVar p2 round slot).

Definition same_court (a : valuation TeamAlloc.var) (p1 p2 round court : Z) : bool :=
  a (TeamAlloc.games p1 round court) && a (TeamAlloc.games p2 round court).

(** Number of (round, duo slot) combinations in which two players are
    partners; the duo slots of [num_courts] courts are [0 .. 2*num_courts-1]. *)
Definition partner_count (a : valuation TeamAlloc.var)
  (num_rounds num_courts p1 p2 : Z) : Z :=
  sum (map (fun round =>
    sum (map (fun slot => if partnered a p1 p2 round slot then 1 else 0)
          (range (2 * num_courts))))
    (range num_rounds)).

(** Number of players on the bench court in a round. *)
Definition on_bench_court (a : valuation TeamAlloc.var)
  (num_players num_courts round : Z) : Z :=
  sum (map (fun player => Value a (TeamAlloc.games player round num_courts))
        (range num_players)).

(** The valuation of the team model fixed by the court and the duo of
    every player in every round. *)
Definition team_valuation (court_of duo_of : Z -> Z -> Z -> bool) (num_courts : Z)
  : valuation TeamAlloc.var :=
  fun v =>
    match v with
    | TeamAlloc.games p r c => court_of p r c
    | TeamAlloc.benchVar p r => court_of p r num_courts
    | TeamAlloc.b_court p1 p2 r c => court_of p1 r c && court_of p2 r c
    | TeamAlloc.duoVar p r s => duo_of p r s
    | TeamAlloc.b_duo p1 p2 r s => duo_of p1 r s && duo_of p2 r s
    end.

(** 4 players, 2 rounds, 1 court: 1-2 against 3-4, then 1-3 against 2-4. *)
Definition courts_4_2_1 (player round court : Z) : bool := court =? 0.

Definition duos_4_2_1 (player round slot : Z) : bool :=
  if round =? 0 then
    if slot =? 0 then (player =? 0) || (player =? 1)
    else (slot =? 1) && ((player =? 2) || (player =? 3))
  else
    if slot =? 0 then (player =? 0) || (player =? 2)
    else (slot =? 1) && ((player =? 1) || (player =? 3)).

Definition schedule_4_2_1 : valuation TeamAlloc.var :=
  team_valuation courts_4_2_1 duos_4_2_1 1.

(** 5 players, 5 rounds, 1 court: player [r+1] sits out round [r]; the
    neighbours of the benched player in the cycle play together, and so
    do its neighbours at distance two. *)
Definition plan_5_5_1 (player round : Z) : bool :=
  (0 <=? round) && (round <? 5) && (player =? round).

Definition courts_5_5_1 (player round court : Z) : bool :=
  if court =? 0 then negb (player =? round) else (court =? 1) && (player =? round).

Definition duos_5_5_1 (player round slot : Z) : bool :=
  if slot =? 0 then (player =? (round + 1) mod 5) || (player =? (round + 4) mod 5)
  else (slot =? 1) && ((player =? (round + 2) mod 5) || (player =? (round + 3) mod 5)).

Definition schedule_5_5_1 : valuation TeamAlloc.var :=
  team_valuation courts_5_5_1 duos_5_5_1 1.

(** The bench matrix [bench_assignements] that the reading loop of
    teamAlloc.py must rebuild from a bench plan. *)
Definition bench_matrix_of (plan : Z -> Z -> bool) (num_players num_rounds : Z)
  : list (list Z) :=
  map (fun p => map (fun t => Z.b2z (plan p t)) (range num_rounds)) (range num_players).

(** 8 players, 1 round, 2 courts: players 1-4 form group 0, players 5-8
    group 1.  The two court assignments: each group on the court of its
    own index, or the two groups swapped. *)
Definition groups_8_1_2 : list (list (list Z)) :=
  [[[1; 1; 1; 1; 0; 0; 0; 0]; [0; 0; 0; 0; 1; 1; 1; 1]]].

Definition court_valuation (on_court : Z -> Z -> Z -> bool)
  (group_assignements : list (list (list Z))) : valuation CourtAlloc.var :=
  fun v =>
    match v with
    | CourtAlloc.games r c g => on_court r c g
    | CourtAlloc.groupVar r g p =>
        match CourtAlloc.group_cell group_assignements r g p with
        | Ok x => negb (x =? 0)
        | Raise _ => false
        end
    end.

Definition straight_8_1_2 : valuation CourtAlloc.var :=
  court_valuation (fun r c g => c =? g) groups_8_1_2.

Definition swapped_8_1_2 : valuation CourtAlloc.var :=
  court_valuation (fun r c g => negb (c =? g)) groups_8_1_2.

(** The entries that [write_bench] emits for one round, and the
    constraint that the reading loop of teamAlloc.py posts for an entry. *)
Definition bench_chunk (a : valuation BenchAlloc.var) (num_players round : Z) : list Z :=
  flat_map (fun player =>
    if a (BenchAlloc.bench player round) then [player + 1] else [])
    (range num_players).

Definition bench_pin (num_courts round v : Z) : constraint TeamAlloc.var :=
  Add (LSum [TeamAlloc.games (v - 1) round num_courts]) REq (LConst 1) None.

(** A set of cells of the bench matrix, grown by the entries of a round. *)
Definition mark (cells : Z -> Z -> bool) (round : Z) (entries : list Z)
  : Z -> Z -> bool :=
  fun p t => cells p t || ((t =? round) && existsb (fun v => v - 1 =? p) entries).

(** ** benchAlloc.py: PlayersPartialSolutionPrinter *)

Module BenchPrinter.

Record printer := {
  _solution_count : Z;
  _solution_limit : Z
}.

Definition init (limit : Z) : printer :=
  {| _solution_count := 0; _solution_limit := limit |}.

(** [print_schedule]: the list printed after [round r:], round by round. *)
Definition print_schedule (a : valuation BenchAlloc.var) (num_players num_rounds : Z)
  : list (list Z) :=
  map (fun round =>
    flat_map (fun player =>
      if a (BenchAlloc.bench player round) then [player + 1] else [])
      (range num_players))
    (range num_rounds).

(** [print_player_stat]: the value of [sameplayers] that is printed. *)
Definition print_player_stat (a : valuation BenchAlloc.var) (num_players num_rounds : Z)
  : Z :=
  sum (flat_map (fun p1 =>
    flat_map (fun p2 =>
      flat_map (fun r1 =>
        map (fun r2 =>
          let p1r1 := Value a (BenchAlloc.bench p1 r1) in
          let p2r1 := Value a (BenchAlloc.bench p2 r1) in
          let p1r2 := Value a (BenchAlloc.bench p1 r2) in
          let p2r2 := Value a (BenchAlloc.bench p2 r2) in
          if p1r1 + p2r1 + p1r2 + p2r2 =? 4 then 1 else 0)
          (range2 (r1 + 1) num_rounds))
        (range num_rounds))
      (range2 (p1 + 1) num_players))
    (range num_players)).

(** What one call of the callback shows and writes. *)
Record emission := {
  schedule : list (list Z);
  sameplayers : Z;
  bench_file : list Z
}.

(** [on_solution_callback]: new state, what is emitted, and whether
    [StopSearch] is requested. *)
Definition on_solution_callback (s : printer) (a : valuation BenchAlloc.var)
  (num_players num_rounds : Z) : printer * emission * bool :=
  let s1 := {| _solution_count := _solution_count s + 1;
               _solution_limit := _solution_limit s |} in
  (s1,
   {| schedule := print_schedule a num_players num_rounds;
      sameplayers := print_player_stat a num_players num_rounds;
      bench_file := BenchAlloc.write_bench a num_players num_rounds |},
   _solution_limit s1 <=? _solution_count s1).

(** The solver calls the callback on the solutions it finds, one after
    the other, until the callback asks it to stop; [file] is the content
    of the bench file, if it exists. *)
Fixpoint search (sols : list (valuation BenchAlloc.var)) (s : printer)
  (file : option (list Z)) (num_players num_rounds : Z)
  : printer * option (list Z) :=
  match sols with
  | [] => (s, file)
  | a :: rest =>
      let '(s', e, stop) := on_solution_callback s a num_players num_rounds in
      if stop then (s', Some (bench_file e))
      else search rest s' (Some (bench_file e)) num_players num_rounds
  end.

End BenchPrinter.

(** ** The groups file: written by teamAlloc.py, read by courtAlloc.py *)

(** [f'{n}'] and the key that [json.dump] writes for an integer key. *)
Definition py_str (n : Z) : String.string :=
  DecimalString.NilZero.string_of_int (Z.to_int n).

(** A JSON object, with its keys in the order they were inserted. *)
Definition json_object (A : Type) : Type := list (String.string * A).

(** [d[k]] on the dictionary loaded from a JSON object. *)
Fixpoint dict_get {A} (d : json_object A) (k : String.string) : result A :=
  match d with
  | [] => Raise KeyError
  | (k', x) :: rest => if String.eqb k' k then Ok x else dict_get rest k
  end.

Module TeamWriter.

(** The list [games[court]] that [write_bench] of teamAlloc.py fills for
    one court of one round: the first duo, then the second. *)
Definition members (a : valuation TeamAlloc.var) (num_players round court : Z)
  : list Z :=
  let pair := court * 2 in
  flat_map (fun player =>
    if a (TeamAlloc.duoVar player round pair) then [player + 1] else [])
    (range num_players)
  ++ flat_map (fun player =>
       if a (TeamAlloc.duoVar player round (pair + 1)) then [player + 1] else [])
       (range num_players).

(** [TeamAllocationSolutionPrinter.write_bench]: the value dumped to the
    groups file. *)
Definition write_bench (a : valuation TeamAlloc.var)
  (num_players num_rounds num_courts : Z) : list (json_object (list Z)) :=
  map (fun round =>
    map (fun court => (py_str court, members a num_players round court))
      (range num_courts))
    (range num_rounds).

End TeamWriter.

Module CourtReader.

(** [group_assignements[round][group][player]=1] *)
Definition set_cell (group_assignements : list (list (list Z)))
  (round group player : Z) : result (list (list (list Z))) :=
  by_round <- py_get group_assignements round ;;
  by_group <- py_get by_round group ;;
  by_group' <- py_set by_group player 1 ;;
  by_round' <- py_set by_round group by_group' ;;
  py_set group_assignements round by_round'.

(** Body of [for member in range(num_players_per_court):]. *)
Definition read_member (groupMembers : list Z) (round group member : Z)
  (group_assignements : list (list (list Z))) : result (list (list (list Z))) :=
  v <- py_get groupMembers member ;;
  let player := v - 1 in
  set_cell group_assignements round group player.

(** Body of [for group in all_played_courts:]. *)
Definition read_group (group_ass : json_object (list Z)) (round group : Z)
  (group_assignements : list (list (list Z))) : result (list (list (list Z))) :=
  groupMembers <- dict_get group_ass (py_str group) ;;
  for_each (range 4) (read_member groupMembers round group) group_assignements.

(** Body of [for round in all_rounds:]. *)
Definition read_round (num_courts : Z) (groups : list (json_object (list Z)))
  (round : Z) (group_assignements : list (list (list Z)))
  : result (list (list (list Z))) :=
  group_ass <- py_get groups round ;;
  for_each (range num_courts) (read_group group_ass round) group_assignements.

(** The matrix [group_assignements] that [main] of courtAlloc.py fills
    from the content [groups] of the groups file. *)
Definition read_groups (num_players num_rounds num_courts : Z)
  (groups : list (json_object (list Z))) : result (list (list (list Z))) :=
  for_each (range num_rounds) (read_round num_courts groups)
    (map (fun _ => map (fun _ => map (fun _ => 0) (range num_players))
                     (range num_courts))
       (range num_rounds)).

End CourtReader.

(** The 0/1 matrix, indexed by round, group and player, of a set of
    cells. *)
Definition group_matrix_of (cells : Z -> Z -> Z -> bool)
  (num_players num_rounds num_courts : Z) : list (list (list Z)) :=
  map (fun r => map (fun g => map (fun p => Z.b2z (cells r g p)) (range num_players))
                  (range num_courts))
    (range num_rounds).

(** A player is in one of the two duos of a court. *)
Definition in_a_duo (a : valuation TeamAlloc.var) (player round court : Z) : bool :=
  a (TeamAlloc.duoVar player round (court * 2))
  || a (TeamAlloc.duoVar player round (court * 2 + 1)).

(** Number of players in a duo slot. *)
Definition duo_size (a : valuation TeamAlloc.var) (num_players round slot : Z) : Z :=
  sum (map (fun player => Value a (TeamAlloc.duoVar player round slot))
        (range num_players)).

(** ** validate_sat.py: class benchGroup *)

Module BenchGroup.

(** Body of [for z in range(self._num_bench):]; the state is [count] and
    [self._bench_assignements]. *)
Definition read_entry (bench_list : list Z) (y : Z) (_ : Z)
  (s : Z * list (list Z)) : result (Z * list (list Z)) :=
  let '(count, bench_assignements) := s in
  v <- py_get bench_list count ;;
  row <- py_get bench_assignements (v - 1) ;;
  row' <- py_set row y 1 ;;
  ba' <- py_set bench_assignements (v - 1) row' ;;
  Ok (count + 1, ba').

(** [read_bench_groups]: the matrix [self._bench_assignements] once the
    bench file, which holds [bench_list], is read. *)
Definition read_bench_groups (num_players num_rounds num_courts : Z)
  (bench_list : list Z) : result (list (list Z)) :=
  let num_bench := num_players - num_courts * 4 in
  let bench_assignements :=
    map (fun p => map (fun t => 0) (range num_rounds)) (range num_players) in
  if 0 <? num_bench then
    s <- for_each (range num_rounds) (fun y =>
           for_each (range num_bench) (read_entry bench_list y))
           (0, bench_assignements) ;;
    Ok (snd s)
  else Ok bench_assignements.

(** [self._bench_assignements[p][t]] *)
Definition cell (bench_assignements : list (list Z)) (p t : Z) : result Z :=
  row <- py_get bench_assignements p ;;
  py_get row t.

(** [print_bench]: the list printed for each round. *)
Definition print_bench (bench_assignements : list (list Z))
  (num_players num_rounds : Z) : result (list (list Z)) :=
  for_each (range num_rounds) (fun round printed =>
    bench <- for_each (range num_players) (fun player bench =>
               x <- cell bench_assignements player round ;;
               Ok (if x =? 0 then bench else bench ++ [player + 1]))
               [] ;;
    Ok (printed ++ [bench]))
    [].

(** [print_bench_optimization]: the value of [sameplayers] that is
    printed. *)
Definition print_bench_optimization (bench_assignements : list (list Z))
  (num_players num_rounds : Z) : result Z :=
  for_each (range num_players) (fun p1 =>
    for_each (range2 (p1 + 1) num_players) (fun p2 =>
      for_each (range num_rounds) (fun t1 =>
        for_each (range2 (t1 + 1) num_rounds) (fun t2 sameplayers =>
          p1t1 <- cell bench_assignements p1 t1 ;;
          p2t1 <- cell bench_assignements p2 t1 ;;
          p1t2 <- cell bench_assignements p1 t2 ;;
          p2t2 <- cell bench_assignements p2 t2 ;;
          Ok (if p1t1 + p2t1 + p1t2 + p2t2 =? 4
              then sameplayers + 1 else sameplayers)))))
    0.

End BenchGroup.

(** Cells of the group matrix, grown by the members of a group. *)
Definition mark_group (cells : Z -> Z -> Z -> bool) (round group : Z)
  (members : list Z) : Z -> Z -> Z -> bool :=
  fun r g p =>
    cells r g p
    || ((r =? round) && (g =? group) && existsb (fun v => v - 1 =? p) members).

(** ** courtAlloc.py: the bench rows read by [main] *)

Module CourtBench.

(** Body of [for _ in range(num_bench):]; the state is [count] and
    [bench]. *)
Definition read_entry (bench_list : list Z) (_ : Z) (s : Z * list Z)
  : result (Z * list Z) :=
  let '(count, bench) := s in
  v <- py_get bench_list count ;;
  Ok (count + 1, bench ++ [v]).

(** Body of [for _ in all_rounds:]; the state is [count] and
    [bench_matrix]. *)
Definition read_round (num_bench : Z) (bench_list : list Z) (_ : Z)
  (s : Z * list (list Z)) : result (Z * list (list Z)) :=
  let '(count, bench_matrix) := s in
  r <- for_each (range num_bench) (read_entry bench_list) (count, []) ;;
  Ok (fst r, bench_matrix ++ [snd r]).

(** [main] of courtAlloc.py from its first line to the end of the loop
    that builds [bench_matrix]: the bounds computed under
    [if num_bench>0:], whose divisions may raise, then the rows; [file]
    is the array held by the bench file, read only when [num_bench > 0]. *)
Definition read_bench (num_players num_rounds num_courts : Z) (file : list Z)
  : result (list (list Z)) :=
  let num_players_per_court := 4 in
  let num_bench := num_players - num_courts * num_players_per_court in
  _ <- (if 0 <? num_bench then
          min_bench <- floor_div (num_rounds * num_bench) num_players ;;
          max_bench <- ceil_div (num_rounds * num_bench) num_players ;;
          q <- ceil_div num_players num_bench ;;
          Ok tt
        else Ok tt) ;;
  let bench_list := if 0 <? num_bench then file else [] in
  s <- for_each (range num_rounds) (read_round num_bench bench_list) (0, []) ;;
  Ok (snd s).

End CourtBench.

(** ** validate_sat.py: class groupTeams *)

Module GroupTeams.

(** [self._group_assignements[round][court][groupMembers[i]-1]=1] *)
Definition set_member (group_assignements : list (list (list Z)))
  (round court : Z) (groupMembers : list Z) (i : Z)
  : result (list (list (list Z))) :=
  by_round <- py_get group_assignements round ;;
  by_court <- py_get by_round court ;;
  v <- py_get groupMembers i ;;
  by_court' <- py_set by_court (v - 1) 1 ;;
  by_round' <- py_set by_round court by_court' ;;
  py_set group_assignements round by_round'.

(** Body of [for court in self._all_played_courts:]. *)
Definition read_court (group_ass : json_object (list Z)) (round court : Z)
  (group_assignements : list (list (list Z))) : result (list (list (list Z))) :=
  groupMembers <- dict_get group_ass (py_str court) ;;
  ga1 <- set_member group_assignements round court groupMembers 0 ;;
  ga2 <- set_member ga1 round court groupMembers 1 ;;
  ga3 <- set_member ga2 round court groupMembers 2 ;;
  set_member ga3 round court groupMembers 3.

(** [read_team_groups]: the matrix [self._group_assignements] once the
    groups file, which holds [groups], is read. *)
Definition read_team_groups (num_players num_rounds num_courts : Z)
  (groups : list (json_object (list Z))) : result (list (list (list Z))) :=
  for_each (range num_rounds) (fun round group_assignements =>
    group_ass <- py_get groups round ;;
    for_each (range num_courts) (read_court group_ass round) group_assignements)
    (map (fun z => map (fun y => map (fun x => 0) (range num_players))
                     (range num_courts))
       (range num_rounds)).

(** [print_player_stat]: the value of [sameplayers] that is printed. *)
Definition print_player_stat (group_assignements : list (list (list Z)))
  (num_players num_rounds num_courts : Z) : result Z :=
  for_each (range num_players) (fun p1 =>
    for_each (range2 (p1 + 1) num_players) (fun p2 =>
      for_each (range num_rounds) (fun round =>
        let roundn := (round + 1) mod num_rounds in
        for_each (range num_courts) (fun court1 =>
          for_each (range num_courts) (fun court2 sameplayers =>
            p1r1c1 <- CourtAlloc.group_cell group_assignements round court1 p1 ;;
            p2r1c1 <- CourtAlloc.group_cell group_assignements round court1 p2 ;;
            p1r2c2 <- CourtAlloc.group_cell group_assignements roundn court2 p1 ;;
            p2r2c2 <- CourtAlloc.group_cell group_assignements roundn court2 p2 ;;
            Ok (if p1r1c1 + p2r1c1 + p1r2c2 + p2r2c2 =? 4
                then sameplayers + 1 else sameplayers))))))
    0.

End GroupTeams.

(** * Properties *)

(** ** Lists, ranges and sums *)

Lemma in_range2 (a b x : Z) : In x (range2 a b) <-> a <= x < b.
Proof.
  unfold range2. rewrite in_map_iff. split.
  - intros [i [<- Hi]]. apply in_seq in Hi. lia.
  - intros H. exists (Z.to_nat (x - a)). split; [lia|].
    apply in_seq. lia.
Qed.

Lemma in_range (n x : Z) : In x (range n) <-> 0 <= x < n.
Proof. unfold range. apply in_range2. Qed.

Lemma sum_app (l1 l2 : list Z) : sum (l1 ++ l2) = sum l1 + sum l2.
Proof. induction l1 as [|h t IH]; simpl; [reflexivity | rewrite IH; lia]. Qed.

Lemma sum_map_ext {A} (f g : A -> Z) (l : list A) :
  (forall x, In x l -> f x = g x) -> sum (map f l) = sum (map g l).
Proof.
  induction l as [|h t IH]; simpl; intros H; [reflexivity|].
  rewrite (H h) by (left; reflexivity).
  rewrite IH by (intros x Hx; apply H; right; exact Hx). reflexivity.
Qed.

Lemma Value_range {V} (a : valuation V) (v : V) : 0 <= Value a v <= 1.
Proof. unfold Value. destruct (a v); simpl; lia. Qed.

Lemma sum_Value_nonneg {V} (a : valuation V) (vs : list V) :
  0 <= sum (map (Value a) vs).
Proof.
  induction vs as [|h t IH]; simpl; [lia|].
  pose proof (Value_range a h). lia.
Qed.

Lemma sum_Value_zero {V} (a : valuation V) (vs : list V) :
  sum (map (Value a) vs) = 0 -> forall v, In v vs -> a v = false.
Proof.
  induction vs as [|h t IH]; simpl; intros Hs v Hv; [contradiction|].
  pose proof (Value_range a h) as Hh.
  pose proof (sum_Value_nonneg a t) as Ht.
  destruct Hv as [<- | Hv].
  - assert (E : Value a h = 0) by lia.
    unfold Value in E. destruct (a h); [discriminate | reflexivity].
  - apply IH; [lia | exact Hv].
Qed.

(** ** Solutions and reified indicators *)

Lemma solution_holds {V} (m : CpModel V) (a : valuation V) (c : constraint V) :
  solution m a = true -> In c (constraints m) -> holds a c = true.
Proof.
  unfold solution. intros H Hc.
  rewrite forallb_forall in H. apply H, Hc.
Qed.

Lemma reified_eq_spec {V} (a : valuation V) (b : V) (vs : list V) (k : Z) :
  (forall c, In c (reified_eq b vs k) -> holds a c = true) ->
  (a b = true <-> sum (map (Value a) vs) = k).
Proof.
  intros H.
  pose proof (H _ (or_introl eq_refl)) as H1.
  pose proof (H _ (or_intror (or_introl eq_refl))) as H2.
  simpl in H1, H2. destruct (a b); simpl in H1, H2.
  - apply Z.eqb_eq in H1. tauto.
  - apply negb_true_iff, Z.eqb_neq in H2. split; [discriminate | tauto].
Qed.

Lemma reified_eq_Value {V} (a : valuation V) (b : V) (vs : list V) (k : Z) :
  (forall c, In c (reified_eq b vs k) -> holds a c = true) ->
  Value a b = if sum (map (Value a) vs) =? k then 1 else 0.
Proof.
  intros H. apply reified_eq_spec in H. unfold Value at 1.
  destruct (Z.eqb_spec (sum (map (Value a) vs)) k) as [E|E].
  - destruct H as [_ H]. rewrite (H E). reflexivity.
  - destruct (a b) eqn:Eb; [|reflexivity]. destruct H as [H _].
    exfalso. apply E, H. reflexivity.
Qed.

(** ** benchAlloc.py: the degenerate configuration *)

Lemma ceil_div_zero (a : Z) : ceil_div a 0 = Raise ZeroDivisionError.
Proof. reflexivity. Qed.

Lemma main_without_bench_raises (num_players num_rounds num_courts : Z) :
  num_players - num_courts * 4 = 0 ->
  BenchAlloc.main num_players num_rounds num_courts = Raise ZeroDivisionError.
Proof.
  intros H. unfold BenchAlloc.main. rewrite H.
  unfold floor_div, ceil_div.
  destruct (num_players =? 0); reflexivity.
Qed.

(** C1. With the default configuration (12 players, 6 rounds, 3 courts,
    hence no player on the bench) [main] of benchAlloc.py does not leave
    the stage quietly: the [exit] under [if num_bench==0:] is not a call,
    and the computation of [distance_on_bench] divides by zero. *)
Theorem bench_main_default_raises :
  12 - 3 * 4 = 0 /\ BenchAlloc.main 12 6 3 = Raise ZeroDivisionError.
Proof. split; reflexivity. Qed.

(** ** benchAlloc.py: what every solution of the model satisfies *)

Lemma bench_main_inv (num_players num_rounds num_courts : Z) (m : CpModel BenchAlloc.var) :
  BenchAlloc.main num_players num_rounds num_courts = Ok m ->
  let num_bench := num_players - num_courts * 4 in
  num_players <> 0 /\ num_bench <> 0 /\
  constraints m =
    BenchAlloc.constraint1 num_players num_rounds num_bench
    ++ BenchAlloc.constraint2 num_players num_rounds
         (num_rounds * num_bench / num_players)
         (- (- (num_rounds * num_bench) / num_players))
    ++ BenchAlloc.constraint3 num_players num_rounds
         (- (- num_players / num_bench) - 2)
    ++ BenchAlloc.objective1 num_players num_rounds.
Proof.
  unfold BenchAlloc.main, floor_div, ceil_div. intros H.
  destruct (Z.eqb_spec num_players 0) as [E1|E1]; [discriminate|].
  simpl in H.
  destruct (Z.eqb_spec (num_players - num_courts * 4) 0) as [E2|E2]; [discriminate|].
  simpl in H. injection H as <-. simpl. auto.
Qed.

Lemma bench_roster_constraint (num_players num_rounds num_bench round : Z) :
  In round (range num_rounds) ->
  In (Add (LSum (map (fun player => BenchAlloc.bench player round) (range num_players)))
        REq (LConst num_bench) None)
     (BenchAlloc.constraint1 num_players num_rounds num_bench).
Proof.
  intros H. unfold BenchAlloc.constraint1. apply in_flat_map.
  exists round. split; [exact H | left; reflexivity].
Qed.

Lemma bench_constraint2_player (num_players num_rounds min_bench max_bench p1 : Z)
  (c : constraint BenchAlloc.var) :
  In p1 (range num_players) ->
  In c (flat_map (fun t1 => reified_eq (BenchAlloc.b_bench p1 t1) [BenchAlloc.bench p1 t1] 1)
          (range num_rounds)
        ++ [Add (LSum (map (fun t1 => BenchAlloc.b_bench p1 t1) (range num_rounds)))
              RGe (LConst min_bench) None;
            Add (LSum (map (fun t1 => BenchAlloc.b_bench p1 t1) (range num_rounds)))
              RLe (LConst max_bench) None]) ->
  In c (BenchAlloc.constraint2 num_players num_rounds min_bench max_bench).
Proof.
  intros Hp Hc. unfold BenchAlloc.constraint2. apply in_flat_map.
  exists p1. split; assumption.
Qed.

Lemma sum_singleton_Value {V} (a : valuation V) (v : V) :
  sum (map (Value a) [v]) = Value a v.
Proof. simpl. lia. Qed.

(** C6. In every solution of the bench model each round benches exactly
    [num_bench] players, and each player is benched between
    [floor(num_rounds*num_bench/num_players)] and
    [ceil(num_rounds*num_bench/num_players)] times. *)
Theorem bench_roster_and_fairness
  (num_players num_rounds num_courts : Z) (m : CpModel BenchAlloc.var)
  (a : valuation BenchAlloc.var) :
  BenchAlloc.main num_players num_rounds num_courts = Ok m ->
  solution m a = true ->
  let num_bench := num_players - num_courts * 4 in
  let min_bench := num_rounds * num_bench / num_players in
  let max_bench := - (- (num_rounds * num_bench) / num_players) in
  (forall round, In round (range num_rounds) ->
     benched_in_round a num_players round = num_bench)
  /\ (forall player, In player (range num_players) ->
        min_bench <= rounds_on_bench a num_rounds player <= max_bench).
Proof.
  intros Hmain Hsol num_bench min_bench max_bench.
  apply bench_main_inv in Hmain. destruct Hmain as (_ & _ & Hc).
  assert (Hin : forall c,
    In c (BenchAlloc.constraint1 num_players num_rounds num_bench)
    \/ In c (BenchAlloc.constraint2 num_players num_rounds min_bench max_bench) ->
    holds a c = true).
  { intros c Hcin. apply (solution_holds m a c Hsol). rewrite Hc.
    apply in_or_app. destruct Hcin as [H1|H2]; [left; exact H1|].
    right. apply in_or_app. left. exact H2. }
  split.
  - intros round Hr.
    pose proof (Hin _ (or_introl (bench_roster_constraint num_players _ num_bench _ Hr))) as H.
    simpl in H. apply Z.eqb_eq in H. unfold benched_in_round.
    rewrite map_map in H. exact H.
  - intros player Hp.
    assert (Hb : rounds_on_bench a num_rounds player
                 = sum (map (Value a) (map (fun t1 => BenchAlloc.b_bench player t1)
                                         (range num_rounds)))).
    { unfold rounds_on_bench. rewrite map_map. apply sum_map_ext.
      intros t1 Ht1.
      rewrite (reified_eq_Value a (BenchAlloc.b_bench player t1)
                 [BenchAlloc.bench player t1] 1).
      - rewrite sum_singleton_Value.
        pose proof (Value_range a (BenchAlloc.bench player t1)).
        destruct (Z.eqb_spec (Value a (BenchAlloc.bench player t1)) 1); lia.
      - intros c Hcin. apply Hin. right.
        apply (bench_constraint2_player _ _ _ _ player c Hp).
        apply in_or_app. left. apply in_flat_map. exists t1. split; assumption. }
    rewrite Hb. split.
    + assert (H : holds a (Add (LSum (map (fun t1 => BenchAlloc.b_bench player t1)
                                        (range num_rounds)))
                             RGe (LConst min_bench) None) = true).
      { apply Hin. right. apply (bench_constraint2_player _ _ _ _ player _ Hp).
        apply in_or_app. right. left. reflexivity. }
      simpl in H. apply Z.leb_le in H. exact H.
    + assert (H : holds a (Add (LSum (map (fun t1 => BenchAlloc.b_bench player t1)
                                        (range num_rounds)))
                             RLe (LConst max_bench) None) = true).
      { apply Hin. right. apply (bench_constraint2_player _ _ _ _ player _ Hp).
        apply in_or_app. right. right. left. reflexivity. }
      simpl in H. apply Z.leb_le in H. exact H.
Qed.

Lemma solution_plan_6_2_1 :
  exists m, BenchAlloc.main 6 2 1 = Ok m
            /\ solution m (bench_valuation plan_6_2_1 2) = true.
Proof. eexists. split; [reflexivity | vm_compute; reflexivity]. Qed.

Lemma solution_plan_14_6_3 :
  exists m, BenchAlloc.main 14 6 3 = Ok m
            /\ solution m (bench_valuation plan_14_6_3 6) = true.
Proof. eexists. split; [reflexivity | vm_compute; reflexivity]. Qed.

Lemma bench_roster_and_fairness_witness :
  (forall round, In round (range 6) ->
     benched_in_round (bench_valuation plan_14_6_3 6) 14 round = 2)
  /\ (forall player, In player (range 14) ->
        0 <= rounds_on_bench (bench_valuation plan_14_6_3 6) 6 player <= 1).
Proof.
  eapply (bench_roster_and_fairness 14 6 3); [reflexivity | vm_compute; reflexivity].
Defined.

Lemma bench_constraint3_player (num_players num_rounds distance_on_bench p1 : Z)
  (c : constraint BenchAlloc.var) :
  In p1 (range num_players) ->
  In c (flat_map (fun t1 =>
          flat_map (fun t2 =>
            reified_eq (BenchAlloc.b_dist p1 t1 t2)
              [BenchAlloc.bench p1 t1; BenchAlloc.bench p1 (t2 mod num_rounds)] 2)
            (range2 (t1 + 1) (t1 + 1 + distance_on_bench)))
          (range num_rounds)
        ++ [Add (LSum (flat_map (fun t1 =>
                   map (fun t2 => BenchAlloc.b_dist p1 t1 t2)
                     (range2 (t1 + 1) (t1 + 1 + distance_on_bench)))
                   (range num_rounds)))
              REq (LConst 0) None]) ->
  In c (BenchAlloc.constraint3 num_players num_rounds distance_on_bench).
Proof.
  intros Hp Hc. unfold BenchAlloc.constraint3. apply in_flat_map.
  exists p1. split; assumption.
Qed.

(** What constraint #3 gives: a player benched in a round is not benched
    in any of the [distance_on_bench] rounds that follow it. *)
Lemma bench_distance
  (num_players num_rounds num_courts : Z) (m : CpModel BenchAlloc.var)
  (a : valuation BenchAlloc.var) :
  BenchAlloc.main num_players num_rounds num_courts = Ok m ->
  solution m a = true ->
  let distance_on_bench := - (- num_players / (num_players - num_courts * 4)) - 2 in
  forall player round k,
    In player (range num_players) -> In round (range num_rounds) ->
    1 <= k <= distance_on_bench ->
    ~ (a (BenchAlloc.bench player round) = true
       /\ a (BenchAlloc.bench player ((round + k) mod num_rounds)) = true).
Proof.
  intros Hmain Hsol d player round k Hp Hr Hk [B1 B2].
  apply bench_main_inv in Hmain. destruct Hmain as (_ & _ & Hc).
  assert (Hin : forall c,
    In c (BenchAlloc.constraint3 num_players num_rounds d) -> holds a c = true).
  { intros c Hcin. apply (solution_holds m a c Hsol). rewrite Hc.
    apply in_or_app. right. apply in_or_app. right. apply in_or_app. left.
    exact Hcin. }
  assert (Hw : In (round + k) (range2 (round + 1) (round + 1 + d)))
    by (apply in_range2; lia).
  (* the indicator of the pair of rounds is 0 ... *)
  assert (Hz : a (BenchAlloc.b_dist player round (round + k)) = false).
  { assert (H : holds a (Add (LSum (flat_map (fun t1 =>
                   map (fun t2 => BenchAlloc.b_dist player t1 t2)
                     (range2 (t1 + 1) (t1 + 1 + d)))
                   (range num_rounds))) REq (LConst 0) None) = true).
    { apply Hin. apply (bench_constraint3_player _ _ _ player _ Hp).
      apply in_or_app. right. left. reflexivity. }
    simpl in H. apply Z.eqb_eq in H.
    apply (sum_Value_zero a _ H). apply in_flat_map.
    exists round. split; [exact Hr|]. apply in_map_iff.
    exists (round + k). split; [reflexivity | exact Hw]. }
  (* ... although both rounds bench the player *)
  assert (Hre : a (BenchAlloc.b_dist player round (round + k)) = true).
  { apply (reified_eq_spec a _
             [BenchAlloc.bench player round;
              BenchAlloc.bench player ((round + k) mod num_rounds)] 2).
    - intros c Hcin. apply Hin.
      apply (bench_constraint3_player _ _ _ player _ Hp).
      apply in_or_app. left. apply in_flat_map. exists round. split; [exact Hr|].
      apply in_flat_map. exists (round + k). split; [exact Hw | exact Hcin].
    - simpl. unfold Value. rewrite B1, B2. reflexivity. }
  congruence.
Qed.

(** C5, as the code has it.  In every solution of the bench model a player
    benched in round [r] is not benched in any of the rounds
    [r+1 .. r+distance_on_bench] (modulo [num_rounds]); so, when
    [distance_on_bench >= 2], the player is not benched in every round of
    the window [r .. r+distance_on_bench-1]. *)
Theorem bench_spacing
  (num_players num_rounds num_courts : Z) (m : CpModel BenchAlloc.var)
  (a : valuation BenchAlloc.var) :
  BenchAlloc.main num_players num_rounds num_courts = Ok m ->
  solution m a = true ->
  let distance_on_bench := - (- num_players / (num_players - num_courts * 4)) - 2 in
  forall player round,
    In player (range num_players) -> In round (range num_rounds) ->
    (forall k, 1 <= k <= distance_on_bench ->
       ~ (a (BenchAlloc.bench player round) = true
          /\ a (BenchAlloc.bench player ((round + k) mod num_rounds)) = true))
    /\ (2 <= distance_on_bench ->
        ~ (forall j, 0 <= j < distance_on_bench ->
             a (BenchAlloc.bench player ((round + j) mod num_rounds)) = true)).
Proof.
  intros Hmain Hsol d player round Hp Hr. split.
  - intros k Hk. exact (bench_distance _ _ _ m a Hmain Hsol player round k Hp Hr Hk).
  - intros Hd Hall.
    apply (bench_distance _ _ _ m a Hmain Hsol player round 1 Hp Hr); [fold d; lia|].
    split.
    + specialize (Hall 0 ltac:(lia)).
      rewrite Z.add_0_r, Z.mod_small in Hall by (apply in_range in Hr; lia).
      exact Hall.
    + apply Hall. lia.
Qed.

Lemma bench_spacing_witness :
  (forall k, 1 <= k <= 5 ->
     ~ (bench_valuation plan_14_6_3 6 (BenchAlloc.bench 4 2) = true
        /\ bench_valuation plan_14_6_3 6
             (BenchAlloc.bench 4 ((2 + k) mod 6)) = true))
  /\ (2 <= 5 ->
      ~ (forall j, 0 <= j < 5 ->
           bench_valuation plan_14_6_3 6
             (BenchAlloc.bench 4 ((2 + j) mod 6)) = true)).
Proof.
  eapply (bench_spacing 14 6 3);
    [reflexivity | vm_compute; reflexivity | apply in_range; lia | apply in_range; lia].
Defined.

(** C5, as stated, fails when [distance_on_bench = 1]: with 6 players,
    2 rounds and 1 court the plan [plan_6_2_1] is a solution, and player 0
    is benched in every round of the one-round window that starts at
    round 0. *)
Lemma bench_window_counterexample :
  exists m,
    BenchAlloc.main 6 2 1 = Ok m
    /\ solution m (bench_valuation plan_6_2_1 2) = true
    /\ 1 <= 6 - 1 * 4
    /\ - (- 6 / (6 - 1 * 4)) - 2 = 1
    /\ In 0 (range 6) /\ In 0 (range 2)
    /\ (forall j, 0 <= j < - (- 6 / (6 - 1 * 4)) - 2 ->
          bench_valuation plan_6_2_1 2 (BenchAlloc.bench 0 ((0 + j) mod 2)) = true).
Proof.
  eexists. split; [reflexivity|].
  split; [vm_compute; reflexivity|].
  split; [lia|]. split; [reflexivity|].
  split; [apply in_range; lia|]. split; [apply in_range; lia|].
  intros j Hj. change (- (- 6 / (6 - 1 * 4)) - 2) with 1 in Hj.
  assert (j = 0) by lia. subst j. reflexivity.
Qed.

(** ** teamAlloc.py: what every solution of the model satisfies *)

Lemma sum_map_flat_map {A B} (f : B -> Z) (g : A -> list B) (l : list A) :
  sum (map f (flat_map g l)) = sum (map (fun x => sum (map f (g x))) l).
Proof.
  induction l as [|h t IH]; simpl; [reflexivity|].
  rewrite map_app, sum_app, IH. reflexivity.
Qed.

Lemma sum_Value_positive {V} (a : valuation V) (vs : list V) :
  0 < sum (map (Value a) vs) -> exists v, In v vs /\ a v = true.
Proof.
  induction vs as [|h t IH]; simpl; intros H; [lia|].
  destruct (a h) eqn:E.
  - exists h. split; [left; reflexivity | exact E].
  - unfold Value at 1 in H. rewrite E in H. simpl in H.
    destruct (IH H) as [v [Hv Ev]]. exists v. split; [right; exact Hv | exact Ev].
Qed.

Lemma pair_of_Values {V} (a : valuation V) (x y : V) :
  sum (map (Value a) [x; y]) = 2 <-> a x = true /\ a y = true.
Proof.
  simpl. unfold Value. destruct (a x), (a y); simpl; split; intros H;
    try lia; try (destruct H; discriminate); auto.
Qed.

(** The duo slots of the courts, court by court, are the slots
    [0 .. 2*num_courts-1] in order. *)
Lemma slots_by_court_seq {B} (f : Z -> B) (n s : nat) :
  flat_map (fun i => [f (Z.of_nat i * 2); f (Z.of_nat i * 2 + 1)]) (seq s n)
  = map (fun j => f (Z.of_nat j)) (seq (2 * s) (2 * n)).
Proof.
  revert s. induction n as [|n IH]; intros s; [reflexivity|].
  replace (2 * S n)%nat with (S (S (2 * n))) by lia.
  cbn [seq flat_map map app]. rewrite IH.
  replace (S (S (2 * s))) with (2 * S s)%nat by lia.
  f_equal; [f_equal; lia|].
  f_equal. f_equal. lia.
Qed.

Lemma slots_by_court {B} (f : Z -> B) (num_courts : Z) :
  flat_map (fun court => [f (court * 2); f (court * 2 + 1)]) (range num_courts)
  = map f (range (2 * num_courts)).
Proof.
  unfold range, range2.
  replace (Z.to_nat (2 * num_courts - 0)) with (2 * Z.to_nat (num_courts - 0))%nat by lia.
  pose proof (slots_by_court_seq f (Z.to_nat (num_courts - 0)) 0) as E.
  change (2 * 0)%nat with 0%nat in E.
  rewrite map_map.
  rewrite (map_ext _ (fun j => f (Z.of_nat j))) by (intros; f_equal; lia).
  rewrite <- E.
  rewrite flat_map_concat_map, map_map, <- flat_map_concat_map.
  apply flat_map_ext. intros i. repeat f_equal; lia.
Qed.

Lemma all_bench_empty (num_courts : Z) : TeamAlloc.all_bench num_courts = [].
Proof.
  unfold TeamAlloc.all_bench, range2.
  replace (num_courts + 1 - (num_courts + 1)) with 0 by lia. reflexivity.
Qed.

Lemma team_main_inv (num_players num_rounds num_courts : Z) (bench_list : list Z)
  (m : CpModel TeamAlloc.var) :
  TeamAlloc.main num_players num_rounds num_courts bench_list = Ok m ->
  exists c4,
    TeamAlloc.constraint4 num_players num_rounds num_courts
      (num_players - num_courts * 4) bench_list = Ok c4
    /\ constraints m =
         TeamAlloc.constraint1 num_players num_rounds num_courts 4
         ++ TeamAlloc.constraint2 num_players num_rounds num_courts
              (num_players - num_courts * 4)
         ++ TeamAlloc.constraint3 num_players num_rounds num_courts
         ++ c4
         ++ TeamAlloc.constraint5 num_players num_rounds num_courts
         ++ TeamAlloc.duo_definition num_players num_rounds num_courts
         ++ TeamAlloc.constraint6 num_players num_rounds num_courts
         ++ TeamAlloc.constraint7 num_players num_rounds num_courts.
Proof.
  unfold TeamAlloc.main. intros H.
  match type of H with bind ?pre _ = _ => destruct pre as [e|[]] end;
    [discriminate|]. simpl in H.
  destruct (TeamAlloc.constraint4 _ _ _ _ _) as [e|c4]; [discriminate|].
  simpl in H. injection H as <-. exists c4. split; reflexivity.
Qed.

(** Membership of the constraints of a pair of players in constraints #5
    and #7. *)
Lemma team_constraint5_pair (num_players num_rounds num_courts p1 p2 : Z)
  (c : constraint TeamAlloc.var) :
  0 <= p1 < p2 -> p2 < num_players ->
  In c (flat_map (fun round =>
          flat_map (fun court =>
            reified_eq (TeamAlloc.b_court p1 p2 round court)
              [TeamAlloc.games p1 round court; TeamAlloc.games p2 round court] 2)
            (range num_courts))
          (range num_rounds)
        ++ [Add (LSum (flat_map (fun round =>
                   map (fun court => TeamAlloc.b_court p1 p2 round court)
                     (range num_courts))
                   (range num_rounds)))
              RGt (LConst 0) None]) ->
  In c (TeamAlloc.constraint5 num_players num_rounds num_courts).
Proof.
  intros H1 H2 Hc. unfold TeamAlloc.constraint5. apply in_flat_map.
  exists p1. split; [apply in_range; lia|]. apply in_flat_map.
  exists p2. split; [apply in_range2; lia | exact Hc].
Qed.

Lemma team_constraint7_pair (num_players num_rounds num_courts p1 p2 : Z)
  (c : constraint TeamAlloc.var) :
  0 <= p1 < p2 -> p2 < num_players ->
  In c (flat_map (fun round =>
          flat_map (fun court =>
            let pair := court * 2 in
            reified_eq (TeamAlloc.b_duo p1 p2 round pair)
              [TeamAlloc.duoVar p1 round pair; TeamAlloc.duoVar p2 round pair] 2
            ++ reified_eq (TeamAlloc.b_duo p1 p2 round (pair + 1))
              [TeamAlloc.duoVar p1 round (pair + 1);
               TeamAlloc.duoVar p2 round (pair + 1)] 2)
            (range num_courts))
          (range num_rounds)
        ++ [Add (LSum (TeamAlloc.duo_indicators num_rounds num_courts p1 p2))
              RLt (LConst 2) None]) ->
  In c (TeamAlloc.constraint7 num_players num_rounds num_courts).
Proof.
  intros H1 H2 Hc. unfold TeamAlloc.constraint7. apply in_flat_map.
  exists p1. split; [apply in_range; lia|]. apply in_flat_map.
  exists p2. split; [apply in_range2; lia | exact Hc].
Qed.

Lemma solution_schedule_4_2_1 :
  exists m, TeamAlloc.main 4 2 1 [] = Ok m /\ solution m schedule_4_2_1 = true.
Proof. eexists. split; [vm_compute; reflexivity | vm_compute; reflexivity]. Qed.

Lemma solution_schedule_5_5_1 :
  exists m, TeamAlloc.main 5 5 1 [1; 2; 3; 4; 5] = Ok m
            /\ solution m schedule_5_5_1 = true.
Proof. eexists. split; [vm_compute; reflexivity | vm_compute; reflexivity]. Qed.

Lemma slot_of_court (slot num_courts : Z) :
  In slot (range (2 * num_courts)) ->
  exists court, In court (range num_courts)
                /\ (slot = court * 2 \/ slot = court * 2 + 1).
Proof.
  intros H. apply in_range in H. exists (slot / 2).
  pose proof (Z.div_mod slot 2 ltac:(lia)) as E.
  pose proof (Z.mod_pos_bound slot 2 ltac:(lia)) as B.
  split; [apply in_range; lia | lia].
Qed.

(** C2. In every solution of the team model two players are partners in
    at most one (round, duo slot) combination of the whole tournament. *)
Theorem partners_at_most_once
  (num_players num_rounds num_courts : Z) (bench_list : list Z)
  (m : CpModel TeamAlloc.var) (a : valuation TeamAlloc.var) :
  TeamAlloc.main num_players num_rounds num_courts bench_list = Ok m ->
  solution m a = true ->
  forall p1 p2, 0 <= p1 < p2 -> p2 < num_players ->
    partner_count a num_rounds num_courts p1 p2 <= 1.
Proof.
  intros Hmain Hsol p1 p2 H1 H2.
  destruct (team_main_inv _ _ _ _ _ Hmain) as (c4 & _ & Hc).
  assert (Hin : forall c,
    In c (TeamAlloc.constraint7 num_players num_rounds num_courts) ->
    holds a c = true).
  { intros c Hcin. apply (solution_holds m a c Hsol). rewrite Hc.
    repeat (apply in_or_app; right). exact Hcin. }
  assert (H : holds a (Add (LSum (TeamAlloc.duo_indicators num_rounds num_courts p1 p2))
                         RLt (LConst 2) None) = true).
  { apply Hin. apply (team_constraint7_pair _ _ _ p1 p2 _ H1 H2).
    apply in_or_app. right. left. reflexivity. }
  simpl in H. apply Z.ltb_lt in H.
  unfold TeamAlloc.duo_indicators in H. rewrite sum_map_flat_map in H.
  enough (E : partner_count a num_rounds num_courts p1 p2
              = sum (map (fun round =>
                  sum (map (Value a)
                    (flat_map (fun court =>
                       [TeamAlloc.b_duo p1 p2 round (court * 2);
                        TeamAlloc.b_duo p1 p2 round (court * 2 + 1)])
                       (range num_courts))))
                  (range num_rounds))) by lia.
  unfold partner_count. apply sum_map_ext. intros round Hr.
  rewrite (slots_by_court (TeamAlloc.b_duo p1 p2 round)), map_map.
  apply sum_map_ext. intros slot Hs.
  rewrite (reified_eq_Value a (TeamAlloc.b_duo p1 p2 round slot)
             [TeamAlloc.duoVar p1 round slot; TeamAlloc.duoVar p2 round slot] 2).
  - unfold partnered. simpl. unfold Value.
    destruct (a (TeamAlloc.duoVar p1 round slot)),
             (a (TeamAlloc.duoVar p2 round slot)); reflexivity.
  - intros c Hcin. apply Hin.
    apply (team_constraint7_pair _ _ _ p1 p2 _ H1 H2).
    apply in_or_app. left. apply in_flat_map. exists round. split; [exact Hr|].
    destruct (slot_of_court _ _ Hs) as (court & Hcourt & Hslot).
    apply in_flat_map. exists court. split; [exact Hcourt|].
    cbv zeta. apply in_or_app.
    destruct Hslot as [-> | ->]; [left | right]; exact Hcin.
Qed.

(** In the schedule [schedule_4_2_1] players 1 and 4 are never partners,
    and they are opponents on the same court in both rounds: opposition
    may repeat. *)
Lemma partners_at_most_once_witness :
  partner_count schedule_4_2_1 2 1 0 3 <= 1
  /\ TeamAlloc.paircount schedule_4_2_1 2 1 0 3 = 2
  /\ partner_count schedule_4_2_1 2 1 0 3 = 0.
Proof.
  split; [|split; reflexivity].
  eapply (partners_at_most_once 4 2 1 []);
    [vm_compute; reflexivity | vm_compute; reflexivity | lia | lia].
Defined.

Lemma le_sum_of_member {A} (F : A -> Z) (l : list A) (x : A) :
  (forall z, 0 <= F z) -> In x l -> F x <= sum (map F l).
Proof.
  intros Hpos. induction l as [|h t IH]; simpl; intros Hx; [contradiction|].
  assert (0 <= sum (map F t)).
  { clear - Hpos. induction t as [|h' t' IH']; simpl; [lia|].
    pose proof (Hpos h'). lia. }
  destruct Hx as [<- | Hx]; [lia|].
  pose proof (Hpos h). specialize (IH Hx). lia.
Qed.

Lemma two_members_sum {A} (F : A -> Z) (l : list A) (x y : A) :
  (forall z, 0 <= F z) -> NoDup l -> In x l -> In y l -> x <> y ->
  F x + F y <= sum (map F l).
Proof.
  intros Hpos Hnd. induction Hnd as [|h t Hnot Hnd IH]; simpl;
    intros Hx Hy Hne; [contradiction|].
  pose proof (Hpos h).
  destruct Hx as [<- | Hx], Hy as [<- | Hy].
  - contradiction.
  - pose proof (le_sum_of_member F t y Hpos Hy). lia.
  - pose proof (le_sum_of_member F t x Hpos Hx). lia.
  - specialize (IH Hx Hy Hne). lia.
Qed.

Lemma NoDup_map_injective {A B} (f : A -> B) (l : list A) :
  (forall x y, f x = f y -> x = y) -> NoDup l -> NoDup (map f l).
Proof.
  intros Hinj Hnd. induction Hnd as [|h t Hnot Hnd IH]; simpl; constructor.
  - intros Hin. apply in_map_iff in Hin. destruct Hin as (x & E & Hx).
    apply Hinj in E. subst x. contradiction.
  - exact IH.
Qed.

Lemma NoDup_range (n : Z) : NoDup (range n).
Proof.
  unfold range, range2. apply NoDup_map_injective.
  - intros i j E. lia.
  - apply seq_NoDup.
Qed.

Lemma length_range (n : Z) : 0 <= n -> Z.of_nat (length (range n)) = n.
Proof.
  intros H. unfold range, range2. rewrite length_map, length_seq. lia.
Qed.

Lemma sum_of_ones {A} (F : A -> Z) (l : list A) :
  (forall x, In x l -> F x = 1) -> sum (map F l) = Z.of_nat (length l).
Proof.
  induction l as [|h t IH]; intros H; [reflexivity|].
  cbn [map sum fold_right length]. fold (sum (map F t)).
  rewrite (H h) by (left; reflexivity).
  rewrite IH by (intros x Hx; apply H; right; exact Hx). lia.
Qed.

(** What constraint #5 gives. *)
Lemma pair_meets
  (num_players num_rounds num_courts : Z) (bench_list : list Z)
  (m : CpModel TeamAlloc.var) (a : valuation TeamAlloc.var) :
  TeamAlloc.main num_players num_rounds num_courts bench_list = Ok m ->
  solution m a = true ->
  forall p1 p2, 0 <= p1 < p2 -> p2 < num_players ->
    exists round court,
      In round (range num_rounds) /\ In court (range num_courts)
      /\ same_court a p1 p2 round court = true.
Proof.
  intros Hmain Hsol p1 p2 H1 H2.
  destruct (team_main_inv _ _ _ _ _ Hmain) as (c4 & _ & Hc).
  assert (Hin : forall c,
    In c (TeamAlloc.constraint5 num_players num_rounds num_courts) ->
    holds a c = true).
  { intros c Hcin. apply (solution_holds m a c Hsol). rewrite Hc.
    do 4 (apply in_or_app; right). apply in_or_app. left. exact Hcin. }
  assert (H : holds a (Add (LSum (flat_map (fun round =>
                   map (fun court => TeamAlloc.b_court p1 p2 round court)
                     (range num_courts))
                   (range num_rounds))) RGt (LConst 0) None) = true).
  { apply Hin. apply (team_constraint5_pair _ _ _ p1 p2 _ H1 H2).
    apply in_or_app. right. left. reflexivity. }
  simpl in H. apply Z.ltb_lt in H.
  destruct (sum_Value_positive a _ H) as (v & Hv & Ev).
  apply in_flat_map in Hv. destruct Hv as (round & Hr & Hv).
  apply in_map_iff in Hv. destruct Hv as (court & <- & Hcourt).
  exists round, court. split; [exact Hr|]. split; [exact Hcourt|].
  unfold same_court. apply andb_true_iff. apply pair_of_Values.
  apply (reified_eq_spec a (TeamAlloc.b_court p1 p2 round court)); [|exact Ev].
  intros c Hcin. apply Hin. apply (team_constraint5_pair _ _ _ p1 p2 _ H1 H2).
  apply in_or_app. left. apply in_flat_map. exists round. split; [exact Hr|].
  apply in_flat_map. exists court. split; [exact Hcourt | exact Hcin].
Qed.




(** ** teamAlloc.py: the acceptance policy of the callback *)

Lemma team_accept_spec (s : TeamAlloc.printer) (maxCount minCount same : Z) :
  let spread := maxCount - minCount in
  let s' := fst (TeamAlloc.accept s maxCount minCount same) in
  let printit := snd (TeamAlloc.accept s maxCount minCount same) in
  TeamAlloc._best s' <= TeamAlloc._best s
  /\ (spread <= TeamAlloc._best s ->
        TeamAlloc._best s' = spread
        /\ (printit = true <-> same <= TeamAlloc._better s))
  /\ (TeamAlloc._best s < spread -> s' = s /\ printit = false).
Proof.
  cbv zeta. unfold TeamAlloc.accept.
  rewrite Z.ltb_irrefl.
  destruct (Z.leb_spec (maxCount - minCount) (TeamAlloc._best s)) as [Hle|Hgt].
  - destruct (Z.leb_spec same (TeamAlloc._better s)) as [Hs|Hs]; simpl.
    + split; [exact Hle|]. split; [|lia]. intros _. split; [reflexivity|].
      split; intros _; [exact Hs | reflexivity].
    + split; [exact Hle|]. split; [|lia]. intros _. split; [reflexivity|].
      split; [discriminate | lia].
  - simpl. split; [lia|]. split; [lia|]. intros _. split; reflexivity.
Qed.

Lemma team_callback_best (s s' : TeamAlloc.printer) (a : valuation TeamAlloc.var)
  (num_players num_rounds num_courts : Z) (printit stop : bool) :
  TeamAlloc.on_solution_callback s a num_players num_rounds num_courts
    = Ok (s', printit, stop) ->
  TeamAlloc._best s' <= TeamAlloc._best s.
Proof.
  unfold TeamAlloc.on_solution_callback, TeamAlloc.print_schedule. intros H.
  destruct (py_max _) as [e|maxCount]; [discriminate|]. simpl in H.
  destruct (py_min _) as [e|minCount]; [discriminate|]. simpl in H.
  match type of H with
  | context [TeamAlloc.accept ?s1 ?x ?y ?z] =>
      pose proof (team_accept_spec s1 x y z) as Hspec;
      destruct (TeamAlloc.accept s1 x y z) as [s2 p]
  end.
  injection H as <- _ _. simpl in Hspec. tauto.
Qed.

Lemma team_search_best (sols : list (valuation TeamAlloc.var)) :
  forall (s s' : TeamAlloc.printer) (num_players num_rounds num_courts : Z)
         (emitted : list bool),
    TeamAlloc.search sols s num_players num_rounds num_courts = Ok (s', emitted) ->
    TeamAlloc._best s' <= TeamAlloc._best s.
Proof.
  induction sols as [|a rest IH]; intros s s' np nr nc emitted H; simpl in H.
  - injection H as <- _. lia.
  - destruct (TeamAlloc.on_solution_callback s a np nr nc) as [e|[[s1 p] stop]] eqn:E;
      [discriminate|]. simpl in H.
    apply team_callback_best in E.
    destruct stop.
    + injection H as <- _. exact E.
    + destruct (TeamAlloc.search rest s1 np nr nc) as [e|[s2 em]] eqn:E2;
        [discriminate|]. simpl in H. injection H as <- _.
      apply IH in E2. lia.
Qed.

(** C10. In [print_schedule] of teamAlloc.py, when the spread
    [maxCount - minCount] of a solution is at most the stored best, the
    stored best becomes that spread and the solution is emitted exactly
    when [sameplayers] is at most its stored best: the strict comparison
    made after the assignment never decides.  Otherwise nothing changes
    and nothing is emitted.  The stored best never increases along the
    solutions of a search, and it decreases on a solution that is not
    emitted (4 players, 2 rounds, 1 court). *)
Theorem team_callback_policy :
  (forall (s s' : TeamAlloc.printer) (a : valuation TeamAlloc.var)
          (num_players num_rounds num_courts : Z) (printit : bool),
     TeamAlloc.print_schedule s a num_players num_rounds num_courts = Ok (s', printit) ->
     exists maxCount minCount,
       py_max (TeamAlloc.paircounts a num_players num_rounds num_courts) = Ok maxCount
       /\ py_min (TeamAlloc.paircounts a num_players num_rounds num_courts) = Ok minCount
       /\ TeamAlloc._best s' <= TeamAlloc._best s
       /\ (maxCount - minCount <= TeamAlloc._best s ->
             TeamAlloc._best s' = maxCount - minCount
             /\ (printit = true <->
                 TeamAlloc.sameplayers a num_players num_rounds num_courts
                 <= TeamAlloc._better s))
       /\ (TeamAlloc._best s < maxCount - minCount -> s' = s /\ printit = false))
  /\ (forall (sols : list (valuation TeamAlloc.var)) (s s' : TeamAlloc.printer)
             (num_players num_rounds num_courts : Z) (emitted : list bool),
        TeamAlloc.search sols s num_players num_rounds num_courts = Ok (s', emitted) ->
        TeamAlloc._best s' <= TeamAlloc._best s)
  /\ (exists s',
        TeamAlloc.on_solution_callback (TeamAlloc.init 4 2 50000) schedule_4_2_1 4 2 1
          = Ok (s', false, false)
        /\ TeamAlloc._best s' < TeamAlloc._best (TeamAlloc.init 4 2 50000)).
Proof.
  split; [|split].
  - intros s s' a np nr nc printit H. unfold TeamAlloc.print_schedule in H.
    destruct (py_max _) as [e|maxCount]; [discriminate|]. simpl in H.
    destruct (py_min _) as [e|minCount]; [discriminate|]. simpl in H.
    exists maxCount, minCount. split; [reflexivity|]. split; [reflexivity|].
    pose proof (team_accept_spec s maxCount minCount
                  (TeamAlloc.sameplayers a np nr nc)) as Hspec.
    injection H as H. rewrite H in Hspec. simpl in Hspec. exact Hspec.
  - intros sols s s' np nr nc emitted H. exact (team_search_best sols _ _ _ _ _ _ H).
  - eexists. split; [vm_compute; reflexivity | vm_compute; reflexivity].
Qed.

(** ** courtAlloc.py: the acceptance policy of the callback *)

(** A solution is emitted when its largest spread is below the stored
    one, or equal to it with at most as many players at that spread. *)
Lemma court_accept_spec (s s' : CourtAlloc.printer) (diffs : list Z) (printit : bool) :
  CourtAlloc.accept s diffs = Ok (s', printit) ->
  exists m,
    py_max diffs = Ok m
    /\ (printit = true <->
        m < CourtAlloc._bestCourtDiffMax s
        \/ (m = CourtAlloc._bestCourtDiffMax s
            /\ CourtAlloc.count diffs m <= CourtAlloc._numPlayersWith_best s)).
Proof.
  unfold CourtAlloc.accept. intros H.
  destruct (py_max diffs) as [e|m]; [discriminate|]. simpl in H.
  exists m. split; [reflexivity|].
  destruct (Z.eqb_spec (CourtAlloc._bestCourtDiffMax s) m) as [E|E].
  - destruct (Z.leb_spec (CourtAlloc.count diffs m) (CourtAlloc._numPlayersWith_best s))
      as [Hc|Hc]; simpl in H.
    + destruct (Z.ltb_spec m (CourtAlloc._bestCourtDiffMax s)); [lia|].
      injection H as _ <-. split; [intros _; right; split; [lia | exact Hc] | reflexivity].
    + destruct (Z.ltb_spec m (CourtAlloc._bestCourtDiffMax s)); [lia|].
      injection H as _ <-. split; [discriminate | lia].
  - destruct (Z.ltb_spec m (CourtAlloc._bestCourtDiffMax s)) as [Hlt|Hge].
    + injection H as _ <-. split; [intros _; left; exact Hlt | reflexivity].
    + injection H as _ <-. split; [discriminate | lia].
Qed.

(** C4.  With 8 players, 1 round and 2 courts both court assignments are
    solutions with the same largest spread (1) and the same number of
    players at that spread (8).  The callback emits the first one, which
    only equals the initial [_bestCourtDiffMax = num_rounds] and
    [_numPlayersWith_best = num_players], and then emits the second one,
    which ties with the first on both counts. *)
Theorem court_callback_emits_tie :
  (exists m,
     CourtAlloc.model 8 1 2 groups_8_1_2 = Ok m
     /\ solution m straight_8_1_2 = true
     /\ solution m swapped_8_1_2 = true)
  /\ CourtAlloc.metrics straight_8_1_2 groups_8_1_2 8 1 2 = Ok (1, 8)
  /\ CourtAlloc.metrics swapped_8_1_2 groups_8_1_2 8 1 2 = Ok (1, 8)
  /\ (exists s1 s2,
        CourtAlloc.on_solution_callback (CourtAlloc.init 8 1 500000)
          straight_8_1_2 groups_8_1_2 8 1 2 = Ok (s1, true, false)
        /\ CourtAlloc._bestCourtDiffMax s1 = 1
        /\ CourtAlloc._numPlayersWith_best s1 = 8
        /\ CourtAlloc.on_solution_callback s1
             swapped_8_1_2 groups_8_1_2 8 1 2 = Ok (s2, true, false)
        /\ CourtAlloc._bestCourtDiffMax s2 = 1
        /\ CourtAlloc._numPlayersWith_best s2 = 8).
Proof.
  split; [|split; [|split]].
  - eexists. split; [vm_compute; reflexivity|].
    split; vm_compute; reflexivity.
  - vm_compute; reflexivity.
  - vm_compute; reflexivity.
  - eexists. eexists.
    split; [vm_compute; reflexivity|].
    split; [reflexivity|]. split; [reflexivity|].
    split; [vm_compute; reflexivity|].
    split; reflexivity.
Qed.

(** ** The bench file: written by benchAlloc.py, read by teamAlloc.py *)

Lemma py_index_in {A} (l : list A) (i : Z) :
  0 <= i < Z.of_nat (length l) -> py_index l i = Ok (Z.to_nat i).
Proof.
  intros H. unfold py_index.
  destruct (Z.leb_spec 0 i); [|lia].
  destruct (Z.ltb_spec i (Z.of_nat (length l))); [reflexivity | lia].
Qed.

Lemma py_get_middle {A} (pre post : list A) (v : A) :
  py_get (pre ++ v :: post) (Z.of_nat (length pre)) = Ok v.
Proof.
  unfold py_get. rewrite py_index_in by (rewrite length_app; simpl; lia).
  simpl. rewrite Nat2Z.id, nth_error_app2 by lia.
  rewrite Nat.sub_diag. reflexivity.
Qed.

Lemma length_range_nat (n : Z) : length (range n) = Z.to_nat n.
Proof.
  unfold range, range2. rewrite length_map, length_seq. f_equal. lia.
Qed.

Lemma nth_error_map_range {A} (f : Z -> A) (n i : Z) :
  0 <= i < n -> nth_error (map f (range n)) (Z.to_nat i) = Some (f i).
Proof.
  intros H. unfold range, range2. rewrite map_map.
  rewrite (nth_error_nth' _ (f 0)) by (rewrite length_map, length_seq; lia).
  rewrite (map_nth (fun x => f (0 + Z.of_nat x)) _ 0%nat).
  rewrite seq_nth by lia. f_equal. f_equal. lia.
Qed.

Lemma py_get_map_range {A} (f : Z -> A) (n i : Z) :
  0 <= i < n -> py_get (map f (range n)) i = Ok (f i).
Proof.
  intros H. unfold py_get.
  rewrite py_index_in by (rewrite length_map, length_range_nat; lia).
  simpl. rewrite nth_error_map_range by exact H. reflexivity.
Qed.

Lemma set_nth_map_seq {A} (g : nat -> A) (x : A) (n : nat) :
  forall s k, (k < n)%nat ->
    set_nth (map g (seq s n)) k x
    = map (fun j => if (j =? s + k)%nat then x else g j) (seq s n).
Proof.
  induction n as [|n IH]; intros s k Hk; [lia|].
  destruct k as [|k]; cbn [seq map set_nth].
  - rewrite Nat.add_0_r, Nat.eqb_refl. f_equal.
    apply map_ext_in. intros j Hj. apply in_seq in Hj.
    destruct (Nat.eqb_spec j s); [lia | reflexivity].
  - destruct (Nat.eqb_spec s (s + S k)); [lia|]. f_equal.
    rewrite IH by lia. apply map_ext. intros j.
    replace (S s + k)%nat with (s + S k)%nat by lia. reflexivity.
Qed.

Lemma py_set_map_range {A} (f : Z -> A) (n i : Z) (x : A) :
  0 <= i < n ->
  py_set (map f (range n)) i x
  = Ok (map (fun j => if j =? i then x else f j) (range n)).
Proof.
  intros H. unfold py_set.
  rewrite py_index_in by (rewrite length_map, length_range_nat; lia).
  simpl. f_equal. unfold range, range2. rewrite !map_map.
  rewrite set_nth_map_seq by lia.
  apply map_ext. intros j. simpl (0 + _)%nat.
  destruct (Nat.eqb_spec j (Z.to_nat i)), (Z.eqb_spec (0 + Z.of_nat j) i);
    try reflexivity; lia.
Qed.

Lemma bench_matrix_of_ext (S1 S2 : Z -> Z -> bool) (num_players num_rounds : Z) :
  (forall p t, In p (range num_players) -> In t (range num_rounds) -> S1 p t = S2 p t) ->
  bench_matrix_of S1 num_players num_rounds = bench_matrix_of S2 num_players num_rounds.
Proof.
  intros H. unfold bench_matrix_of. apply map_ext_in. intros p Hp.
  apply map_ext_in. intros t Ht. rewrite (H p t Hp Ht). reflexivity.
Qed.

(** One assignment [bench_assignements[p][round]=1]. *)
Lemma set_cell (cells : Z -> Z -> bool) (num_players num_rounds p round : Z) :
  In p (range num_players) -> In round (range num_rounds) ->
  exists row row',
    py_get (bench_matrix_of cells num_players num_rounds) p = Ok row
    /\ py_set row round 1 = Ok row'
    /\ py_set (bench_matrix_of cells num_players num_rounds) p row'
       = Ok (bench_matrix_of (mark cells round [p + 1]) num_players num_rounds).
Proof.
  intros Hp Hr. apply in_range in Hp. apply in_range in Hr.
  unfold bench_matrix_of.
  eexists. eexists. split; [apply py_get_map_range; exact Hp|].
  split; [apply py_set_map_range; exact Hr|].
  rewrite py_set_map_range by exact Hp. f_equal.
  apply map_ext. intros p'. destruct (Z.eqb_spec p' p) as [-> | Hne].
  - apply map_ext. intros t. unfold mark. simpl.
    replace (p + 1 - 1 =? p) with true by (symmetry; apply Z.eqb_eq; lia).
    destruct (Z.eqb_spec t round); [rewrite orb_true_r | rewrite orb_false_r];
      reflexivity.
  - apply map_ext. intros t. unfold mark. simpl.
    replace (p + 1 - 1 =? p') with false by (symmetry; apply Z.eqb_neq; lia).
    rewrite andb_false_r, orb_false_r. reflexivity.
Qed.

(** One turn of [for _ in range(num_bench):] on a valid entry. *)
Lemma read_entry_ok (num_players num_rounds num_courts round x p : Z)
  (pre post : list Z) (s : TeamAlloc.bench_reader) (cells : Z -> Z -> bool) :
  0 <= num_courts ->
  In p (range num_players) -> In round (range num_rounds) ->
  TeamAlloc.count s = Z.of_nat (length pre) ->
  TeamAlloc.bench_assignements s = bench_matrix_of cells num_players num_rounds ->
  TeamAlloc.read_entry num_players num_rounds num_courts
    (pre ++ (p + 1) :: post) round x s
  = Ok {| TeamAlloc.count := TeamAlloc.count s + 1;
          TeamAlloc.bench_assignements :=
            bench_matrix_of (mark cells round [p + 1]) num_players num_rounds;
          TeamAlloc.bench_matrix := TeamAlloc.bench_matrix s;
          TeamAlloc.bench := TeamAlloc.bench s ++ [p + 1];
          TeamAlloc.posted := TeamAlloc.posted s ++ [bench_pin num_courts round (p + 1)] |}.
Proof.
  intros Hnc Hp Hr Hcount Hba.
  destruct (set_cell cells num_players num_rounds p round Hp Hr)
    as (row & row' & E1 & E2 & E3).
  unfold TeamAlloc.read_entry, bench_pin.
  rewrite Hcount, py_get_middle. cbn [bind].
  rewrite Z.add_simpl_r, Hba, E1. cbn [bind].
  rewrite E2. cbn [bind]. rewrite E3. cbn [bind].
  unfold TeamAlloc.games_lookup.
  apply in_range in Hp. apply in_range in Hr.
  replace (0 <=? p) with true by (symmetry; apply Z.leb_le; lia).
  replace (p <? num_players) with true by (symmetry; apply Z.ltb_lt; lia).
  replace (0 <=? round) with true by (symmetry; apply Z.leb_le; lia).
  replace (round <? num_rounds) with true by (symmetry; apply Z.ltb_lt; lia).
  replace (0 <=? num_courts) with true by (symmetry; apply Z.leb_le; lia).
  replace (num_courts <? num_courts + 1) with true by (symmetry; apply Z.ltb_lt; lia).
  cbn [andb bind]. reflexivity.
Qed.

(** The inner loop over the entries of one round. *)
Lemma read_entries_ok (num_players num_rounds num_courts round : Z) (chunk : list Z) :
  0 <= num_courts -> In round (range num_rounds) ->
  forall (iters pre post : list Z) (s : TeamAlloc.bench_reader)
         (cells : Z -> Z -> bool),
    (forall v, In v chunk -> In (v - 1) (range num_players)) ->
    length iters = length chunk ->
    TeamAlloc.count s = Z.of_nat (length pre) ->
    TeamAlloc.bench_assignements s = bench_matrix_of cells num_players num_rounds ->
    exists s',
      for_each iters
        (TeamAlloc.read_entry num_players num_rounds num_courts
           (pre ++ chunk ++ post) round) s = Ok s'
      /\ TeamAlloc.count s' = TeamAlloc.count s + Z.of_nat (length chunk)
      /\ TeamAlloc.bench_assignements s'
         = bench_matrix_of (mark cells round chunk) num_players num_rounds
      /\ TeamAlloc.bench_matrix s' = TeamAlloc.bench_matrix s
      /\ TeamAlloc.bench s' = TeamAlloc.bench s ++ chunk
      /\ TeamAlloc.posted s'
         = TeamAlloc.posted s ++ map (bench_pin num_courts round) chunk.
Proof.
  intros Hnc Hr. induction chunk as [|v rest IH];
    intros iters pre post s cells Hvalid Hlen Hcount Hba.
  - destruct iters; [|discriminate]. exists s. simpl.
    split; [reflexivity|]. split; [lia|].
    split; [|rewrite !app_nil_r; auto].
    rewrite Hba. apply bench_matrix_of_ext. intros p t _ _. unfold mark. simpl.
    rewrite andb_false_r, orb_false_r. reflexivity.
  - destruct iters as [|x iters]; [discriminate|].
    assert (Hp : In (v - 1) (range num_players)) by (apply Hvalid; left; reflexivity).
    pose proof (read_entry_ok num_players num_rounds num_courts round x (v - 1)
                  pre (rest ++ post) s cells Hnc Hp Hr Hcount Hba) as Hstep.
    replace (v - 1 + 1) with v in Hstep by lia.
    cbn [for_each]. change ((v :: rest) ++ post) with (v :: rest ++ post).
    rewrite Hstep. cbn [bind].
    match goal with |- context [for_each iters _ ?s1] => set (s1' := s1) end.
    destruct (IH iters (pre ++ [v]) post s1' (mark cells round [v]))
      as (s' & E & Ec & Eba & Ebm & Eb & Ep).
    + intros w Hw. apply Hvalid. right. exact Hw.
    + simpl in Hlen. lia.
    + subst s1'. simpl. rewrite length_app, Hcount. simpl. lia.
    + reflexivity.
    + exists s'. rewrite <- app_assoc in E. simpl in E.
      split; [exact E|]. subst s1'. simpl in Ec, Ebm, Eb, Ep.
      split; [rewrite Ec; simpl length; lia|].
      split; [|split; [exact Ebm|split]].
      * rewrite Eba. apply bench_matrix_of_ext. intros p t _ _. unfold mark. simpl.
        destruct (cells p t), (t =? round), (v - 1 =? p),
                 (existsb (fun v0 => v0 - 1 =? p) rest); reflexivity.
      * rewrite Eb, <- app_assoc. reflexivity.
      * rewrite Ep, <- app_assoc. reflexivity.
Qed.

Lemma chunk_entry (a : valuation BenchAlloc.var) (num_players round v : Z) :
  In v (bench_chunk a num_players round) <->
  In (v - 1) (range num_players) /\ a (BenchAlloc.bench (v - 1) round) = true.
Proof.
  unfold bench_chunk. rewrite in_flat_map. split.
  - intros (p & Hp & Hv). destruct (a (BenchAlloc.bench p round)) eqn:E;
      [|contradiction].
    destruct Hv as [<- | []]. rewrite Z.add_simpl_r. split; assumption.
  - intros [Hp Hb]. exists (v - 1). split; [exact Hp|].
    rewrite Hb. left. lia.
Qed.

Lemma chunk_marks (a : valuation BenchAlloc.var) (num_players round p : Z) :
  In p (range num_players) ->
  existsb (fun v => v - 1 =? p) (bench_chunk a num_players round)
  = a (BenchAlloc.bench p round).
Proof.
  intros Hp. destruct (a (BenchAlloc.bench p round)) eqn:E.
  - apply existsb_exists. exists (p + 1). split.
    + apply chunk_entry. rewrite Z.add_simpl_r. split; assumption.
    + apply Z.eqb_eq. lia.
  - destruct (existsb _ _) eqn:Ex; [|reflexivity].
    apply existsb_exists in Ex. destruct Ex as (v & Hv & Hvp).
    apply Z.eqb_eq in Hvp. apply chunk_entry in Hv. destruct Hv as [_ Hb].
    rewrite Hvp in Hb. congruence.
Qed.

Lemma length_bench_chunk (a : valuation BenchAlloc.var) (num_players round : Z) :
  Z.of_nat (length (bench_chunk a num_players round))
  = benched_in_round a num_players round.
Proof.
  unfold bench_chunk, benched_in_round.
  induction (range num_players) as [|p l IH]; [reflexivity|].
  cbn [flat_map map sum fold_right]. fold (sum (map (fun player =>
    Value a (BenchAlloc.bench player round)) l)).
  rewrite length_app, Nat2Z.inj_add, IH.
  change (Value a (BenchAlloc.bench p round))
    with (Z.b2z (a (BenchAlloc.bench p round))).
  destruct (a (BenchAlloc.bench p round)); reflexivity.
Qed.

(** One turn of [for round in all_rounds:] on the entries written for
    that round. *)
Lemma read_round_ok (a : valuation BenchAlloc.var)
  (num_players num_rounds num_courts num_bench round : Z)
  (pre post : list Z) (s : TeamAlloc.bench_reader) (cells : Z -> Z -> bool) :
  0 <= num_courts -> In round (range num_rounds) ->
  Z.of_nat (length (bench_chunk a num_players round)) = num_bench ->
  TeamAlloc.count s = Z.of_nat (length pre) ->
  TeamAlloc.bench_assignements s = bench_matrix_of cells num_players num_rounds ->
  exists s',
    TeamAlloc.read_round num_players num_rounds num_courts num_bench
      (pre ++ bench_chunk a num_players round ++ post) round s = Ok s'
    /\ TeamAlloc.count s'
       = Z.of_nat (length (pre ++ bench_chunk a num_players round))
    /\ TeamAlloc.bench_assignements s'
       = bench_matrix_of (mark cells round (bench_chunk a num_players round))
           num_players num_rounds
    /\ TeamAlloc.bench_matrix s'
       = TeamAlloc.bench_matrix s ++ [bench_chunk a num_players round]
    /\ TeamAlloc.posted s'
       = TeamAlloc.posted s
         ++ map (bench_pin num_courts round) (bench_chunk a num_players round).
Proof.
  intros Hnc Hr Hlen Hcount Hba. unfold TeamAlloc.read_round.
  match goal with |- context [for_each _ _ ?s0] => set (s1 := s0) end.
  destruct (read_entries_ok num_players num_rounds num_courts round
              (bench_chunk a num_players round) Hnc Hr
              (range num_bench) pre post s1 cells)
    as (s' & E & Ec & Eba & Ebm & Eb & Ep).
  - intros v Hv. apply chunk_entry in Hv. tauto.
  - rewrite length_range_nat. lia.
  - exact Hcount.
  - exact Hba.
  - rewrite E. cbn [bind]. eexists. split; [reflexivity|].
    subst s1. simpl in *. rewrite Ec, Hcount, Eba, Ebm, Eb, Ep, length_app.
    repeat split; lia.
Qed.

(** The whole reading loop, on the entries written for the rounds [rs]. *)
Lemma read_rounds_ok (a : valuation BenchAlloc.var)
  (num_players num_rounds num_courts num_bench : Z) (rs : list Z) :
  0 <= num_courts ->
  forall (pre : list Z) (s : TeamAlloc.bench_reader) (cells : Z -> Z -> bool),
    (forall r, In r rs ->
       In r (range num_rounds)
       /\ Z.of_nat (length (bench_chunk a num_players r)) = num_bench) ->
    TeamAlloc.count s = Z.of_nat (length pre) ->
    TeamAlloc.bench_assignements s = bench_matrix_of cells num_players num_rounds ->
    exists s',
      for_each rs
        (TeamAlloc.read_round num_players num_rounds num_courts num_bench
           (pre ++ flat_map (bench_chunk a num_players) rs)) s = Ok s'
      /\ TeamAlloc.bench_assignements s'
         = bench_matrix_of
             (fun p t => cells p t
                         || (existsb (Z.eqb t) rs && a (BenchAlloc.bench p t)))
             num_players num_rounds
      /\ TeamAlloc.bench_matrix s'
         = TeamAlloc.bench_matrix s ++ map (bench_chunk a num_players) rs
      /\ TeamAlloc.posted s'
         = TeamAlloc.posted s
           ++ flat_map (fun r => map (bench_pin num_courts r)
                                   (bench_chunk a num_players r)) rs.
Proof.
  intros Hnc. induction rs as [|r rs IH]; intros pre s cells Hrs Hcount Hba.
  - exists s. simpl. split; [reflexivity|]. rewrite !app_nil_r.
    split; [|auto]. rewrite Hba. apply bench_matrix_of_ext. intros p t _ _.
    rewrite orb_false_r. reflexivity.
  - destruct (Hrs r (or_introl eq_refl)) as [Hr Hlen].
    destruct (read_round_ok a num_players num_rounds num_courts num_bench r
                pre (flat_map (bench_chunk a num_players) rs) s cells
                Hnc Hr Hlen Hcount Hba)
      as (s1 & E1 & Ec1 & Eba1 & Ebm1 & Ep1).
    destruct (IH (pre ++ bench_chunk a num_players r) s1
                (mark cells r (bench_chunk a num_players r)))
      as (s' & E & Eba & Ebm & Ep).
    + intros r' Hr'. apply Hrs. right. exact Hr'.
    + exact Ec1.
    + exact Eba1.
    + exists s'. cbn [for_each flat_map]. rewrite E1. cbn [bind].
      rewrite <- app_assoc in E. split; [exact E|].
      split; [|split].
      * rewrite Eba. apply bench_matrix_of_ext. intros p t Hp _.
        unfold mark. rewrite (chunk_marks a num_players r p Hp). simpl.
        destruct (Z.eqb_spec t r) as [-> | Hne]; simpl.
        -- destruct (cells p r), (a (BenchAlloc.bench p r)); simpl;
             try reflexivity; rewrite ?andb_true_r, ?andb_false_r; reflexivity.
        -- rewrite orb_false_r. reflexivity.
      * rewrite Ebm, Ebm1, <- app_assoc. reflexivity.
      * rewrite Ep, Ep1, <- app_assoc. reflexivity.
Qed.

Lemma length_flat_map_const {A B} (g : A -> list B) (l : list A) (k : Z) :
  (forall x, In x l -> Z.of_nat (length (g x)) = k) ->
  Z.of_nat (length (flat_map g l)) = k * Z.of_nat (length l).
Proof.
  induction l as [|h t IH]; intros H; simpl; [lia|].
  rewrite length_app, Nat2Z.inj_add, (H h) by (left; reflexivity).
  rewrite IH by (intros x Hx; apply H; right; exact Hx). lia.
Qed.

(** Reading back the file written from a bench plan with [num_bench]
    players per round. *)
Lemma read_written_bench (a : valuation BenchAlloc.var)
  (num_players num_rounds num_courts num_bench : Z) :
  0 <= num_courts ->
  (forall round, In round (range num_rounds) ->
     benched_in_round a num_players round = num_bench) ->
  exists s,
    TeamAlloc.read_bench num_players num_rounds num_courts num_bench
      (BenchAlloc.write_bench a num_players num_rounds) = Ok s
    /\ TeamAlloc.bench_assignements s
       = bench_matrix_of (fun p t => a (BenchAlloc.bench p t)) num_players num_rounds
    /\ TeamAlloc.bench_matrix s
       = map (bench_chunk a num_players) (range num_rounds)
    /\ TeamAlloc.posted s
       = flat_map (fun r => map (bench_pin num_courts r)
                              (bench_chunk a num_players r)) (range num_rounds).
Proof.
  intros Hnc Hroster. unfold TeamAlloc.read_bench.
  match goal with |- context [for_each _ _ ?s0] => set (s0' := s0) end.
  destruct (read_rounds_ok a num_players num_rounds num_courts num_bench
              (range num_rounds) Hnc [] s0' (fun _ _ => false))
    as (s & E & Eba & Ebm & Ep).
  - intros r Hr. split; [exact Hr|]. rewrite length_bench_chunk. apply Hroster, Hr.
  - reflexivity.
  - reflexivity.
  - exists s. split; [exact E|]. split; [|split; assumption].
    rewrite Eba. apply bench_matrix_of_ext. intros p t _ Ht. simpl.
    replace (existsb (Z.eqb t) (range num_rounds)) with true; [reflexivity|].
    symmetry. apply existsb_exists. exists t. split; [exact Ht | apply Z.eqb_refl].
Qed.

(** C9. A bench plan with exactly [num_bench] benched players in every
    round is written by [write_bench] as [num_bench * num_rounds] entries,
    and the reading loop of teamAlloc.py rebuilds from them the matrix
    [bench_assignements] of the plan, cell for cell. *)
Theorem bench_file_round_trip (a : valuation BenchAlloc.var)
  (num_players num_rounds num_courts num_bench : Z) :
  0 <= num_courts -> 0 <= num_rounds ->
  (forall round, In round (range num_rounds) ->
     benched_in_round a num_players round = num_bench) ->
  Z.of_nat (length (BenchAlloc.write_bench a num_players num_rounds))
  = num_bench * num_rounds
  /\ exists s,
       TeamAlloc.read_bench num_players num_rounds num_courts num_bench
         (BenchAlloc.write_bench a num_players num_rounds) = Ok s
       /\ TeamAlloc.bench_assignements s
          = bench_matrix_of (fun p t => a (BenchAlloc.bench p t))
              num_players num_rounds.
Proof.
  intros Hnc Hnr Hroster. split.
  - change (BenchAlloc.write_bench a num_players num_rounds)
      with (flat_map (bench_chunk a num_players) (range num_rounds)).
    rewrite (length_flat_map_const _ _ num_bench).
    + rewrite length_range by exact Hnr. reflexivity.
    + intros r Hr. rewrite length_bench_chunk. apply Hroster, Hr.
  - destruct (read_written_bench a num_players num_rounds num_courts num_bench
                Hnc Hroster) as (s & E & Eba & _).
    exists s. split; assumption.
Qed.

Lemma bench_file_round_trip_witness :
  Z.of_nat (length (BenchAlloc.write_bench (bench_valuation plan_14_6_3 6) 14 6))
  = 2 * 6
  /\ exists s,
       TeamAlloc.read_bench 14 6 3 2
         (BenchAlloc.write_bench (bench_valuation plan_14_6_3 6) 14 6) = Ok s
       /\ TeamAlloc.bench_assignements s
          = bench_matrix_of
              (fun p t => bench_valuation plan_14_6_3 6 (BenchAlloc.bench p t)) 14 6.
Proof.
  apply (bench_file_round_trip (bench_valuation plan_14_6_3 6) 14 6 3 2);
    [lia | lia |].
  intros round Hr. apply in_range in Hr.
  assert (H : round = 0 \/ round = 1 \/ round = 2 \/ round = 3 \/ round = 4
              \/ round = 5) by lia.
  repeat destruct H as [H | H]; subst round; reflexivity.
Defined.

(** ** teamAlloc.py: the bench court *)

Lemma sum_map_add {A} (f g : A -> Z) (l : list A) :
  sum (map (fun x => f x + g x) l) = sum (map f l) + sum (map g l).
Proof.
  induction l as [|h t IH]; simpl; [reflexivity | rewrite IH; lia].
Qed.

Lemma sum_swap {A B} (F : A -> B -> Z) (la : list A) (lb : list B) :
  sum (map (fun x => sum (map (fun y => F x y) lb)) la)
  = sum (map (fun y => sum (map (fun x => F x y) la)) lb).
Proof.
  induction la as [|h t IH]; simpl.
  - induction lb as [|y lb IHb]; simpl; [reflexivity | rewrite <- IHb; reflexivity].
  - rewrite IH, <- sum_map_add. reflexivity.
Qed.

Lemma sum_of_ones_scaled {A} (k : Z) (l : list A) :
  sum (map (fun _ => k) l) = k * Z.of_nat (length l).
Proof.
  induction l as [|h t IH]; [simpl; lia|].
  cbn [map sum fold_right length]. fold (sum (map (fun _ : A => k) t)).
  rewrite IH. lia.
Qed.

Lemma range_succ (n : Z) : 0 <= n -> range (n + 1) = range n ++ [n].
Proof.
  intros H. unfold range, range2.
  replace (Z.to_nat (n + 1 - 0)) with (Z.to_nat (n - 0) + 1)%nat by lia.
  rewrite seq_app, map_app. simpl. f_equal. f_equal. lia.
Qed.

Lemma sum_pointwise_eq {A} (f g : A -> Z) (l : list A) :
  (forall x, In x l -> f x <= g x) ->
  sum (map f l) = sum (map g l) ->
  forall x, In x l -> f x = g x.
Proof.
  induction l as [|h t IH]; simpl; intros Hle Hs x Hx; [contradiction|].
  assert (Ht : sum (map f t) <= sum (map g t)).
  { clear - Hle. induction t as [|h' t' IH']; simpl; [lia|].
    pose proof (Hle h' (or_intror (or_introl eq_refl))).
    assert (sum (map f t') <= sum (map g t')).
    { apply IH'. intros z [Hz|Hz]; apply Hle; [left | right; right]; assumption. }
    lia. }
  pose proof (Hle h (or_introl eq_refl)) as Hh.
  destruct Hx as [<- | Hx]; [lia|].
  apply IH; [intros z Hz; apply Hle; right; exact Hz | lia | exact Hx].
Qed.

(** Constraints #1 and #3 leave [num_bench] players for the bench court. *)
Lemma bench_court_count
  (num_players num_rounds num_courts : Z) (bench_list : list Z)
  (m : CpModel TeamAlloc.var) (a : valuation TeamAlloc.var) :
  0 <= num_players -> 0 <= num_courts ->
  TeamAlloc.main num_players num_rounds num_courts bench_list = Ok m ->
  solution m a = true ->
  forall round, In round (range num_rounds) ->
    on_bench_court a num_players num_courts round
    = num_players - num_courts * 4.
Proof.
  intros Hnp Hnc Hmain Hsol round Hr.
  destruct (team_main_inv _ _ _ _ _ Hmain) as (c4 & _ & Hc).
  assert (Hin : forall c,
    In c (TeamAlloc.constraint1 num_players num_rounds num_courts 4)
    \/ In c (TeamAlloc.constraint3 num_players num_rounds num_courts) ->
    holds a c = true).
  { intros c Hcin. apply (solution_holds m a c Hsol). rewrite Hc.
    apply in_or_app. destruct Hcin as [Hcin|Hcin]; [left; exact Hcin|].
    right. apply in_or_app. right. apply in_or_app. left. exact Hcin. }
  (* every player is on one court of [all_courts] *)
  assert (Hrows : sum (map (fun p =>
                     sum (map (fun c => Value a (TeamAlloc.games p round c))
                            (range (num_courts + 1))))
                     (range num_players)) = num_players).
  { rewrite (sum_of_ones _ (range num_players)); [apply length_range, Hnp|].
    intros p Hp.
    assert (H : holds a (AddExactlyOne
                 (map (fun court => TeamAlloc.games p round court)
                    (range (num_courts + 1)))) = true).
    { apply Hin. right. unfold TeamAlloc.constraint3. apply in_flat_map.
      exists p. split; [exact Hp|]. apply in_map_iff.
      exists round. split; [reflexivity | exact Hr]. }
    simpl in H. apply Z.eqb_eq in H. rewrite map_map in H. exact H. }
  (* every played court has four players *)
  rewrite sum_swap, range_succ, map_app, sum_app in Hrows by exact Hnc.
  rewrite (sum_map_ext _ (fun _ => 4) (range num_courts)) in Hrows.
  - assert (E : sum (map (fun _ : Z => 4) (range num_courts)) = num_courts * 4).
    { rewrite (sum_of_ones_scaled 4), length_range by exact Hnc. lia. }
    rewrite E in Hrows. simpl in Hrows. unfold on_bench_court. lia.
  - intros c Hcourt.
    assert (H : holds a (Add (LSum (map (fun player => TeamAlloc.games player round c)
                                      (range num_players)))
                           REq (LConst 4) None) = true).
    { apply Hin. left. unfold TeamAlloc.constraint1. apply in_flat_map.
      exists round. split; [exact Hr|]. apply in_flat_map.
      exists c. split; [exact Hcourt | left; reflexivity]. }
    simpl in H. apply Z.eqb_eq in H. rewrite map_map in H. exact H.
Qed.

(** C7. When the bench file is the one written from a bench plan with
    [num_bench > 0] players per round, every solution of the team model
    has exactly [num_bench] players on the bench court in every round,
    and they are the players the plan benches in that round. *)
Theorem bench_court_pinned
  (b : valuation BenchAlloc.var) (num_players num_rounds num_courts : Z)
  (m : CpModel TeamAlloc.var) (a : valuation TeamAlloc.var) :
  0 <= num_courts ->
  0 < num_players - num_courts * 4 ->
  (forall round, In round (range num_rounds) ->
     benched_in_round b num_players round = num_players - num_courts * 4) ->
  TeamAlloc.main num_players num_rounds num_courts
    (BenchAlloc.write_bench b num_players num_rounds) = Ok m ->
  solution m a = true ->
  forall round, In round (range num_rounds) ->
    on_bench_court a num_players num_courts round = num_players - num_courts * 4
    /\ forall player, In player (range num_players) ->
         a (TeamAlloc.games player round num_courts)
         = b (BenchAlloc.bench player round).
Proof.
  intros Hnc Hnb Hroster Hmain Hsol round Hr.
  assert (Hnp : 0 <= num_players) by lia.
  pose proof (bench_court_count _ _ _ _ m a Hnp Hnc Hmain Hsol round Hr)
    as Hcount.
  split; [exact Hcount|].
  (* the entries of the file are pinned on the bench court *)
  assert (Hpin : forall p, In p (range num_players) ->
                   b (BenchAlloc.bench p round) = true ->
                   a (TeamAlloc.games p round num_courts) = true).
  { intros p Hp Hb.
    destruct (team_main_inv _ _ _ _ _ Hmain) as (c4 & E4 & Hc).
    unfold TeamAlloc.constraint4 in E4.
    destruct (Z.ltb_spec 0 (num_players - num_courts * 4)); [|lia].
    destruct (read_written_bench b num_players num_rounds num_courts
                (num_players - num_courts * 4) Hnc Hroster)
      as (s & Es & _ & _ & Ep).
    rewrite Es in E4. cbn [bind] in E4. injection E4 as <-.
    assert (Hh : holds a (bench_pin num_courts round (p + 1)) = true).
    { apply (solution_holds m a _ Hsol). rewrite Hc.
      do 3 (apply in_or_app; right). apply in_or_app. left.
      apply in_or_app. left. rewrite Ep. apply in_flat_map.
      exists round. split; [exact Hr|]. apply in_map.
      apply chunk_entry. rewrite Z.add_simpl_r. split; assumption. }
    unfold bench_pin in Hh. simpl in Hh. rewrite Z.add_simpl_r in Hh.
    apply Z.eqb_eq in Hh. unfold Value in Hh.
    destruct (a (TeamAlloc.games p round num_courts)); [reflexivity | discriminate]. }
  (* both sets have [num_bench] players *)
  intros player Hplayer.
  pose proof (sum_pointwise_eq
                (fun p => Value b (BenchAlloc.bench p round))
                (fun p => Value a (TeamAlloc.games p round num_courts))
                (range num_players)) as Heq.
  assert (E : Value b (BenchAlloc.bench player round)
              = Value a (TeamAlloc.games player round num_courts)).
  { apply Heq; [| |exact Hplayer].
    - intros p Hp. unfold Value.
      destruct (b (BenchAlloc.bench p round)) eqn:Eb.
      + rewrite (Hpin p Hp Eb). lia.
      + destruct (a (TeamAlloc.games p round num_courts)); simpl; lia.
    - fold (benched_in_round b num_players round).
      fold (on_bench_court a num_players num_courts round).
      rewrite Hcount. apply Hroster, Hr. }
  unfold Value in E.
  destruct (b (BenchAlloc.bench player round)),
           (a (TeamAlloc.games player round num_courts));
    simpl in E; try reflexivity; discriminate.
Qed.

Lemma bench_court_pinned_witness :
  on_bench_court schedule_5_5_1 5 1 2 = 5 - 1 * 4
  /\ forall player, In player (range 5) ->
       schedule_5_5_1 (TeamAlloc.games player 2 1)
       = bench_valuation plan_5_5_1 5 (BenchAlloc.bench player 2).
Proof.
  eapply (bench_court_pinned (bench_valuation plan_5_5_1 5) 5 5 1);
    [lia | lia | | vm_compute; reflexivity | vm_compute; reflexivity
     | apply in_range; lia].
  intros round Hr. apply in_range in Hr.
  assert (H : round = 0 \/ round = 1 \/ round = 2 \/ round = 3 \/ round = 4) by lia.
  repeat destruct H as [H | H]; subst round; reflexivity.
Defined.

(** ** teamAlloc.py: bench files that do not fit *)

Lemma py_get_ok_bound {A} (l : list A) (i : Z) (v : A) :
  py_get l i = Ok v -> 0 <= i -> i < Z.of_nat (length l).
Proof.
  unfold py_get, py_index. intros H Hi.
  destruct (Z.leb_spec 0 i); [|lia].
  destruct (Z.ltb_spec i (Z.of_nat (length l))); [assumption|].
  simpl in H. destruct (Z.ltb_spec i 0); [lia|].
  rewrite andb_false_r in H. discriminate.
Qed.

Lemma read_entry_count (num_players num_rounds num_courts round x : Z)
  (bench_list : list Z) (s s' : TeamAlloc.bench_reader) :
  TeamAlloc.read_entry num_players num_rounds num_courts bench_list round x s = Ok s' ->
  0 <= TeamAlloc.count s ->
  TeamAlloc.count s' = TeamAlloc.count s + 1
  /\ TeamAlloc.count s' <= Z.of_nat (length bench_list).
Proof.
  unfold TeamAlloc.read_entry. intros H Hc.
  destruct (py_get bench_list (TeamAlloc.count s)) as [e|v] eqn:Ev; [discriminate|].
  apply py_get_ok_bound in Ev; [|exact Hc]. cbn [bind] in H.
  destruct (py_get (TeamAlloc.bench_assignements s) (v - 1)) as [e|row];
    [discriminate|]. cbn [bind] in H.
  destruct (py_set row round 1) as [e|row']; [discriminate|]. cbn [bind] in H.
  destruct (py_set (TeamAlloc.bench_assignements s) (v - 1) row') as [e|ba'];
    [discriminate|]. cbn [bind] in H.
  destruct (TeamAlloc.games_lookup _ _ _ _ _ _) as [e|g]; [discriminate|].
  cbn [bind] in H. injection H as <-. simpl. lia.
Qed.

Lemma read_entries_count (num_players num_rounds num_courts round : Z)
  (bench_list iters : list Z) :
  forall s s' : TeamAlloc.bench_reader,
    for_each iters
      (TeamAlloc.read_entry num_players num_rounds num_courts bench_list round) s
      = Ok s' ->
    0 <= TeamAlloc.count s <= Z.of_nat (length bench_list) ->
    TeamAlloc.count s' = TeamAlloc.count s + Z.of_nat (length iters)
    /\ TeamAlloc.count s' <= Z.of_nat (length bench_list).
Proof.
  induction iters as [|x iters IH]; intros s s' H Hc; cbn [for_each] in H.
  - injection H as <-. simpl. lia.
  - destruct (TeamAlloc.read_entry _ _ _ _ _ _ _) as [e|s1] eqn:E1; [discriminate|].
    cbn [bind] in H. apply read_entry_count in E1; [|lia].
    apply IH in H; [|lia]. simpl length. lia.
Qed.

Lemma read_rounds_count (num_players num_rounds num_courts num_bench : Z)
  (bench_list rs : list Z) :
  forall s s' : TeamAlloc.bench_reader,
    for_each rs
      (TeamAlloc.read_round num_players num_rounds num_courts num_bench bench_list) s
      = Ok s' ->
    0 <= TeamAlloc.count s <= Z.of_nat (length bench_list) ->
    TeamAlloc.count s'
    = TeamAlloc.count s + Z.of_nat (Z.to_nat num_bench) * Z.of_nat (length rs)
    /\ TeamAlloc.count s' <= Z.of_nat (length bench_list).
Proof.
  induction rs as [|r rs IH]; intros s s' H Hc; cbn [for_each] in H.
  - injection H as <-. simpl. lia.
  - destruct (TeamAlloc.read_round _ _ _ _ _ _ _) as [e|s1] eqn:E1; [discriminate|].
    cbn [bind] in H. unfold TeamAlloc.read_round in E1.
    destruct (for_each (range num_bench) _ _) as [e|s0] eqn:E0; [discriminate|].
    cbn [bind] in E1. injection E1 as <-.
    apply read_entries_count in E0; [|simpl; lia].
    rewrite length_range_nat in E0. simpl in E0.
    apply IH in H; [|simpl; lia]. simpl in H. simpl length. lia.
Qed.




(** * Further properties of the scripts *)

(** ** benchAlloc.py: the statistic, the file and the search *)

Lemma sum_flat_map {A} (g : A -> list Z) (l : list A) :
  sum (flat_map g l) = sum (map (fun x => sum (g x)) l).
Proof.
  induction l as [|h t IH]; simpl; [reflexivity|].
  rewrite sum_app, IH. reflexivity.
Qed.

Lemma sum_Value_le_length {V} (a : valuation V) (vs : list V) :
  sum (map (Value a) vs) <= Z.of_nat (length vs).
Proof.
  induction vs as [|h t IH]; [simpl; lia|].
  cbn [map sum fold_right length]. fold (sum (map (Value a) t)).
  pose proof (Value_range a h). lia.
Qed.

Lemma bench_roster
  (num_players num_rounds num_courts : Z) (m : CpModel BenchAlloc.var)
  (a : valuation BenchAlloc.var) :
  BenchAlloc.main num_players num_rounds num_courts = Ok m ->
  solution m a = true ->
  forall round, In round (range num_rounds) ->
    benched_in_round a num_players round = num_players - num_courts * 4.
Proof.
  intros Hmain Hsol round Hr.
  apply bench_main_inv in Hmain. destruct Hmain as (_ & _ & Hc).
  assert (H : holds a (Add (LSum (map (fun player => BenchAlloc.bench player round)
                                    (range num_players)))
                         REq (LConst (num_players - num_courts * 4)) None) = true).
  { apply (solution_holds m a _ Hsol). rewrite Hc. apply in_or_app. left.
    apply bench_roster_constraint, Hr. }
  simpl in H. apply Z.eqb_eq in H. unfold benched_in_round.
  rewrite map_map in H. exact H.
Qed.

(** The number printed by [print_player_stat] is the value that the
    objective of the model takes on the solution. *)
Theorem bench_statistic_is_objective
  (num_players num_rounds num_courts : Z) (m : CpModel BenchAlloc.var)
  (a : valuation BenchAlloc.var) :
  BenchAlloc.main num_players num_rounds num_courts = Ok m ->
  solution m a = true ->
  exists vars,
    objective m = Some vars
    /\ BenchPrinter.print_player_stat a num_players num_rounds
       = sum (map (Value a) vars).
Proof.
  intros Hmain Hsol.
  pose proof (bench_main_inv _ _ _ _ Hmain) as (_ & _ & Hc).
  assert (Hobj : objective m
                 = Some (BenchAlloc.objective1_vars num_players num_rounds)).
  { unfold BenchAlloc.main, floor_div, ceil_div in Hmain.
    destruct (num_players =? 0); [discriminate|]. simpl in Hmain.
    destruct (num_players - num_courts * 4 =? 0); [discriminate|].
    simpl in Hmain. injection Hmain as <-. reflexivity. }
  exists (BenchAlloc.objective1_vars num_players num_rounds).
  split; [exact Hobj|].
  assert (Hin : forall c,
    In c (BenchAlloc.objective1 num_players num_rounds) -> holds a c = true).
  { intros c Hcin. apply (solution_holds m a c Hsol). rewrite Hc.
    do 3 (apply in_or_app; right). exact Hcin. }
  unfold BenchPrinter.print_player_stat, BenchAlloc.objective1_vars.
  rewrite sum_flat_map, sum_map_flat_map. apply sum_map_ext. intros p1 Hp1.
  rewrite sum_flat_map, sum_map_flat_map. apply sum_map_ext. intros p2 Hp2.
  rewrite sum_flat_map, sum_map_flat_map. apply sum_map_ext. intros t1 Ht1.
  rewrite map_map. apply sum_map_ext. intros t2 Ht2.
  rewrite (reified_eq_Value a (BenchAlloc.b_pair p1 p2 t1 t2)
             [BenchAlloc.bench p1 t1; BenchAlloc.bench p2 t1;
              BenchAlloc.bench p1 t2; BenchAlloc.bench p2 t2] 4).
  - cbn [map sum fold_right].
    replace (Value a (BenchAlloc.bench p1 t1)
             + (Value a (BenchAlloc.bench p2 t1)
                + (Value a (BenchAlloc.bench p1 t2)
                   + (Value a (BenchAlloc.bench p2 t2) + 0))))
      with (Value a (BenchAlloc.bench p1 t1) + Value a (BenchAlloc.bench p2 t1)
            + Value a (BenchAlloc.bench p1 t2) + Value a (BenchAlloc.bench p2 t2))
      by lia.
    reflexivity.
  - intros c Hcin. apply Hin. unfold BenchAlloc.objective1.
    apply in_flat_map. exists p1. split; [exact Hp1|].
    apply in_flat_map. exists p2. split; [exact Hp2|].
    apply in_flat_map. exists t1. split; [exact Ht1|].
    apply in_flat_map. exists t2. split; [exact Ht2 | exact Hcin].
Qed.

Lemma bench_statistic_is_objective_witness :
  exists vars,
    (exists m, BenchAlloc.main 14 6 3 = Ok m /\ objective m = Some vars)
    /\ BenchPrinter.print_player_stat (bench_valuation plan_14_6_3 6) 14 6
       = sum (map (Value (bench_valuation plan_14_6_3 6)) vars).
Proof.
  destruct (bench_statistic_is_objective 14 6 3
              (match BenchAlloc.main 14 6 3 with
               | Ok m => m
               | Raise _ => {| constraints := []; objective := None |}
               end)
              (bench_valuation plan_14_6_3 6))
    as (vars & Hobj & Hstat);
    [vm_compute; reflexivity | vm_compute; reflexivity |].
  exists vars. split; [|exact Hstat].
  eexists. split; [vm_compute; reflexivity | exact Hobj].
Defined.

(** The bench model has no solution when a court too many is asked for,
    when the number of courts is negative, or when the window of
    constraint #3 is at least as long as the tournament. *)
Theorem bench_model_infeasible
  (num_players num_rounds num_courts : Z) (m : CpModel BenchAlloc.var) :
  BenchAlloc.main num_players num_rounds num_courts = Ok m ->
  1 <= num_rounds ->
  num_players < num_courts * 4
  \/ num_courts < 0
  \/ num_rounds <= - (- num_players / (num_players - num_courts * 4)) - 2 ->
  forall a, solution m a = false.
Proof.
  intros Hmain Hnr Hcase a.
  destruct (solution m a) eqn:Hsol; [exfalso | reflexivity].
  assert (H0 : In 0 (range num_rounds)) by (apply in_range; lia).
  pose proof (bench_roster _ _ _ m a Hmain Hsol 0 H0) as Hroster.
  pose proof (bench_main_inv _ _ _ _ Hmain) as (_ & Hnb & _).
  cbv zeta in Hnb. unfold benched_in_round in Hroster.
  rewrite <- (map_map (fun player => BenchAlloc.bench player 0) (Value a)) in Hroster.
  pose proof (sum_Value_nonneg a
                (map (fun player => BenchAlloc.bench player 0) (range num_players)))
    as Hlo.
  pose proof (sum_Value_le_length a
                (map (fun player => BenchAlloc.bench player 0) (range num_players)))
    as Hhi.
  rewrite length_map, length_range_nat in Hhi.
  destruct Hcase as [Hneg | [Hcourts | Hwindow]]; [lia | lia |].
  (* nobody can be benched: the window of a round comes back to it *)
  assert (Hnone : forall p, In p (range num_players) ->
                    Value a (BenchAlloc.bench p 0) = 0).
  { intros p Hp. unfold Value.
    destruct (a (BenchAlloc.bench p 0)) eqn:E; [exfalso | reflexivity].
    apply (bench_distance _ _ _ m a Hmain Hsol p 0 num_rounds Hp H0); [lia|].
    rewrite Z.add_0_l, Z.mod_same by lia. split; exact E. }
  rewrite map_map, (sum_map_ext _ (fun _ => 0) _ Hnone), sum_of_ones_scaled in Hroster.
  lia.
Qed.

Lemma bench_model_infeasible_witness :
  exists m, BenchAlloc.main 14 4 3 = Ok m /\ forall a, solution m a = false.
Proof.
  eexists. split; [vm_compute; reflexivity|].
  eapply (bench_model_infeasible 14 4 3);
    [vm_compute; reflexivity | lia | right; right; vm_compute; discriminate].
Defined.

(** The file written from any solution of the bench model is read by
    [main] of teamAlloc.py without error: the model of the next stage is
    built and the solver is called. *)
Theorem bench_solution_is_accepted
  (num_players num_rounds num_courts : Z) (m : CpModel BenchAlloc.var)
  (a : valuation BenchAlloc.var) :
  BenchAlloc.main num_players num_rounds num_courts = Ok m ->
  solution m a = true ->
  0 <= num_courts ->
  exists m',
    TeamAlloc.main num_players num_rounds num_courts
      (BenchAlloc.write_bench a num_players num_rounds) = Ok m'.
Proof.
  intros Hmain Hsol Hnc.
  pose proof (bench_roster _ _ _ m a Hmain Hsol) as Hroster.
  pose proof (bench_main_inv _ _ _ _ Hmain) as (Hnp & Hnb & _). cbv zeta in Hnb.
  unfold TeamAlloc.main, TeamAlloc.constraint4, floor_div, ceil_div.
  destruct (Z.eqb_spec num_players 0) as [E|_]; [contradiction|].
  destruct (Z.eqb_spec (num_players - num_courts * 4) 0) as [E|_]; [contradiction|].
  destruct (Z.ltb_spec 0 (num_players - num_courts * 4)) as [Hpos|Hneg].
  - destruct (read_written_bench a num_players num_rounds num_courts
                (num_players - num_courts * 4) Hnc Hroster) as (s & Es & _).
    cbn [bind]. rewrite Es. cbn [bind]. eexists. reflexivity.
  - cbn [bind]. eexists. reflexivity.
Qed.

Lemma bench_solution_is_accepted_witness :
  exists m',
    TeamAlloc.main 14 6 3
      (BenchAlloc.write_bench (bench_valuation plan_14_6_3 6) 14 6) = Ok m'.
Proof.
  eapply (bench_solution_is_accepted 14 6 3);
    [vm_compute; reflexivity | vm_compute; reflexivity | lia].
Defined.

(** The callback of benchAlloc.py takes every solution: it counts it and
    overwrites the bench file with it.  It asks the solver to stop once
    [limit] solutions are counted, so a search calls it on the first
    [max 1 limit] solutions, and the file is left with the last of
    them. *)
Lemma bench_search_from (sols : list (valuation BenchAlloc.var)) :
  forall (s : BenchPrinter.printer) (file : option (list Z))
         (num_players num_rounds : Z),
    let calls :=
      firstn (Z.to_nat (Z.max 1 (BenchPrinter._solution_limit s
                                 - BenchPrinter._solution_count s))) sols in
    BenchPrinter.search sols s file num_players num_rounds
    = ({| BenchPrinter._solution_count :=
            BenchPrinter._solution_count s + Z.of_nat (length calls);
          BenchPrinter._solution_limit := BenchPrinter._solution_limit s |},
       match calls with
       | [] => file
       | a0 :: _ =>
           Some (BenchAlloc.write_bench (last calls a0) num_players num_rounds)
       end).
Proof.
  induction sols as [|a rest IH]; intros s file np nr; cbv zeta.
  - rewrite firstn_nil. simpl. rewrite Z.add_0_r. destruct s; reflexivity.
  - cbn [BenchPrinter.search BenchPrinter.on_solution_callback
         BenchPrinter._solution_count BenchPrinter._solution_limit
         BenchPrinter.bench_file].
    destruct (Z.leb_spec (BenchPrinter._solution_limit s)
                (BenchPrinter._solution_count s + 1)) as [Hstop|Hgo].
    + replace (Z.to_nat (Z.max 1 (BenchPrinter._solution_limit s
                                  - BenchPrinter._solution_count s)))
        with 1%nat by lia.
      cbn [firstn length last]. reflexivity.
    + rewrite IH. cbv zeta.
      cbn [BenchPrinter._solution_count BenchPrinter._solution_limit].
      replace (Z.to_nat (Z.max 1 (BenchPrinter._solution_limit s
                                  - BenchPrinter._solution_count s)))
        with (S (Z.to_nat (Z.max 1 (BenchPrinter._solution_limit s
                                    - (BenchPrinter._solution_count s + 1)))))
        by lia.
      set (k := Z.to_nat (Z.max 1 (BenchPrinter._solution_limit s
                                   - (BenchPrinter._solution_count s + 1)))).
      cbn [firstn length]. f_equal.
      * f_equal. lia.
      * destruct (firstn k rest) as [|b calls'] eqn:E; [reflexivity|].
        cbn [last]. f_equal. f_equal.
        clear. revert b. induction calls' as [|c t IHt]; intros b; [reflexivity|].
        cbn [last]. destruct t; [reflexivity|]. apply IHt.
Qed.

Theorem bench_search_keeps_last
  (sols : list (valuation BenchAlloc.var)) (limit : Z)
  (file : option (list Z)) (num_players num_rounds : Z) :
  let calls := firstn (Z.to_nat (Z.max 1 limit)) sols in
  BenchPrinter._solution_count
    (fst (BenchPrinter.search sols (BenchPrinter.init limit) file
            num_players num_rounds))
  = Z.of_nat (length calls)
  /\ snd (BenchPrinter.search sols (BenchPrinter.init limit) file
            num_players num_rounds)
     = match calls with
       | [] => file
       | a0 :: _ =>
           Some (BenchAlloc.write_bench (last calls a0) num_players num_rounds)
       end.
Proof.
  cbv zeta. rewrite bench_search_from. cbv zeta.
  cbn [BenchPrinter.init BenchPrinter._solution_count
       BenchPrinter._solution_limit fst snd].
  rewrite Z.sub_0_r. split; reflexivity.
Qed.

(** ** teamAlloc.py: courts, duos and the groups that are written *)

Lemma exactly_one_member {V A} (a : valuation V) (f : A -> V) (l : list A) :
  (forall x y : A, {x = y} + {x <> y}) ->
  NoDup l ->
  sum (map (fun x => Value a (f x)) l) = 1 ->
  exists x, In x l /\ a (f x) = true
            /\ forall y, In y l -> a (f y) = true -> y = x.
Proof.
  intros Hdec Hnd Hsum.
  destruct (sum_Value_positive a (map f l)) as (v & Hv & Ev);
    [rewrite map_map; lia|].
  apply in_map_iff in Hv. destruct Hv as (x & <- & Hx).
  exists x. split; [exact Hx|]. split; [exact Ev|].
  intros y Hy Ey. destruct (Hdec y x) as [E|Hne]; [exact E | exfalso].
  pose proof (two_members_sum (fun z => Value a (f z)) l y x
                (fun z => proj1 (Value_range a _)) Hnd Hy Hx Hne) as Htwo.
  cbv beta in Htwo. unfold Value at 1 2 in Htwo. rewrite Ey, Ev in Htwo.
  simpl in Htwo. lia.
Qed.

(** In every solution of the team model a player is, in every round, on
    exactly one of the courts [0 .. num_courts], the last one being the
    bench. *)
Theorem team_one_place_per_round
  (num_players num_rounds num_courts : Z) (bench_list : list Z)
  (m : CpModel TeamAlloc.var) (a : valuation TeamAlloc.var) :
  TeamAlloc.main num_players num_rounds num_courts bench_list = Ok m ->
  solution m a = true ->
  forall player round,
    In player (range num_players) -> In round (range num_rounds) ->
    exists court,
      In court (range (num_courts + 1))
      /\ a (TeamAlloc.games player round court) = true
      /\ forall court', In court' (range (num_courts + 1)) ->
           a (TeamAlloc.games player round court') = true -> court' = court.
Proof.
  intros Hmain Hsol player round Hp Hr.
  destruct (team_main_inv _ _ _ _ _ Hmain) as (c4 & _ & Hc).
  apply (exactly_one_member a (fun court => TeamAlloc.games player round court)
           (range (num_courts + 1)) Z.eq_dec (NoDup_range _)).
  assert (H : holds a (AddExactlyOne
               (map (fun court => TeamAlloc.games player round court)
                  (range (num_courts + 1)))) = true).
  { apply (solution_holds m a _ Hsol). rewrite Hc.
    do 2 (apply in_or_app; right). apply in_or_app. left.
    unfold TeamAlloc.constraint3. apply in_flat_map.
    exists player. split; [exact Hp|]. apply in_map_iff.
    exists round. split; [reflexivity | exact Hr]. }
  simpl in H. apply Z.eqb_eq in H. rewrite map_map in H. exact H.
Qed.

Lemma team_one_place_per_round_witness :
  exists court,
    In court (range (1 + 1))
    /\ schedule_5_5_1 (TeamAlloc.games 3 3 court) = true
    /\ forall court', In court' (range (1 + 1)) ->
         schedule_5_5_1 (TeamAlloc.games 3 3 court') = true -> court' = court.
Proof.
  eapply (team_one_place_per_round 5 5 1 [1; 2; 3; 4; 5]);
    [vm_compute; reflexivity | vm_compute; reflexivity
     | apply in_range; lia | apply in_range; lia].
Defined.

(** The duos of a court, from constraint #6 and the definition of the
    duo variables. *)
Lemma team_duos_split_court_aux
  (num_players num_rounds num_courts : Z) (bench_list : list Z)
  (m : CpModel TeamAlloc.var) (a : valuation TeamAlloc.var) :
  TeamAlloc.main num_players num_rounds num_courts bench_list = Ok m ->
  solution m a = true ->
  forall round court,
    In round (range num_rounds) -> In court (range num_courts) ->
    duo_size a num_players round (court * 2) = 2
    /\ duo_size a num_players round (court * 2 + 1) = 2
    /\ forall player, In player (range num_players) ->
         a (TeamAlloc.games player round court) = in_a_duo a player round court
         /\ (a (TeamAlloc.duoVar player round (court * 2))
             && a (TeamAlloc.duoVar player round (court * 2 + 1))) = false.
Proof.
  intros Hmain Hsol round court Hr Hcourt.
  destruct (team_main_inv _ _ _ _ _ Hmain) as (c4 & _ & Hc).
  assert (Hin : forall c,
    In c (TeamAlloc.duo_definition num_players num_rounds num_courts)
    \/ In c (TeamAlloc.constraint6 num_players num_rounds num_courts) ->
    holds a c = true).
  { intros c Hcin. apply (solution_holds m a c Hsol). rewrite Hc.
    do 5 (apply in_or_app; right). apply in_or_app.
    destruct Hcin as [Hcin|Hcin]; [left; exact Hcin|].
    right. apply in_or_app. left. exact Hcin. }
  assert (H6 : forall c,
    In c [Add (LSum (map (fun player => TeamAlloc.duoVar player round (court * 2))
                       (range num_players))) REq (LConst 2) None;
          Add (LSum (map (fun player => TeamAlloc.duoVar player round (court * 2 + 1))
                       (range num_players))) REq (LConst 2) None] ->
    holds a c = true).
  { intros c Hcin. apply Hin. right. unfold TeamAlloc.constraint6.
    apply in_flat_map. exists round. split; [exact Hr|].
    apply in_flat_map. exists court. split; [exact Hcourt | exact Hcin]. }
  split; [|split].
  - pose proof (H6 _ (or_introl eq_refl)) as H. simpl in H.
    apply Z.eqb_eq in H. rewrite map_map in H. exact H.
  - pose proof (H6 _ (or_intror (or_introl eq_refl))) as H. simpl in H.
    apply Z.eqb_eq in H. rewrite map_map in H. exact H.
  - intros player Hp.
    assert (H : holds a (Add (LSum [TeamAlloc.duoVar player round (court * 2);
                                    TeamAlloc.duoVar player round (court * 2 + 1)])
                           REq (LSum [TeamAlloc.games player round court]) None) = true).
    { apply Hin. left. unfold TeamAlloc.duo_definition.
      apply in_flat_map. exists player. split; [exact Hp|].
      apply in_flat_map. exists round. split; [exact Hr|].
      apply in_map_iff. exists court. split; [reflexivity | exact Hcourt]. }
    simpl in H. apply Z.eqb_eq in H. unfold Value, in_a_duo in *.
    destruct (a (TeamAlloc.duoVar player round (court * 2))),
             (a (TeamAlloc.duoVar player round (court * 2 + 1))),
             (a (TeamAlloc.games player round court));
      simpl in H; split; try reflexivity; lia.
Qed.

(** In every solution of the team model each of the two duo slots of a
    played court holds two players, no player is in both, and the players
    of the court are those of its two duos. *)
Theorem team_duos_split_court
  (num_players num_rounds num_courts : Z) (bench_list : list Z)
  (m : CpModel TeamAlloc.var) (a : valuation TeamAlloc.var) :
  TeamAlloc.main num_players num_rounds num_courts bench_list = Ok m ->
  solution m a = true ->
  forall round court,
    In round (range num_rounds) -> In court (range num_courts) ->
    duo_size a num_players round (court * 2) = 2
    /\ duo_size a num_players round (court * 2 + 1) = 2
    /\ forall player, In player (range num_players) ->
         a (TeamAlloc.games player round court) = in_a_duo a player round court
         /\ (a (TeamAlloc.duoVar player round (court * 2))
             && a (TeamAlloc.duoVar player round (court * 2 + 1))) = false.
Proof.
  intros Hmain Hsol round court Hr Hcourt.
  exact (team_duos_split_court_aux _ _ _ _ m a Hmain Hsol round court Hr Hcourt).
Qed.

Lemma team_duos_split_court_witness :
  duo_size schedule_5_5_1 5 2 (0 * 2) = 2
  /\ duo_size schedule_5_5_1 5 2 (0 * 2 + 1) = 2
  /\ forall player, In player (range 5) ->
       schedule_5_5_1 (TeamAlloc.games player 2 0)
       = in_a_duo schedule_5_5_1 player 2 0
       /\ (schedule_5_5_1 (TeamAlloc.duoVar player 2 (0 * 2))
           && schedule_5_5_1 (TeamAlloc.duoVar player 2 (0 * 2 + 1))) = false.
Proof.
  eapply (team_duos_split_court 5 5 1 [1; 2; 3; 4; 5]);
    [vm_compute; reflexivity | vm_compute; reflexivity
     | apply in_range; lia | apply in_range; lia].
Defined.

(** Lists of 1-based ids of the players selected by a test. *)
Lemma In_ids (f : Z -> bool) (l : list Z) (v : Z) :
  In v (flat_map (fun p => if f p then [p + 1] else []) l)
  <-> In (v - 1) l /\ f (v - 1) = true.
Proof.
  rewrite in_flat_map. split.
  - intros (p & Hp & Hv). destruct (f p) eqn:E; [|contradiction].
    destruct Hv as [<- | []]. rewrite Z.add_simpl_r. split; assumption.
  - intros [Hp Hf]. exists (v - 1). split; [exact Hp|].
    rewrite Hf. left. lia.
Qed.

Lemma length_ids (f : Z -> bool) (l : list Z) :
  Z.of_nat (length (flat_map (fun p => if f p then [p + 1] else []) l))
  = sum (map (fun p => Z.b2z (f p)) l).
Proof.
  induction l as [|p l IH]; [reflexivity|].
  cbn [flat_map map sum fold_right]. fold (sum (map (fun p => Z.b2z (f p)) l)).
  rewrite length_app, Nat2Z.inj_add, IH. destruct (f p); reflexivity.
Qed.

Lemma NoDup_ids (f : Z -> bool) (l : list Z) :
  NoDup l -> NoDup (flat_map (fun p => if f p then [p + 1] else []) l).
Proof.
  intros Hnd. induction Hnd as [|p l Hnot Hnd IH]; [constructor|].
  cbn [flat_map]. destruct (f p); [|exact IH].
  simpl. constructor; [|exact IH].
  intros Hin. apply In_ids in Hin. rewrite Z.add_simpl_r in Hin. tauto.
Qed.

(** The members of a written group, from the duos of the court. *)
Lemma team_members_spec
  (num_players num_rounds num_courts : Z) (bench_list : list Z)
  (m : CpModel TeamAlloc.var) (a : valuation TeamAlloc.var) :
  TeamAlloc.main num_players num_rounds num_courts bench_list = Ok m ->
  solution m a = true ->
  forall round court,
    In round (range num_rounds) -> In court (range num_courts) ->
    length (TeamWriter.members a num_players round court) = 4%nat
    /\ NoDup (TeamWriter.members a num_players round court)
    /\ forall v,
         In v (TeamWriter.members a num_players round court)
         <-> In (v - 1) (range num_players)
             /\ a (TeamAlloc.games (v - 1) round court) = true.
Proof.
  intros Hmain Hsol round court Hr Hcourt.
  destruct (team_duos_split_court_aux num_players num_rounds num_courts
              bench_list m a Hmain Hsol round court Hr Hcourt)
    as (H0 & H1 & Hsplit).
  unfold TeamWriter.members. cbv zeta. split; [|split].
  - rewrite length_app. apply Nat2Z.inj. rewrite Nat2Z.inj_add.
    rewrite (length_ids (fun p => a (TeamAlloc.duoVar p round (court * 2)))).
    rewrite (length_ids (fun p => a (TeamAlloc.duoVar p round (court * 2 + 1)))).
    unfold duo_size, Value in H0, H1. rewrite H0, H1. reflexivity.
  - apply NoDup_app.
    + apply (NoDup_ids (fun p => a (TeamAlloc.duoVar p round (court * 2)))),
        NoDup_range.
    + apply (NoDup_ids (fun p => a (TeamAlloc.duoVar p round (court * 2 + 1)))),
        NoDup_range.
    + intros v Hv0 Hv1.
      apply (In_ids (fun p => a (TeamAlloc.duoVar p round (court * 2)))) in Hv0.
      apply (In_ids (fun p => a (TeamAlloc.duoVar p round (court * 2 + 1)))) in Hv1.
      destruct Hv0 as [Hp E0], Hv1 as [_ E1].
      destruct (Hsplit (v - 1) Hp) as [_ Hboth].
      rewrite E0, E1 in Hboth. discriminate.
  - intros v. rewrite in_app_iff.
    rewrite (In_ids (fun p => a (TeamAlloc.duoVar p round (court * 2)))).
    rewrite (In_ids (fun p => a (TeamAlloc.duoVar p round (court * 2 + 1)))).
    split.
    + intros [[Hp E]|[Hp E]]; (split; [exact Hp|]);
        destruct (Hsplit (v - 1) Hp) as [-> _]; unfold in_a_duo; rewrite E;
        [reflexivity | apply orb_true_r].
    + intros [Hp Eg]. destruct (Hsplit (v - 1) Hp) as [E _].
      rewrite Eg in E. symmetry in E. unfold in_a_duo in E.
      apply orb_true_iff in E. destruct E as [E|E]; [left | right];
        (split; [exact Hp | exact E]).
Qed.

(** In every solution of the team model the group that [write_bench] of
    teamAlloc.py writes for a court of a round has four entries, all
    different, and they are the ids of the players on that court. *)
Theorem team_group_written
  (num_players num_rounds num_courts : Z) (bench_list : list Z)
  (m : CpModel TeamAlloc.var) (a : valuation TeamAlloc.var) :
  TeamAlloc.main num_players num_rounds num_courts bench_list = Ok m ->
  solution m a = true ->
  forall round court,
    In round (range num_rounds) -> In court (range num_courts) ->
    length (TeamWriter.members a num_players round court) = 4%nat
    /\ NoDup (TeamWriter.members a num_players round court)
    /\ forall v,
         In v (TeamWriter.members a num_players round court)
         <-> In (v - 1) (range num_players)
             /\ a (TeamAlloc.games (v - 1) round court) = true.
Proof.
  intros Hmain Hsol round court Hr Hcourt.
  exact (team_members_spec _ _ _ _ m a Hmain Hsol round court Hr Hcourt).
Qed.

Lemma team_group_written_witness :
  length (TeamWriter.members schedule_5_5_1 5 2 0) = 4%nat
  /\ NoDup (TeamWriter.members schedule_5_5_1 5 2 0)
  /\ forall v,
       In v (TeamWriter.members schedule_5_5_1 5 2 0)
       <-> In (v - 1) (range 5)
           /\ schedule_5_5_1 (TeamAlloc.games (v - 1) 2 0) = true.
Proof.
  eapply (team_group_written 5 5 1 [1; 2; 3; 4; 5]);
    [vm_compute; reflexivity | vm_compute; reflexivity
     | apply in_range; lia | apply in_range; lia].
Defined.

(** ** teamAlloc.py: which bench files are read without error *)

Lemma py_get_ok_nth (l : list Z) (i v : Z) :
  py_get l i = Ok v -> 0 <= i -> v = nth (Z.to_nat i) l 0.
Proof.
  unfold py_get, py_index. intros H Hi.
  destruct (Z.leb_spec 0 i); [|lia].
  destruct (Z.ltb_spec i (Z.of_nat (length l))).
  - simpl in H. destruct (nth_error l (Z.to_nat i)) eqn:E; [|discriminate].
    injection H as <-. symmetry. apply nth_error_nth, E.
  - simpl in H. destruct (Z.ltb_spec i 0); [lia|].
    rewrite andb_false_r in H. discriminate.
Qed.

Lemma read_entry_valid (num_players num_rounds num_courts round x : Z)
  (bench_list : list Z) (s s' : TeamAlloc.bench_reader) :
  TeamAlloc.read_entry num_players num_rounds num_courts bench_list round x s = Ok s' ->
  0 <= TeamAlloc.count s ->
  1 <= nth (Z.to_nat (TeamAlloc.count s)) bench_list 0 <= num_players.
Proof.
  unfold TeamAlloc.read_entry. intros H Hc.
  destruct (py_get bench_list (TeamAlloc.count s)) as [e|v] eqn:Ev; [discriminate|].
  apply py_get_ok_nth in Ev; [|exact Hc]. rewrite <- Ev. cbn [bind] in H.
  destruct (py_get (TeamAlloc.bench_assignements s) (v - 1)) as [e|row];
    [discriminate|]. cbn [bind] in H.
  destruct (py_set row round 1) as [e|row']; [discriminate|]. cbn [bind] in H.
  destruct (py_set (TeamAlloc.bench_assignements s) (v - 1) row') as [e|ba'];
    [discriminate|]. cbn [bind] in H.
  unfold TeamAlloc.games_lookup in H.
  destruct (Z.leb_spec 0 (v - 1)); [|discriminate].
  destruct (Z.ltb_spec (v - 1) num_players); [lia | discriminate].
Qed.

Lemma read_entries_valid (num_players num_rounds num_courts round : Z)
  (bench_list iters : list Z) :
  forall s s' : TeamAlloc.bench_reader,
    for_each iters
      (TeamAlloc.read_entry num_players num_rounds num_courts bench_list round) s
      = Ok s' ->
    0 <= TeamAlloc.count s ->
    forall k, TeamAlloc.count s <= k < TeamAlloc.count s' ->
      1 <= nth (Z.to_nat k) bench_list 0 <= num_players.
Proof.
  induction iters as [|x iters IH]; intros s s' H Hc k Hk; cbn [for_each] in H.
  - injection H as <-. lia.
  - destruct (TeamAlloc.read_entry _ _ _ _ _ _ _) as [e|s1] eqn:E1; [discriminate|].
    cbn [bind] in H.
    pose proof (read_entry_valid _ _ _ _ _ _ _ _ E1 Hc) as Hv.
    apply read_entry_count in E1; [|exact Hc]. destruct E1 as [E1 _].
    destruct (Z.eq_dec k (TeamAlloc.count s)) as [-> | Hne]; [exact Hv|].
    apply (IH s1 s' H); lia.
Qed.

Lemma read_rounds_valid (num_players num_rounds num_courts num_bench : Z)
  (bench_list rs : list Z) :
  forall s s' : TeamAlloc.bench_reader,
    for_each rs
      (TeamAlloc.read_round num_players num_rounds num_courts num_bench bench_list) s
      = Ok s' ->
    0 <= TeamAlloc.count s <= Z.of_nat (length bench_list) ->
    forall k, TeamAlloc.count s <= k < TeamAlloc.count s' ->
      1 <= nth (Z.to_nat k) bench_list 0 <= num_players.
Proof.
  induction rs as [|r rs IH]; intros s s' H Hc k Hk; cbn [for_each] in H.
  - injection H as <-. lia.
  - destruct (TeamAlloc.read_round _ _ _ _ _ _ _) as [e|s1] eqn:E1; [discriminate|].
    cbn [bind] in H. unfold TeamAlloc.read_round in E1.
    destruct (for_each (range num_bench) _ _) as [e|s0] eqn:E0; [discriminate|].
    cbn [bind] in E1. injection E1 as <-.
    pose proof (read_entries_valid _ _ _ _ _ _ _ _ E0) as Hv. simpl in Hv.
    apply read_entries_count in E0; [|simpl; lia]. simpl in E0.
    destruct (Z.lt_ge_cases k (TeamAlloc.count s0)) as [Hlt|Hge].
    + apply Hv; lia.
    + apply (IH _ s' H); simpl; lia.
Qed.

(** Any list of player ids of the right length is read. *)
Lemma read_rounds_accept (num_players num_rounds num_courts num_bench : Z)
  (rs : list Z) :
  0 <= num_courts -> 0 <= num_bench ->
  forall (pre body post : list Z) (s : TeamAlloc.bench_reader)
         (cells : Z -> Z -> bool),
    (forall r, In r rs -> In r (range num_rounds)) ->
    length body = (Z.to_nat num_bench * length rs)%nat ->
    (forall v, In v body -> In (v - 1) (range num_players)) ->
    TeamAlloc.count s = Z.of_nat (length pre) ->
    TeamAlloc.bench_assignements s = bench_matrix_of cells num_players num_rounds ->
    exists s',
      for_each rs
        (TeamAlloc.read_round num_players num_rounds num_courts num_bench
           (pre ++ body ++ post)) s = Ok s'.
Proof.
  intros Hnc Hnb. induction rs as [|r rs IH];
    intros pre body post s cells Hrs Hlen Hvalid Hcount Hba.
  - exists s. reflexivity.
  - set (n := Z.to_nat num_bench) in *.
    assert (Hsplit : body = firstn n body ++ skipn n body)
      by (symmetry; apply firstn_skipn).
    assert (Hl1 : length (firstn n body) = n).
    { rewrite length_firstn, Hlen. simpl. lia. }
    cbn [for_each]. unfold TeamAlloc.read_round at 1.
    match goal with |- context [for_each (range num_bench) _ ?s0] => set (s1 := s0) end.
    destruct (read_entries_ok num_players num_rounds num_courts r
                (firstn n body) Hnc (Hrs r (or_introl eq_refl))
                (range num_bench) pre (skipn n body ++ post) s1 cells)
      as (s2 & E & Ec & Eba & _).
    + intros v Hv. apply Hvalid. rewrite Hsplit. apply in_or_app. left. exact Hv.
    + rewrite length_range_nat, Hl1. reflexivity.
    + exact Hcount.
    + exact Hba.
    + rewrite (app_assoc (firstn n body)), firstn_skipn in E. rewrite E. cbn [bind].
      match goal with |- context [for_each rs _ ?s0] => set (s3 := s0) end.
      destruct (IH (pre ++ firstn n body) (skipn n body) post s3
                  (mark cells r (firstn n body))) as (s' & E').
      * intros r' Hr'. apply Hrs. right. exact Hr'.
      * rewrite length_skipn, Hlen. simpl. lia.
      * intros v Hv. apply Hvalid. rewrite Hsplit. apply in_or_app. right. exact Hv.
      * subst s3 s1. simpl in *. rewrite Ec, Hcount, length_app. lia.
      * subst s3. simpl. exact Eba.
      * exists s'.
        rewrite <- app_assoc, (app_assoc (firstn n body)), firstn_skipn in E'.
        exact E'.
Qed.

(** With a positive number of benched players, [main] of teamAlloc.py
    reaches the solver exactly when the bench file has at least
    [num_bench * num_rounds] entries and the first [num_bench * num_rounds]
    of them are player ids [1 .. num_players]. *)
Theorem team_main_accepts_iff
  (num_players num_rounds num_courts : Z) (bench_list : list Z) :
  0 <= num_courts -> 0 <= num_rounds ->
  0 < num_players - num_courts * 4 ->
  (exists m, TeamAlloc.main num_players num_rounds num_courts bench_list = Ok m)
  <-> ((num_players - num_courts * 4) * num_rounds <= Z.of_nat (length bench_list)
       /\ forall k, 0 <= k < (num_players - num_courts * 4) * num_rounds ->
            1 <= nth (Z.to_nat k) bench_list 0 <= num_players).
Proof.
  intros Hnc Hnr Hnb. set (num_bench := num_players - num_courts * 4) in *.
  split.
  - intros [m Hmain].
    destruct (team_main_inv _ _ _ _ _ Hmain) as (c4 & E4 & _).
    unfold TeamAlloc.constraint4 in E4. fold num_bench in E4.
    destruct (Z.ltb_spec 0 num_bench); [|lia].
    destruct (TeamAlloc.read_bench _ _ _ _ _) as [e|s] eqn:Er; [discriminate|].
    unfold TeamAlloc.read_bench in Er.
    pose proof (read_rounds_valid _ _ _ _ _ _ _ _ Er) as Hv.
    apply read_rounds_count in Er; [|simpl; lia].
    rewrite length_range_nat in Er. simpl in Er, Hv.
    rewrite !Z2Nat.id in Er by lia. destruct Er as [Ec Hle].
    split; [lia|]. intros k Hk. apply Hv; lia.
  - intros [Hlen Hvalid].
    unfold TeamAlloc.main, TeamAlloc.constraint4, floor_div, ceil_div.
    fold num_bench.
    destruct (Z.ltb_spec 0 num_bench); [|lia].
    destruct (Z.eqb_spec num_players 0); [lia|].
    destruct (Z.eqb_spec num_bench 0); [lia|]. cbn [bind].
    set (total := (Z.to_nat num_bench * Z.to_nat num_rounds)%nat).
    destruct (read_rounds_accept num_players num_rounds num_courts num_bench
                (range num_rounds) Hnc ltac:(lia)
                [] (firstn total bench_list) (skipn total bench_list)
                {| TeamAlloc.count := 0;
                   TeamAlloc.bench_assignements :=
                     map (fun p => map (fun t => 0) (range num_rounds))
                       (range num_players);
                   TeamAlloc.bench_matrix := [];
                   TeamAlloc.bench := [];
                   TeamAlloc.posted := [] |}
                (fun _ _ => false)) as (s & Es).
    + intros r Hr. exact Hr.
    + rewrite length_firstn, length_range_nat. subst total. nia.
    + intros v Hv. apply (In_nth _ _ 0) in Hv. destruct Hv as (i & Hi & <-).
      rewrite length_firstn in Hi.
      rewrite nth_firstn.
      destruct (Nat.ltb_spec i total); [|lia].
      specialize (Hvalid (Z.of_nat i)). rewrite Nat2Z.id in Hvalid.
      apply in_range. subst total. nia.
    + reflexivity.
    + reflexivity.
    + simpl app in Es. rewrite firstn_skipn in Es.
      unfold TeamAlloc.read_bench. rewrite Es. cbn [bind].
      eexists. reflexivity.
Qed.

Lemma team_main_accepts_iff_witness :
  (exists m, TeamAlloc.main 5 5 1 [1; 2; 3; 4; 9] = Ok m)
  <-> ((5 - 1 * 4) * 5 <= Z.of_nat (length [1; 2; 3; 4; 9])
       /\ forall k, 0 <= k < (5 - 1 * 4) * 5 ->
            1 <= nth (Z.to_nat k) [1; 2; 3; 4; 9] 0 <= 5).
Proof.
  apply (team_main_accepts_iff 5 5 1 [1; 2; 3; 4; 9]); lia.
Defined.

(** Without benched players [main] of teamAlloc.py does not read the bench
    file and cannot fail; the bench court is then empty in every solution,
    and there is no solution at all when more courts are asked for than
    the players can fill. *)
Theorem team_without_bench
  (num_players num_rounds num_courts : Z) :
  num_players - num_courts * 4 <= 0 ->
  0 <= num_players -> 0 <= num_courts ->
  exists m,
    (forall bench_list,
       TeamAlloc.main num_players num_rounds num_courts bench_list = Ok m)
    /\ forall a, solution m a = true ->
         forall round, In round (range num_rounds) ->
           num_players - num_courts * 4 = 0
           /\ forall player, In player (range num_players) ->
                a (TeamAlloc.games player round num_courts) = false.
Proof.
  intros Hnb Hnp Hnc.
  assert (Hmain : exists m, forall bench_list,
             TeamAlloc.main num_players num_rounds num_courts bench_list = Ok m).
  { unfold TeamAlloc.main, TeamAlloc.constraint4.
    destruct (Z.ltb_spec 0 (num_players - num_courts * 4)); [lia|].
    cbn [bind]. eexists. intros bench_list. reflexivity. }
  destruct Hmain as [m Hmain]. exists m. split; [exact Hmain|].
  intros a Hsol round Hr.
  pose proof (bench_court_count _ _ _ [] m a Hnp Hnc (Hmain []) Hsol round Hr)
    as Hcount.
  unfold on_bench_court in Hcount.
  rewrite <- (map_map (fun player => TeamAlloc.games player round num_courts)
                (Value a)) in Hcount.
  pose proof (sum_Value_nonneg a
                (map (fun player => TeamAlloc.games player round num_courts)
                   (range num_players))) as Hlo.
  split; [lia|]. intros player Hp.
  apply (sum_Value_zero a
           (map (fun player => TeamAlloc.games player round num_courts)
              (range num_players))); [lia|].
  apply in_map_iff. exists player. split; [reflexivity | exact Hp].
Qed.

Lemma team_without_bench_witness :
  exists m,
    (forall bench_list, TeamAlloc.main 4 2 1 bench_list = Ok m)
    /\ forall a, solution m a = true ->
         forall round, In round (range 2) ->
           4 - 1 * 4 = 0
           /\ forall player, In player (range 4) ->
                a (TeamAlloc.games player round 1) = false.
Proof.
  apply (team_without_bench 4 2 1); lia.
Defined.

(** ** teamAlloc.py: when the callback raises *)

Lemma flat_map_nil {A B} (g : A -> list B) (l : list A) :
  (forall x, In x l -> g x = []) -> flat_map g l = [].
Proof.
  induction l as [|h t IH]; intros H; [reflexivity|].
  cbn [flat_map]. rewrite (H h) by (left; reflexivity).
  apply IH. intros x Hx. apply H. right. exact Hx.
Qed.

Lemma range2_empty (a b : Z) : b <= a -> range2 a b = [].
Proof.
  intros H. unfold range2. replace (Z.to_nat (b - a)) with 0%nat by lia.
  reflexivity.
Qed.

(** [print_schedule] of teamAlloc.py takes [max] and [min] over the
    pairs of players: with fewer than two players it raises ValueError,
    with two or more it returns. *)
Theorem team_print_schedule_raises
  (s : TeamAlloc.printer) (a : valuation TeamAlloc.var)
  (num_players num_rounds num_courts : Z) :
  (num_players < 2 ->
   TeamAlloc.print_schedule s a num_players num_rounds num_courts
   = Raise ValueError)
  /\ (2 <= num_players ->
      exists r,
        TeamAlloc.print_schedule s a num_players num_rounds num_courts = Ok r).
Proof.
  unfold TeamAlloc.print_schedule. split.
  - intros Hnp.
    assert (E : TeamAlloc.paircounts a num_players num_rounds num_courts = []).
    { unfold TeamAlloc.paircounts. apply flat_map_nil. intros p1 Hp1.
      apply in_range in Hp1. rewrite range2_empty by lia. reflexivity. }
    rewrite E. reflexivity.
  - intros Hnp.
    assert (Hin : In (TeamAlloc.paircount a num_rounds num_courts 0 1)
                    (TeamAlloc.paircounts a num_players num_rounds num_courts)).
    { unfold TeamAlloc.paircounts. apply in_flat_map.
      exists 0. split; [apply in_range; lia|]. apply in_map.
      apply in_range2. lia. }
    destruct (TeamAlloc.paircounts a num_players num_rounds num_courts) as [|h t];
      [contradiction|].
    cbn [py_max py_min bind]. eexists. reflexivity.
Qed.

(** ** courtAlloc.py: the court assignment and the stored best *)

Lemma court_model_inv (num_players num_rounds num_courts : Z)
  (group_assignements : list (list (list Z))) (m : CpModel CourtAlloc.var) :
  CourtAlloc.model num_players num_rounds num_courts group_assignements = Ok m ->
  exists pins,
    constraints m =
      CourtAlloc.constraint1 num_rounds num_courts
      ++ CourtAlloc.constraint2 num_rounds num_courts
      ++ pins.
Proof.
  unfold CourtAlloc.model. intros H.
  destruct (CourtAlloc.group_pins _ _ _ _) as [e|pins]; [discriminate|].
  cbn [bind] in H. injection H as <-. exists pins. reflexivity.
Qed.

(** In every solution of the court model, in every round, each group is
    on exactly one court and each court has exactly one group. *)
Theorem court_assignment_bijective
  (num_players num_rounds num_courts : Z)
  (group_assignements : list (list (list Z)))
  (m : CpModel CourtAlloc.var) (a : valuation CourtAlloc.var) :
  CourtAlloc.model num_players num_rounds num_courts group_assignements = Ok m ->
  solution m a = true ->
  forall round, In round (range num_rounds) ->
    (forall group, In group (range num_courts) ->
       exists court,
         In court (range num_courts)
         /\ a (CourtAlloc.games round court group) = true
         /\ forall court', In court' (range num_courts) ->
              a (CourtAlloc.games round court' group) = true -> court' = court)
    /\ (forall court, In court (range num_courts) ->
          exists group,
            In group (range num_courts)
            /\ a (CourtAlloc.games round court group) = true
            /\ forall group', In group' (range num_courts) ->
                 a (CourtAlloc.games round court group') = true -> group' = group).
Proof.
  intros Hmodel Hsol round Hr.
  destruct (court_model_inv _ _ _ _ _ Hmodel) as (pins & Hc).
  split.
  - intros group Hg.
    apply (exactly_one_member a (fun court => CourtAlloc.games round court group)
             (range num_courts) Z.eq_dec (NoDup_range _)).
    assert (H : holds a (Add (LSum (map (fun court => CourtAlloc.games round court group)
                                      (range num_courts)))
                           REq (LConst 1) None) = true).
    { apply (solution_holds m a _ Hsol). rewrite Hc. apply in_or_app. left.
      unfold CourtAlloc.constraint1. apply in_flat_map.
      exists round. split; [exact Hr|]. apply in_map_iff.
      exists group. split; [reflexivity | exact Hg]. }
    simpl in H. apply Z.eqb_eq in H. rewrite map_map in H. exact H.
  - intros court Hcourt.
    apply (exactly_one_member a (fun group => CourtAlloc.games round court group)
             (range num_courts) Z.eq_dec (NoDup_range _)).
    assert (H : holds a (Add (LSum (map (fun group => CourtAlloc.games round court group)
                                      (range num_courts)))
                           REq (LConst 1) None) = true).
    { apply (solution_holds m a _ Hsol). rewrite Hc. apply in_or_app. right.
      apply in_or_app. left.
      unfold CourtAlloc.constraint2. apply in_flat_map.
      exists round. split; [exact Hr|]. apply in_map_iff.
      exists court. split; [reflexivity | exact Hcourt]. }
    simpl in H. apply Z.eqb_eq in H. rewrite map_map in H. exact H.
Qed.

Lemma court_assignment_bijective_witness :
  (forall group, In group (range 2) ->
     exists court,
       In court (range 2)
       /\ swapped_8_1_2 (CourtAlloc.games 0 court group) = true
       /\ forall court', In court' (range 2) ->
            swapped_8_1_2 (CourtAlloc.games 0 court' group) = true -> court' = court)
  /\ (forall court, In court (range 2) ->
        exists group,
          In group (range 2)
          /\ swapped_8_1_2 (CourtAlloc.games 0 court group) = true
          /\ forall group', In group' (range 2) ->
               swapped_8_1_2 (CourtAlloc.games 0 court group') = true -> group' = group).
Proof.
  eapply (court_assignment_bijective 8 1 2 groups_8_1_2);
    [vm_compute; reflexivity | vm_compute; reflexivity | apply in_range; lia].
Defined.

(** The acceptance test of courtAlloc.py keeps its state in step with
    what it emits: an emitted solution leaves its own largest spread and
    count in the state, a solution that is not emitted leaves the state
    as it was, and the stored pair never increases (spread first, then
    count). *)
Theorem court_accept_state (s s' : CourtAlloc.printer) (diffs : list Z)
  (printit : bool) :
  CourtAlloc.accept s diffs = Ok (s', printit) ->
  exists m,
    py_max diffs = Ok m
    /\ (printit = true ->
        CourtAlloc._bestCourtDiffMax s' = m
        /\ CourtAlloc._numPlayersWith_best s' = CourtAlloc.count diffs m)
    /\ (printit = false -> s' = s)
    /\ (CourtAlloc._bestCourtDiffMax s' < CourtAlloc._bestCourtDiffMax s
        \/ (CourtAlloc._bestCourtDiffMax s' = CourtAlloc._bestCourtDiffMax s
            /\ CourtAlloc._numPlayersWith_best s'
               <= CourtAlloc._numPlayersWith_best s)).
Proof.
  unfold CourtAlloc.accept. intros H.
  destruct (py_max diffs) as [e|m]; [discriminate|]. cbn [bind] in H.
  exists m. split; [reflexivity|].
  destruct (Z.eqb_spec (CourtAlloc._bestCourtDiffMax s) m) as [E|E].
  - destruct (Z.leb_spec (CourtAlloc.count diffs m) (CourtAlloc._numPlayersWith_best s))
      as [Hc|Hc]; simpl in H.
    + destruct (Z.ltb_spec m (CourtAlloc._bestCourtDiffMax s)); [lia|].
      injection H as <- <-. simpl.
      split; [auto|]. split; [discriminate|]. right. split; [reflexivity | exact Hc].
    + destruct (Z.ltb_spec m (CourtAlloc._bestCourtDiffMax s)); [lia|].
      injection H as <- <-.
      split; [discriminate|]. split; [reflexivity|]. right. split; [reflexivity | lia].
  - destruct (Z.ltb_spec m (CourtAlloc._bestCourtDiffMax s)) as [Hlt|Hge].
    + injection H as <- <-. simpl.
      split; [auto|]. split; [discriminate|]. left. exact Hlt.
    + injection H as <- <-.
      split; [discriminate|]. split; [reflexivity|]. right. split; [reflexivity | lia].
Qed.

Lemma court_accept_state_witness :
  CourtAlloc._bestCourtDiffMax
    {| CourtAlloc._solution_count := 1; CourtAlloc._solution_limit := 9;
       CourtAlloc._bestCourtDiffMax := 1; CourtAlloc._numPlayersWith_best := 2 |}
  = 1
  /\ CourtAlloc._numPlayersWith_best
       {| CourtAlloc._solution_count := 1; CourtAlloc._solution_limit := 9;
          CourtAlloc._bestCourtDiffMax := 1; CourtAlloc._numPlayersWith_best := 2 |}
     = CourtAlloc.count [1; 0; 1] 1.
Proof.
  destruct (court_accept_state
              {| CourtAlloc._solution_count := 1; CourtAlloc._solution_limit := 9;
                 CourtAlloc._bestCourtDiffMax := 3;
                 CourtAlloc._numPlayersWith_best := 3 |}
              {| CourtAlloc._solution_count := 1; CourtAlloc._solution_limit := 9;
                 CourtAlloc._bestCourtDiffMax := 1;
                 CourtAlloc._numPlayersWith_best := 2 |}
              [1; 0; 1] true eq_refl) as (m & Hm & Hemit & _).
  injection Hm as <-. exact (Hemit eq_refl).
Defined.

(** ** validate_sat.py: the bench seen by the validator *)

Lemma validator_entry (num_players num_rounds num_courts y x : Z)
  (bench_list : list Z) (s s' : TeamAlloc.bench_reader) :
  TeamAlloc.read_entry num_players num_rounds num_courts bench_list y x s = Ok s' ->
  BenchGroup.read_entry bench_list y x
    (TeamAlloc.count s, TeamAlloc.bench_assignements s)
  = Ok (TeamAlloc.count s', TeamAlloc.bench_assignements s').
Proof.
  unfold TeamAlloc.read_entry, BenchGroup.read_entry. intros H.
  destruct (py_get bench_list (TeamAlloc.count s)) as [e|v]; [discriminate|].
  cbn [bind] in *.
  destruct (py_get (TeamAlloc.bench_assignements s) (v - 1)) as [e|row];
    [discriminate|]. cbn [bind] in *.
  destruct (py_set row y 1) as [e|row']; [discriminate|]. cbn [bind] in *.
  destruct (py_set (TeamAlloc.bench_assignements s) (v - 1) row') as [e|ba'];
    [discriminate|]. cbn [bind] in *.
  destruct (TeamAlloc.games_lookup _ _ _ _ _ _) as [e|g]; [discriminate|].
  cbn [bind] in H. injection H as <-. reflexivity.
Qed.

Lemma validator_entries (num_players num_rounds num_courts y : Z)
  (bench_list iters : list Z) :
  forall s s' : TeamAlloc.bench_reader,
    for_each iters
      (TeamAlloc.read_entry num_players num_rounds num_courts bench_list y) s
      = Ok s' ->
    for_each iters (BenchGroup.read_entry bench_list y)
      (TeamAlloc.count s, TeamAlloc.bench_assignements s)
    = Ok (TeamAlloc.count s', TeamAlloc.bench_assignements s').
Proof.
  induction iters as [|x iters IH]; intros s s' H; cbn [for_each] in *.
  - injection H as <-. reflexivity.
  - destruct (TeamAlloc.read_entry _ _ _ _ _ _ _) as [e|s1] eqn:E1; [discriminate|].
    cbn [bind] in H. rewrite (validator_entry _ _ _ _ _ _ _ _ E1). cbn [bind].
    apply IH, H.
Qed.

Lemma validator_rounds (num_players num_rounds num_courts num_bench : Z)
  (bench_list rs : list Z) :
  forall s s' : TeamAlloc.bench_reader,
    for_each rs
      (TeamAlloc.read_round num_players num_rounds num_courts num_bench bench_list) s
      = Ok s' ->
    for_each rs (fun y => for_each (range num_bench) (BenchGroup.read_entry bench_list y))
      (TeamAlloc.count s, TeamAlloc.bench_assignements s)
    = Ok (TeamAlloc.count s', TeamAlloc.bench_assignements s').
Proof.
  induction rs as [|r rs IH]; intros s s' H; cbn [for_each] in *.
  - injection H as <-. reflexivity.
  - destruct (TeamAlloc.read_round _ _ _ _ _ _ _) as [e|s1] eqn:E1; [discriminate|].
    cbn [bind] in H. unfold TeamAlloc.read_round in E1.
    destruct (for_each (range num_bench) _ _) as [e|s0] eqn:E0; [discriminate|].
    cbn [bind] in E1. injection E1 as <-.
    apply validator_entries in E0. simpl in E0. rewrite E0. cbn [bind].
    apply IH in H. simpl in H. exact H.
Qed.

(** Whenever [main] of teamAlloc.py reads a bench file without error,
    [benchGroup.read_bench_groups] of the validator reads it too, and
    builds the same matrix [bench_assignements]. *)
Theorem validator_reads_like_team
  (num_players num_rounds num_courts : Z) (bench_list : list Z)
  (s : TeamAlloc.bench_reader) :
  0 < num_players - num_courts * 4 ->
  TeamAlloc.read_bench num_players num_rounds num_courts
    (num_players - num_courts * 4) bench_list = Ok s ->
  BenchGroup.read_bench_groups num_players num_rounds num_courts bench_list
  = Ok (TeamAlloc.bench_assignements s).
Proof.
  intros Hnb H. unfold BenchGroup.read_bench_groups. cbv zeta.
  destruct (Z.ltb_spec 0 (num_players - num_courts * 4)); [|lia].
  unfold TeamAlloc.read_bench in H. apply validator_rounds in H.
  simpl in H. rewrite H. reflexivity.
Qed.

Lemma validator_reads_like_team_witness :
  BenchGroup.read_bench_groups 5 5 1 [1; 2; 3; 4; 5]
  = Ok (bench_matrix_of plan_5_5_1 5 5).
Proof.
  destruct (TeamAlloc.read_bench 5 5 1 (5 - 1 * 4) [1; 2; 3; 4; 5]) as [e|s] eqn:E;
    [vm_compute in E; discriminate|].
  rewrite (validator_reads_like_team 5 5 1 [1; 2; 3; 4; 5] s ltac:(lia) E).
  vm_compute in E. injection E as <-. reflexivity.
Defined.

Lemma cell_of_matrix (plan : Z -> Z -> bool) (num_players num_rounds p t : Z) :
  In p (range num_players) -> In t (range num_rounds) ->
  BenchGroup.cell (bench_matrix_of plan num_players num_rounds) p t
  = Ok (Z.b2z (plan p t)).
Proof.
  intros Hp Ht. apply in_range in Hp. apply in_range in Ht.
  unfold BenchGroup.cell, bench_matrix_of.
  rewrite py_get_map_range by exact Hp. cbn [bind].
  rewrite py_get_map_range by exact Ht. reflexivity.
Qed.

Lemma collect_bench (plan : Z -> Z -> bool) (num_players num_rounds round : Z)
  (l : list Z) :
  In round (range num_rounds) ->
  (forall p, In p l -> In p (range num_players)) ->
  forall acc,
    for_each l (fun player bench =>
      x <- BenchGroup.cell (bench_matrix_of plan num_players num_rounds) player round ;;
      Ok (if x =? 0 then bench else bench ++ [player + 1])) acc
    = Ok (acc ++ flat_map (fun player => if plan player round then [player + 1] else []) l).
Proof.
  intros Hr. induction l as [|p l IH]; intros Hl acc.
  - simpl. rewrite app_nil_r. reflexivity.
  - cbn [for_each flat_map].
    rewrite cell_of_matrix by (try apply Hl; try exact Hr; left; reflexivity).
    cbn [bind]. rewrite IH by (intros q Hq; apply Hl; right; exact Hq).
    destruct (plan p round); simpl; [rewrite <- app_assoc|]; reflexivity.
Qed.

Lemma print_bench_of_matrix (plan : Z -> Z -> bool) (num_players num_rounds : Z)
  (rs : list Z) :
  (forall r, In r rs -> In r (range num_rounds)) ->
  forall acc,
    for_each rs (fun round printed =>
      bench <- for_each (range num_players) (fun player bench =>
                 x <- BenchGroup.cell (bench_matrix_of plan num_players num_rounds)
                        player round ;;
                 Ok (if x =? 0 then bench else bench ++ [player + 1]))
                 [] ;;
      Ok (printed ++ [bench])) acc
    = Ok (acc ++ map (fun round =>
                   flat_map (fun player =>
                     if plan player round then [player + 1] else [])
                     (range num_players)) rs).
Proof.
  induction rs as [|r rs IH]; intros Hrs acc.
  - simpl. rewrite app_nil_r. reflexivity.
  - cbn [for_each map].
    rewrite collect_bench by (try (apply Hrs; left; reflexivity); auto).
    cbn [bind app]. rewrite IH by (intros q Hq; apply Hrs; right; exact Hq).
    rewrite <- app_assoc. reflexivity.
Qed.

(** A loop that adds a number to a counter at each turn. *)
Lemma for_each_sum {A} (l : list A) (body : A -> Z -> result Z) (g : A -> Z) :
  (forall x c, In x l -> body x c = Ok (c + g x)) ->
  forall c, for_each l body c = Ok (c + sum (map g l)).
Proof.
  induction l as [|h t IH]; intros H c.
  - simpl. rewrite Z.add_0_r. reflexivity.
  - cbn [for_each map sum fold_right]. fold (sum (map g t)).
    rewrite (H h c) by (left; reflexivity). cbn [bind].
    rewrite IH by (intros x c' Hx; apply H; right; exact Hx).
    f_equal. lia.
Qed.

Lemma bench_optimization_of_matrix (plan : Z -> Z -> bool)
  (num_players num_rounds : Z) :
  BenchGroup.print_bench_optimization
    (bench_matrix_of plan num_players num_rounds) num_players num_rounds
  = Ok (sum (flat_map (fun p1 =>
          flat_map (fun p2 =>
            flat_map (fun r1 =>
              map (fun r2 =>
                if Z.b2z (plan p1 r1) + Z.b2z (plan p2 r1)
                   + Z.b2z (plan p1 r2) + Z.b2z (plan p2 r2) =? 4
                then 1 else 0)
                (range2 (r1 + 1) num_rounds))
              (range num_rounds))
            (range2 (p1 + 1) num_players))
          (range num_players))).
Proof.
  unfold BenchGroup.print_bench_optimization.
  rewrite sum_flat_map.
  rewrite (for_each_sum (range num_players) _
             (fun p1 => sum (flat_map (fun p2 =>
                flat_map (fun r1 =>
                  map (fun r2 =>
                    if Z.b2z (plan p1 r1) + Z.b2z (plan p2 r1)
                       + Z.b2z (plan p1 r2) + Z.b2z (plan p2 r2) =? 4
                    then 1 else 0)
                    (range2 (r1 + 1) num_rounds))
                  (range num_rounds))
                (range2 (p1 + 1) num_players)))); [reflexivity|].
  intros p1 c Hp1. rewrite sum_flat_map.
  apply (for_each_sum (range2 (p1 + 1) num_players)).
  intros p2 c2 Hp2. rewrite sum_flat_map.
  assert (Hp2' : In p2 (range num_players)).
  { apply in_range2 in Hp2. apply in_range in Hp1. apply in_range. lia. }
  apply (for_each_sum (range num_rounds)).
  intros t1 c3 Ht1.
  apply (for_each_sum (range2 (t1 + 1) num_rounds)).
  intros t2 c4 Ht2.
  assert (Ht2' : In t2 (range num_rounds)).
  { apply in_range2 in Ht2. apply in_range in Ht1. apply in_range. lia. }
  rewrite !cell_of_matrix by assumption. cbn [bind].
  destruct (_ =? 4); f_equal; lia.
Qed.

(** The validator shows what the planner showed: from the bench file
    written for a bench plan with [num_bench > 0] players per round,
    [read_bench_groups] builds a matrix on which [print_bench] prints the
    lists of [print_schedule] of benchAlloc.py, and
    [print_bench_optimization] the number of [print_player_stat]. *)
Theorem validator_shows_planner_bench
  (a : valuation BenchAlloc.var) (num_players num_rounds num_courts : Z) :
  0 <= num_courts ->
  0 < num_players - num_courts * 4 ->
  (forall round, In round (range num_rounds) ->
     benched_in_round a num_players round = num_players - num_courts * 4) ->
  exists bench_assignements,
    BenchGroup.read_bench_groups num_players num_rounds num_courts
      (BenchAlloc.write_bench a num_players num_rounds) = Ok bench_assignements
    /\ BenchGroup.print_bench bench_assignements num_players num_rounds
       = Ok (BenchPrinter.print_schedule a num_players num_rounds)
    /\ BenchGroup.print_bench_optimization bench_assignements num_players num_rounds
       = Ok (BenchPrinter.print_player_stat a num_players num_rounds).
Proof.
  intros Hnc Hnb Hroster.
  destruct (read_written_bench a num_players num_rounds num_courts
              (num_players - num_courts * 4) Hnc Hroster) as (s & Es & Eba & _).
  exists (TeamAlloc.bench_assignements s).
  split; [|rewrite Eba; split].
  - unfold BenchGroup.read_bench_groups. cbv zeta.
    destruct (Z.ltb_spec 0 (num_players - num_courts * 4)); [|lia].
    unfold TeamAlloc.read_bench in Es. apply validator_rounds in Es.
    simpl in Es. rewrite Es. reflexivity.
  - unfold BenchGroup.print_bench.
    rewrite print_bench_of_matrix by auto. reflexivity.
  - rewrite bench_optimization_of_matrix. reflexivity.
Qed.

Lemma validator_shows_planner_bench_witness :
  exists bench_assignements,
    BenchGroup.read_bench_groups 5 5 1
      (BenchAlloc.write_bench (bench_valuation plan_5_5_1 5) 5 5)
    = Ok bench_assignements
    /\ BenchGroup.print_bench bench_assignements 5 5
       = Ok (BenchPrinter.print_schedule (bench_valuation plan_5_5_1 5) 5 5)
    /\ BenchGroup.print_bench_optimization bench_assignements 5 5
       = Ok (BenchPrinter.print_player_stat (bench_valuation plan_5_5_1 5) 5 5).
Proof.
  apply (validator_shows_planner_bench (bench_valuation plan_5_5_1 5) 5 5 1);
    [lia | lia |].
  intros round Hr. apply in_range in Hr.
  assert (H : round = 0 \/ round = 1 \/ round = 2 \/ round = 3 \/ round = 4) by lia.
  repeat destruct H as [H | H]; subst round; reflexivity.
Defined.

(** ** The groups file: written by teamAlloc.py, read by courtAlloc.py *)

Lemma py_str_injective (x y : Z) : py_str x = py_str y -> x = y.
Proof.
  unfold py_str. intros H.
  assert (Hnn : forall z, Z.to_int z <> Decimal.Pos Decimal.Nil
                          /\ Z.to_int z <> Decimal.Neg Decimal.Nil).
  { intros [|q|q]; simpl; split; try discriminate;
      intros E; injection E as E; exact (DecimalPos.Unsigned.to_uint_nonnil q E). }
  apply (f_equal DecimalString.NilZero.int_of_string) in H.
  rewrite !DecimalString.NilZero.isi in H by apply Hnn.
  injection H as H. apply DecimalZ.to_int_inj, H.
Qed.

Lemma dict_get_written {A} (f : Z -> A) (l : list Z) (g : Z) :
  In g l -> dict_get (map (fun c => (py_str c, f c)) l) (py_str g) = Ok (f g).
Proof.
  induction l as [|h t IH]; intros Hg; [contradiction|].
  cbn [map dict_get].
  destruct (String.eqb_spec (py_str h) (py_str g)) as [E|Hne].
  - apply py_str_injective in E. subst h. reflexivity.
  - destruct Hg as [-> | Hg]; [contradiction Hne; reflexivity | apply IH, Hg].
Qed.

Lemma group_matrix_of_ext (c1 c2 : Z -> Z -> Z -> bool)
  (num_players num_rounds num_courts : Z) :
  (forall r g p, In r (range num_rounds) -> In g (range num_courts) ->
                 In p (range num_players) -> c1 r g p = c2 r g p) ->
  group_matrix_of c1 num_players num_rounds num_courts
  = group_matrix_of c2 num_players num_rounds num_courts.
Proof.
  intros H. unfold group_matrix_of. apply map_ext_in. intros r Hr.
  apply map_ext_in. intros g Hg. apply map_ext_in. intros p Hp.
  rewrite (H r g p Hr Hg Hp). reflexivity.
Qed.

(** One assignment [group_assignements[round][group][player]=1]. *)
Lemma group_set_cell (cells : Z -> Z -> Z -> bool)
  (num_players num_rounds num_courts r g v : Z) :
  In r (range num_rounds) -> In g (range num_courts) ->
  In (v - 1) (range num_players) ->
  CourtReader.set_cell (group_matrix_of cells num_players num_rounds num_courts)
    r g (v - 1)
  = Ok (group_matrix_of (mark_group cells r g [v]) num_players num_rounds num_courts).
Proof.
  intros Hr Hg Hp. apply in_range in Hr. apply in_range in Hg. apply in_range in Hp.
  unfold CourtReader.set_cell, group_matrix_of.
  rewrite py_get_map_range by exact Hr. cbn [bind].
  rewrite py_get_map_range by exact Hg. cbn [bind].
  rewrite py_set_map_range by exact Hp. cbn [bind].
  rewrite py_set_map_range by exact Hg. cbn [bind].
  rewrite py_set_map_range by exact Hr. f_equal.
  apply map_ext. intros r'. unfold mark_group. cbn [existsb].
  destruct (Z.eqb_spec r' r) as [-> | Hner].
  - apply map_ext. intros g'. destruct (Z.eqb_spec g' g) as [-> | Hneg].
    + apply map_ext. intros p'. rewrite (Z.eqb_sym (v - 1) p').
      destruct (Z.eqb_spec p' (v - 1)) as [-> | Hnep]; simpl.
      * rewrite orb_true_r. reflexivity.
      * rewrite orb_false_r. reflexivity.
    + apply map_ext. intros p'. simpl. rewrite orb_false_r. reflexivity.
  - apply map_ext. intros g'. apply map_ext. intros p'. simpl.
    rewrite orb_false_r. reflexivity.
Qed.

(** The loop over the four members of a group. *)
Lemma read_group_members (cells : Z -> Z -> Z -> bool)
  (num_players num_rounds num_courts r g v0 v1 v2 v3 : Z) :
  In r (range num_rounds) -> In g (range num_courts) ->
  (forall v, In v [v0; v1; v2; v3] -> In (v - 1) (range num_players)) ->
  for_each (range 4) (CourtReader.read_member [v0; v1; v2; v3] r g)
    (group_matrix_of cells num_players num_rounds num_courts)
  = Ok (group_matrix_of (mark_group cells r g [v0; v1; v2; v3])
          num_players num_rounds num_courts).
Proof.
  intros Hr Hg Hvalid.
  change (range 4) with [0; 1; 2; 3]. cbn [for_each].
  unfold CourtReader.read_member.
  change (py_get [v0; v1; v2; v3] 0) with (Ok v0).
  change (py_get [v0; v1; v2; v3] 1) with (Ok v1).
  change (py_get [v0; v1; v2; v3] 2) with (Ok v2).
  change (py_get [v0; v1; v2; v3] 3) with (Ok v3).
  cbn [bind].
  rewrite group_set_cell by (auto; apply Hvalid; simpl; auto). cbn [bind].
  rewrite group_set_cell by (auto; apply Hvalid; simpl; auto). cbn [bind].
  rewrite group_set_cell by (auto; apply Hvalid; simpl; auto). cbn [bind].
  rewrite group_set_cell by (auto; apply Hvalid; simpl; auto 6). cbn [bind].
  f_equal. apply group_matrix_of_ext. intros r' g' p _ _ _.
  unfold mark_group. cbn [existsb].
  destruct (cells r' g' p), (r' =? r), (g' =? g),
           (v0 - 1 =? p), (v1 - 1 =? p), (v2 - 1 =? p), (v3 - 1 =? p); reflexivity.
Qed.

Lemma existsb_eqb_in (x : Z) (l : list Z) : In x l -> existsb (Z.eqb x) l = true.
Proof.
  intros H. apply existsb_exists. exists x. split; [exact H | apply Z.eqb_refl].
Qed.

(** The loop over the groups of a round, on the object written for it. *)
Lemma read_groups_of_round (a : valuation TeamAlloc.var)
  (num_players num_rounds num_courts r : Z) (gs : list Z) :
  In r (range num_rounds) ->
  (forall g, In g gs ->
     In g (range num_courts)
     /\ length (TeamWriter.members a num_players r g) = 4%nat
     /\ forall v, In v (TeamWriter.members a num_players r g) ->
                  In (v - 1) (range num_players)) ->
  forall cells,
    for_each gs
      (CourtReader.read_group
         (map (fun court => (py_str court, TeamWriter.members a num_players r court))
            (range num_courts)) r)
      (group_matrix_of cells num_players num_rounds num_courts)
    = Ok (group_matrix_of
            (fun r' g' p =>
               cells r' g' p
               || ((r' =? r) && existsb (Z.eqb g') gs
                   && existsb (fun v => v - 1 =? p)
                        (TeamWriter.members a num_players r g')))
            num_players num_rounds num_courts).
Proof.
  intros Hr. induction gs as [|g gs IH]; intros Hgs cells.
  - cbn [for_each]. f_equal. apply group_matrix_of_ext. intros r' g' p _ _ _.
    cbn [existsb]. rewrite andb_false_r, orb_false_r. reflexivity.
  - destruct (Hgs g (or_introl eq_refl)) as (Hg & Hlen & Hvalid).
    cbn [for_each]. unfold CourtReader.read_group at 1.
    rewrite (dict_get_written (TeamWriter.members a num_players r)) by exact Hg.
    cbn [bind].
    destruct (TeamWriter.members a num_players r g)
      as [|v0 [|v1 [|v2 [|v3 [|v4 rest]]]]] eqn:Em; try discriminate.
    rewrite read_group_members by assumption. cbn [bind].
    rewrite IH by (intros g' Hg'; apply Hgs; right; exact Hg').
    f_equal. apply group_matrix_of_ext. intros r' g' p _ _ _.
    unfold mark_group. cbn [existsb].
    destruct (Z.eqb_spec g' g) as [-> | Hne].
    + rewrite Em. cbn [existsb].
      destruct (cells r' g p), (r' =? r), (existsb (Z.eqb g) gs),
               (v0 - 1 =? p), (v1 - 1 =? p), (v2 - 1 =? p), (v3 - 1 =? p);
        reflexivity.
    + rewrite andb_false_r. cbn [orb andb]. rewrite orb_false_r. reflexivity.
Qed.

(** The loop over the rounds, on the written groups. *)
Lemma read_groups_of_rounds (a : valuation TeamAlloc.var)
  (num_players num_rounds num_courts : Z) (rs : list Z) :
  (forall r g, In r rs -> In g (range num_courts) ->
     In r (range num_rounds)
     /\ length (TeamWriter.members a num_players r g) = 4%nat
     /\ forall v, In v (TeamWriter.members a num_players r g) ->
                  In (v - 1) (range num_players)) ->
  (forall r, In r rs -> In r (range num_rounds)) ->
  forall cells,
    for_each rs
      (CourtReader.read_round num_courts
         (TeamWriter.write_bench a num_players num_rounds num_courts))
      (group_matrix_of cells num_players num_rounds num_courts)
    = Ok (group_matrix_of
            (fun r' g' p =>
               cells r' g' p
               || (existsb (Z.eqb r') rs && existsb (Z.eqb g') (range num_courts)
                   && existsb (fun v => v - 1 =? p)
                        (TeamWriter.members a num_players r' g')))
            num_players num_rounds num_courts).
Proof.
  induction rs as [|r rs IH]; intros Hvalid Hrs cells.
  - cbn [for_each]. f_equal. apply group_matrix_of_ext. intros r' g' p _ _ _.
    cbn [existsb andb]. rewrite orb_false_r. reflexivity.
  - pose proof (Hrs r (or_introl eq_refl)) as Hr.
    cbn [for_each]. unfold CourtReader.read_round at 1, TeamWriter.write_bench at 1.
    rewrite py_get_map_range by (apply in_range; exact Hr). cbn [bind].
    rewrite read_groups_of_round;
      [|exact Hr
       |intros g Hg; split; [exact Hg|];
        destruct (Hvalid r g (or_introl eq_refl) Hg) as (_ & H1 & H2);
        split; assumption].
    cbn [bind].
    rewrite IH;
      [|intros r' g Hr' Hg; apply Hvalid; [right; exact Hr' | exact Hg]
       |intros r' Hr'; apply Hrs; right; exact Hr'].
    f_equal. apply group_matrix_of_ext. intros r' g' p _ _ _.
    cbn [existsb].
    destruct (Z.eqb_spec r' r) as [-> | Hne].
    + cbn [orb andb].
      destruct (cells r g' p), (existsb (Z.eqb g') (range num_courts)),
               (existsb (Z.eqb r) rs),
               (existsb (fun v => v - 1 =? p) (TeamWriter.members a num_players r g'));
        reflexivity.
    + cbn [orb andb]. rewrite orb_false_r. reflexivity.
Qed.

(** Reading back the groups written from a solution. *)
Lemma read_written_groups
  (num_players num_rounds num_courts : Z) (bench_list : list Z)
  (m : CpModel TeamAlloc.var) (a : valuation TeamAlloc.var) :
  TeamAlloc.main num_players num_rounds num_courts bench_list = Ok m ->
  solution m a = true ->
  CourtReader.read_groups num_players num_rounds num_courts
    (TeamWriter.write_bench a num_players num_rounds num_courts)
  = Ok (group_matrix_of (fun r g p => a (TeamAlloc.games p r g))
          num_players num_rounds num_courts).
Proof.
  intros Hmain Hsol. unfold CourtReader.read_groups.
  change (map (fun _ : Z => map (fun _ : Z => map (fun _ : Z => 0) (range num_players))
                              (range num_courts)) (range num_rounds))
    with (group_matrix_of (fun _ _ _ => false) num_players num_rounds num_courts).
  rewrite read_groups_of_rounds.
  - f_equal. apply group_matrix_of_ext. intros r g p Hr Hg Hp.
    rewrite (existsb_eqb_in r) by exact Hr.
    rewrite (existsb_eqb_in g) by exact Hg. cbn [orb andb].
    destruct (team_members_spec _ _ _ _ m a Hmain Hsol r g Hr Hg)
      as (_ & _ & Hmem).
    destruct (a (TeamAlloc.games p r g)) eqn:E.
    + apply existsb_exists. exists (p + 1). split.
      * apply Hmem. rewrite Z.add_simpl_r. split; assumption.
      * apply Z.eqb_eq. lia.
    + destruct (existsb _ _) eqn:Ex; [|reflexivity].
      apply existsb_exists in Ex. destruct Ex as (v & Hv & Hvp).
      apply Z.eqb_eq in Hvp. apply Hmem in Hv. destruct Hv as [_ Hgv].
      rewrite Hvp in Hgv. congruence.
  - intros r g Hr Hg. split; [exact Hr|].
    destruct (team_members_spec _ _ _ _ m a Hmain Hsol r g Hr Hg)
      as (Hlen & _ & Hmem).
    split; [exact Hlen|]. intros v Hv. apply Hmem in Hv. tauto.
  - auto.
Qed.

(** The groups file written by teamAlloc.py from a solution of its model
    is read by courtAlloc.py without error, and the matrix
    [group_assignements] it fills has a 1 exactly where the player is on
    the court of the group in that round. *)
Theorem groups_file_round_trip
  (num_players num_rounds num_courts : Z) (bench_list : list Z)
  (m : CpModel TeamAlloc.var) (a : valuation TeamAlloc.var) :
  TeamAlloc.main num_players num_rounds num_courts bench_list = Ok m ->
  solution m a = true ->
  CourtReader.read_groups num_players num_rounds num_courts
    (TeamWriter.write_bench a num_players num_rounds num_courts)
  = Ok (group_matrix_of (fun r g p => a (TeamAlloc.games p r g))
          num_players num_rounds num_courts).
Proof.
  intros Hmain Hsol.
  exact (read_written_groups _ _ _ _ m a Hmain Hsol).
Qed.

Lemma groups_file_round_trip_witness :
  CourtReader.read_groups 5 5 1 (TeamWriter.write_bench schedule_5_5_1 5 5 1)
  = Ok (group_matrix_of (fun r g p => schedule_5_5_1 (TeamAlloc.games p r g)) 5 5 1).
Proof.
  eapply (groups_file_round_trip 5 5 1 [1; 2; 3; 4; 5]);
    [vm_compute; reflexivity | vm_compute; reflexivity].
Defined.

(** ** courtAlloc.py: the first solution is always emitted *)

Lemma map_result_nth {A B} (f : A -> result B) (l : list A) (ys : list B)
  (d : A) (d' : B) :
  CourtAlloc.map_result f l = Ok ys ->
  length ys = length l
  /\ forall k, (k < length l)%nat -> f (nth k l d) = Ok (nth k ys d').
Proof.
  revert ys. induction l as [|h t IH]; intros ys H; cbn [CourtAlloc.map_result] in H.
  - injection H as <-. split; [reflexivity|]. intros k Hk. simpl in Hk. lia.
  - destruct (f h) as [e|b] eqn:Eh; [discriminate|]. cbn [bind] in H.
    destruct (CourtAlloc.map_result f t) as [e|bs] eqn:Et; [discriminate|].
    cbn [bind] in H. injection H as <-.
    destruct (IH bs eq_refl) as [Hlen Hnth].
    split; [simpl; rewrite Hlen; reflexivity|].
    intros [|k] Hk; [exact Eh|]. simpl in Hk. apply Hnth. lia.
Qed.

Lemma nth_range (n i : Z) : 0 <= i < n -> nth (Z.to_nat i) (range n) 0 = i.
Proof.
  intros H. pose proof (nth_error_map_range (fun x => x) n i H) as E.
  rewrite map_id in E. apply nth_error_nth with (d := 0) in E. exact E.
Qed.

Lemma map_result_range {B} (f : Z -> result B) (n : Z) (ys : list B) (d' : B) :
  CourtAlloc.map_result f (range n) = Ok ys ->
  length ys = length (range n)
  /\ forall i, 0 <= i < n -> f i = Ok (nth (Z.to_nat i) ys d').
Proof.
  intros H. destruct (map_result_nth f (range n) ys 0 d' H) as [Hlen Hnth].
  split; [exact Hlen|]. intros i Hi.
  specialize (Hnth (Z.to_nat i)). rewrite nth_range in Hnth by exact Hi.
  apply Hnth. rewrite length_range_nat. lia.
Qed.

Lemma fold_max_bounds (l : list Z) (lo hi : Z) :
  forall x, lo <= x <= hi -> (forall y, In y l -> lo <= y <= hi) ->
            lo <= fold_left Z.max l x <= hi.
Proof.
  induction l as [|h t IH]; intros x Hx Hl; [exact Hx|].
  cbn [fold_left]. apply IH.
  - pose proof (Hl h (or_introl eq_refl)). lia.
  - intros y Hy. apply Hl. right. exact Hy.
Qed.

Lemma fold_min_bounds (l : list Z) (lo hi : Z) :
  forall x, lo <= x <= hi -> (forall y, In y l -> lo <= y <= hi) ->
            lo <= fold_left Z.min l x <= hi.
Proof.
  induction l as [|h t IH]; intros x Hx Hl; [exact Hx|].
  cbn [fold_left]. apply IH.
  - pose proof (Hl h (or_introl eq_refl)). lia.
  - intros y Hy. apply Hl. right. exact Hy.
Qed.

Lemma py_max_bounds (l : list Z) (lo hi m : Z) :
  py_max l = Ok m -> (forall y, In y l -> lo <= y <= hi) -> lo <= m <= hi.
Proof.
  destruct l as [|h t]; [discriminate|]. intros H Hl. injection H as <-.
  apply fold_max_bounds; [apply Hl; left; reflexivity|].
  intros y Hy. apply Hl. right. exact Hy.
Qed.

Lemma py_min_bounds (l : list Z) (lo hi m : Z) :
  py_min l = Ok m -> (forall y, In y l -> lo <= y <= hi) -> lo <= m <= hi.
Proof.
  destruct l as [|h t]; [discriminate|]. intros H Hl. injection H as <-.
  apply fold_min_bounds; [apply Hl; left; reflexivity|].
  intros y Hy. apply Hl. right. exact Hy.
Qed.

(** A player is counted on a court at most once for each (group, round)
    that the valuation puts on the court. *)
Lemma courtCount_rounds_bound (a : valuation CourtAlloc.var)
  (group_assignements : list (list (list Z))) (court group player : Z)
  (rs : list Z) :
  forall c c',
    for_each rs (fun round courtCount =>
      if a (CourtAlloc.games round court group) then
        x <- CourtAlloc.group_cell group_assignements round group player ;;
        Ok (if x =? 0 then courtCount else courtCount + 1)
      else Ok courtCount) c = Ok c' ->
    c <= c' <= c + sum (map (fun round => Value a (CourtAlloc.games round court group)) rs).
Proof.
  induction rs as [|r rs IH]; intros c c' H; cbn [for_each] in H.
  - injection H as <-. simpl. lia.
  - cbn [map sum fold_right].
    fold (sum (map (fun round => Value a (CourtAlloc.games round court group)) rs)).
    set (rest := sum (map (fun round => Value a (CourtAlloc.games round court group)) rs))
      in *.
    change (Value a (CourtAlloc.games r court group))
      with (Z.b2z (a (CourtAlloc.games r court group))).
    destruct (a (CourtAlloc.games r court group)); cbn [Z.b2z].
    + destruct (CourtAlloc.group_cell _ _ _ _) as [e|x]; [discriminate|].
      cbn [bind] in H. destruct (x =? 0); apply IH in H; fold rest in H; lia.
    + apply IH in H. fold rest in H. lia.
Qed.

Lemma courtCount_bound (a : valuation CourtAlloc.var)
  (group_assignements : list (list (list Z)))
  (num_rounds court player : Z) (gs : list Z) :
  forall c c',
    for_each gs (fun group =>
      for_each (range num_rounds) (fun round courtCount =>
        if a (CourtAlloc.games round court group) then
          x <- CourtAlloc.group_cell group_assignements round group player ;;
          Ok (if x =? 0 then courtCount else courtCount + 1)
        else Ok courtCount)) c = Ok c' ->
    c <= c' <= c + sum (map (fun group =>
                     sum (map (fun round => Value a (CourtAlloc.games round court group))
                            (range num_rounds))) gs).
Proof.
  induction gs as [|g gs IH]; intros c c' H; cbn [for_each] in H.
  - injection H as <-. simpl. lia.
  - destruct (for_each (range num_rounds) _ c) as [e|c1] eqn:E1; [discriminate|].
    cbn [bind] in H. apply courtCount_rounds_bound in E1. apply IH in H.
    cbn [map sum fold_right].
    set (rest := fold_right Z.add 0 _). change (sum (map _ gs)) with rest in H.
    lia.
Qed.

Lemma courtCount_le_rounds
  (num_players num_rounds num_courts : Z)
  (group_assignements : list (list (list Z)))
  (m : CpModel CourtAlloc.var) (a : valuation CourtAlloc.var)
  (court player n : Z) :
  CourtAlloc.model num_players num_rounds num_courts group_assignements = Ok m ->
  solution m a = true ->
  0 <= num_rounds -> In court (range num_courts) ->
  CourtAlloc.courtCount a group_assignements num_rounds num_courts court player = Ok n ->
  0 <= n <= num_rounds.
Proof.
  intros Hmodel Hsol Hnr Hcourt H. unfold CourtAlloc.courtCount in H.
  apply courtCount_bound in H.
  destruct (court_model_inv _ _ _ _ _ Hmodel) as (pins & Hc).
  rewrite (sum_swap (fun group round => Value a (CourtAlloc.games round court group)))
    in H.
  rewrite (sum_map_ext _ (fun _ => 1) (range num_rounds)) in H.
  - rewrite sum_of_ones_scaled, length_range in H by exact Hnr. lia.
  - intros round Hr.
    assert (Hh : holds a (Add (LSum (map (fun group => CourtAlloc.games round court group)
                                       (range num_courts)))
                            REq (LConst 1) None) = true).
    { apply (solution_holds m a _ Hsol). rewrite Hc. apply in_or_app. right.
      apply in_or_app. left.
      unfold CourtAlloc.constraint2. apply in_flat_map.
      exists round. split; [exact Hr|]. apply in_map_iff.
      exists court. split; [reflexivity | exact Hcourt]. }
    simpl in Hh. apply Z.eqb_eq in Hh. rewrite map_map in Hh. exact Hh.
Qed.

(** On a solution of the court model no player's spread exceeds the
    number of rounds, the initial [_bestCourtDiffMax]; so the first call
    of the callback emits the solution it is given, whenever it
    returns. *)
Theorem court_first_solution_emitted
  (num_players num_rounds num_courts limit : Z)
  (group_assignements : list (list (list Z)))
  (m : CpModel CourtAlloc.var) (a : valuation CourtAlloc.var)
  (s' : CourtAlloc.printer) (printit stop : bool) :
  CourtAlloc.model num_players num_rounds num_courts group_assignements = Ok m ->
  solution m a = true ->
  0 <= num_rounds ->
  CourtAlloc.on_solution_callback (CourtAlloc.init num_players num_rounds limit)
    a group_assignements num_players num_rounds num_courts
  = Ok (s', printit, stop) ->
  printit = true.
Proof.
  intros Hmodel Hsol Hnr H.
  unfold CourtAlloc.on_solution_callback, CourtAlloc.print_schedule in H.
  destruct (CourtAlloc.playersCourtCount _ _ _ _ _) as [e|counts] eqn:Ec;
    [discriminate|]. cbn [bind] in H.
  destruct (CourtAlloc.playersCourtDiffMax _ _ _) as [e|diffs] eqn:Ed;
    [discriminate|]. cbn [bind] in H.
  match type of H with
  | context [CourtAlloc.accept ?s1 diffs] =>
      destruct (CourtAlloc.accept s1 diffs) as [e|[s2 p]] eqn:Ea; [discriminate|]
  end.
  cbn [bind] in H. injection H as _ <- _.
  apply court_accept_spec in Ea. destruct Ea as (mx & Hmx & Hiff).
  cbn [CourtAlloc._bestCourtDiffMax CourtAlloc._numPlayersWith_best
       CourtAlloc.init] in Hiff.
  apply Hiff.
  (* every spread is between 0 and the number of rounds *)
  unfold CourtAlloc.playersCourtCount in Ec.
  destruct (map_result_range _ _ _ [] Ec) as [_ Hrows].
  unfold CourtAlloc.playersCourtDiffMax in Ed.
  destruct (map_result_range _ _ _ 0 Ed) as [Hlen Hdiffs].
  assert (Hall : forall d, In d diffs -> - num_rounds <= d <= num_rounds).
  { intros d Hd. apply (In_nth _ _ 0) in Hd. destruct Hd as (k & Hk & <-).
    rewrite Hlen, length_range_nat in Hk.
    specialize (Hdiffs (Z.of_nat k) ltac:(lia)).
    set (per_court := map (fun court =>
                        nth (Z.to_nat (Z.of_nat k))
                          (nth (Z.to_nat court) counts []) 0) (range num_courts))
      in Hdiffs.
    destruct (py_max per_court) as [e|maxCount] eqn:Emax;
      [cbn [bind] in Hdiffs; discriminate|].
    cbn [bind] in Hdiffs.
    destruct (py_min per_court) as [e|minCount] eqn:Emin;
      [cbn [bind] in Hdiffs; discriminate|].
    cbn [bind] in Hdiffs. injection Hdiffs as Hd. rewrite Nat2Z.id in Hd.
    rewrite <- Hd.
    assert (Hper : forall y, In y per_court -> 0 <= y <= num_rounds).
    { intros y Hy. subst per_court. apply in_map_iff in Hy.
      destruct Hy as (court & <- & Hcourt).
      pose proof (Hrows court (proj1 (in_range _ _) Hcourt)) as Hrow.
      destruct (map_result_range _ _ _ 0 Hrow) as [_ Hcell].
      apply (courtCount_le_rounds num_players num_rounds num_courts
               group_assignements m a court (Z.of_nat k) _ Hmodel Hsol Hnr Hcourt).
      apply Hcell. lia. }
    pose proof (py_max_bounds _ _ _ _ Emax Hper).
    pose proof (py_min_bounds _ _ _ _ Emin Hper). lia. }
  pose proof (py_max_bounds _ _ _ _ Hmx Hall) as Hm.
  destruct (Z.eq_dec mx num_rounds) as [E|Hne]; [right | left; lia].
  split; [exact E|]. unfold CourtAlloc.count.
  pose proof (count_occ_bound Z.eq_dec mx diffs) as Hb.
  rewrite Hlen, length_range_nat in Hb.
  destruct diffs as [|d0 ds]; [discriminate|].
  simpl in Hlen. rewrite length_range_nat in Hlen. lia.
Qed.

Lemma court_first_solution_emitted_witness :
  exists s' stop,
    CourtAlloc.on_solution_callback (CourtAlloc.init 8 1 500000)
      swapped_8_1_2 groups_8_1_2 8 1 2 = Ok (s', true, stop).
Proof.
  destruct (CourtAlloc.on_solution_callback (CourtAlloc.init 8 1 500000)
              swapped_8_1_2 groups_8_1_2 8 1 2) as [e|[[s' p] stop]] eqn:E;
    [vm_compute in E; discriminate|].
  exists s', stop.
  rewrite (court_first_solution_emitted 8 1 2 500000 groups_8_1_2
             (match CourtAlloc.model 8 1 2 groups_8_1_2 with
              | Ok m => m
              | Raise _ => {| constraints := []; objective := None |}
              end)
             swapped_8_1_2 s' p stop);
    [reflexivity | vm_compute; reflexivity | vm_compute; reflexivity | lia | exact E].
Defined.

(** ** courtAlloc.py: the model always has a solution *)

Lemma map_result_ok {A B} (f : A -> result B) (g : A -> B) (l : list A) :
  (forall x, In x l -> f x = Ok (g x)) ->
  CourtAlloc.map_result f l = Ok (map g l).
Proof.
  induction l as [|h t IH]; intros H; [reflexivity|].
  cbn [CourtAlloc.map_result map]. rewrite (H h) by (left; reflexivity).
  cbn [bind]. rewrite IH by (intros x Hx; apply H; right; exact Hx).
  reflexivity.
Qed.

Lemma group_cell_of_matrix (cells : Z -> Z -> Z -> bool)
  (num_players num_rounds num_courts r g p : Z) :
  In r (range num_rounds) -> In g (range num_courts) -> In p (range num_players) ->
  CourtAlloc.group_cell (group_matrix_of cells num_players num_rounds num_courts) r g p
  = Ok (Z.b2z (cells r g p)).
Proof.
  intros Hr Hg Hp. apply in_range in Hr. apply in_range in Hg. apply in_range in Hp.
  unfold CourtAlloc.group_cell, group_matrix_of.
  rewrite py_get_map_range by exact Hr. cbn [bind].
  rewrite py_get_map_range by exact Hg. cbn [bind].
  rewrite py_get_map_range by exact Hp. reflexivity.
Qed.

Lemma sum_indicator (f : Z -> bool) (l : list Z) (x : Z) :
  NoDup l -> In x l ->
  (forall y, In y l -> f y = (y =? x)) ->
  sum (map (fun y => Z.b2z (f y)) l) = 1.
Proof.
  intros Hnd. induction Hnd as [|h t Hnot Hnd IH]; intros Hx Hf; [contradiction|].
  cbn [map sum fold_right]. fold (sum (map (fun y => Z.b2z (f y)) t)).
  rewrite (Hf h) by (left; reflexivity).
  destruct Hx as [-> | Hx].
  - rewrite Z.eqb_refl.
    rewrite (sum_map_ext _ (fun _ => 0) t), sum_of_ones_scaled; [simpl; lia|].
    intros y Hy. rewrite (Hf y) by (right; exact Hy).
    destruct (Z.eqb_spec y x); [subst; contradiction | reflexivity].
  - destruct (Z.eqb_spec h x); [subst; contradiction|].
    rewrite IH; [reflexivity | exact Hx |].
    intros y Hy. apply Hf. right. exact Hy.
Qed.

(** On the 0/1 matrix of any set of groups the model of courtAlloc.py
    is built without error and has a solution: each group on the court of
    its own index. *)
Theorem court_model_feasible (cells : Z -> Z -> Z -> bool)
  (num_players num_rounds num_courts : Z) :
  let group_assignements :=
    group_matrix_of cells num_players num_rounds num_courts in
  exists m,
    CourtAlloc.model num_players num_rounds num_courts group_assignements = Ok m
    /\ solution m (court_valuation (fun r c g => c =? g) group_assignements) = true.
Proof.
  cbv zeta. set (ga := group_matrix_of cells num_players num_rounds num_courts).
  set (triples := flat_map (fun round =>
                    flat_map (fun group =>
                      map (fun player => (round, group, player)) (range num_players))
                      (range num_courts))
                    (range num_rounds)).
  assert (Htriples : forall r g p, In (r, g, p) triples ->
            In r (range num_rounds) /\ In g (range num_courts)
            /\ In p (range num_players)).
  { intros r g p H. subst triples. apply in_flat_map in H.
    destruct H as (r' & Hr & H). apply in_flat_map in H.
    destruct H as (g' & Hg & H). apply in_map_iff in H.
    destruct H as (p' & E & Hp). injection E as <- <- <-. auto. }
  assert (Hpins : CourtAlloc.group_pins num_players num_rounds num_courts ga
            = Ok (map (fun rgp : Z * Z * Z =>
                    let '(round, group, player) := rgp in
                    Add (LSum [CourtAlloc.groupVar round group player]) REq
                        (LConst (Z.b2z (cells round group player))) None)
                    triples)).
  { unfold CourtAlloc.group_pins. fold triples. apply map_result_ok.
    intros [[r g] p] H. destruct (Htriples r g p H) as (Hr & Hg & Hp).
    subst ga. rewrite group_cell_of_matrix by assumption. reflexivity. }
  unfold CourtAlloc.model. rewrite Hpins. cbn [bind].
  eexists. split; [reflexivity|].
  unfold solution. cbn [constraints]. apply forallb_forall. intros c Hc.
  apply in_app_or in Hc. destruct Hc as [Hc | Hc];
    [|apply in_app_or in Hc; destruct Hc as [Hc | Hc]].
  - unfold CourtAlloc.constraint1 in Hc. apply in_flat_map in Hc.
    destruct Hc as (round & Hr & Hc). apply in_map_iff in Hc.
    destruct Hc as (group & <- & Hg). cbn [holds eval test].
    apply Z.eqb_eq. rewrite map_map.
    apply (sum_indicator (fun court => court =? group) (range num_courts) group
             (NoDup_range _) Hg). reflexivity.
  - unfold CourtAlloc.constraint2 in Hc. apply in_flat_map in Hc.
    destruct Hc as (round & Hr & Hc). apply in_map_iff in Hc.
    destruct Hc as (court & <- & Hcourt). cbn [holds eval test].
    apply Z.eqb_eq. rewrite map_map.
    apply (sum_indicator (fun group => court =? group) (range num_courts) court
             (NoDup_range _) Hcourt).
    intros y _. apply Z.eqb_sym.
  - apply in_map_iff in Hc. destruct Hc as ([[r g] p] & <- & H).
    destruct (Htriples r g p H) as (Hr & Hg & Hp).
    cbn [holds eval test map sum fold_right]. apply Z.eqb_eq.
    unfold Value, court_valuation. subst ga.
    rewrite group_cell_of_matrix by assumption.
    destruct (cells r g p); reflexivity.
Qed.

(** ** teamAlloc.py: the first call of the callback *)

Lemma sum_map_nonneg {A} (F : A -> Z) (l : list A) :
  (forall x, 0 <= F x) -> 0 <= sum (map F l).
Proof.
  intros H. induction l as [|h t IH]; [simpl; lia|].
  cbn [map sum fold_right]. fold (sum (map F t)). pose proof (H h). lia.
Qed.

Lemma sum_map_le {A} (F G : A -> Z) (l : list A) :
  (forall x, In x l -> F x <= G x) -> sum (map F l) <= sum (map G l).
Proof.
  induction l as [|h t IH]; intros H; [simpl; lia|].
  cbn [map sum fold_right]. fold (sum (map F t)). fold (sum (map G t)).
  pose proof (H h (or_introl eq_refl)).
  assert (sum (map F t) <= sum (map G t))
    by (apply IH; intros x Hx; apply H; right; exact Hx).
  lia.
Qed.

(** In a solution two players are on a common court between once and
    [num_rounds] times. *)
Lemma paircount_bounds
  (num_players num_rounds num_courts : Z) (bench_list : list Z)
  (m : CpModel TeamAlloc.var) (a : valuation TeamAlloc.var) :
  TeamAlloc.main num_players num_rounds num_courts bench_list = Ok m ->
  solution m a = true ->
  forall p1 p2, 0 <= p1 < p2 -> p2 < num_players ->
    1 <= TeamAlloc.paircount a num_rounds num_courts p1 p2 <= num_rounds.
Proof.
  intros Hmain Hsol p1 p2 H1 H2.
  destruct (pair_meets _ _ _ _ m a Hmain Hsol p1 p2 H1 H2)
    as (r0 & c0 & Hr0 & Hc0 & Hsame).
  unfold same_court in Hsame. apply andb_true_iff in Hsame.
  destruct Hsame as [G1 G2].
  unfold TeamAlloc.paircount. rewrite sum_flat_map.
  set (ind := fun round court =>
         if Value a (TeamAlloc.games p1 round court)
            + Value a (TeamAlloc.games p2 round court) =? 2 then 1 else 0).
  change (1 <= sum (map (fun round => sum (map (fun court => ind round court)
                                             (range num_courts)))
                      (range num_rounds)) <= num_rounds).
  assert (Hind : forall r c, 0 <= ind r c <= Value a (TeamAlloc.games p1 r c)).
  { intros r c. unfold ind, Value.
    destruct (a (TeamAlloc.games p1 r c)), (a (TeamAlloc.games p2 r c)); simpl; lia. }
  assert (Hrow0 : forall r, 0 <= sum (map (fun court => ind r court) (range num_courts))).
  { intros r. apply sum_map_nonneg. intros c. apply Hind. }
  split.
  - (* the round and court where they meet count for one *)
    assert (E : ind r0 c0 = 1).
    { unfold ind, Value. rewrite G1, G2. reflexivity. }
    pose proof (le_sum_of_member (fun court => ind r0 court) (range num_courts) c0
                  (fun c => proj1 (Hind r0 c)) Hc0) as Hc.
    pose proof (le_sum_of_member
                  (fun round => sum (map (fun court => ind round court)
                                       (range num_courts)))
                  (range num_rounds) r0 Hrow0 Hr0) as Hr.
    cbv beta in Hc, Hr. lia.
  - (* in a round a player is on one court only *)
    assert (Hnc : 0 <= num_courts) by (apply in_range in Hc0; lia).
    assert (Hnr : 0 <= num_rounds) by (apply in_range in Hr0; lia).
    assert (Hp1 : In p1 (range num_players)) by (apply in_range; lia).
    destruct (team_main_inv _ _ _ _ _ Hmain) as (c4 & _ & Hc).
    assert (Hrow1 : forall r, In r (range num_rounds) ->
              sum (map (fun court => ind r court) (range num_courts)) <= 1).
    { intros r Hr.
      assert (Hh : holds a (AddExactlyOne
                   (map (fun court => TeamAlloc.games p1 r court)
                      (range (num_courts + 1)))) = true).
      { apply (solution_holds m a _ Hsol). rewrite Hc.
        do 2 (apply in_or_app; right). apply in_or_app. left.
        unfold TeamAlloc.constraint3. apply in_flat_map.
        exists p1. split; [exact Hp1|]. apply in_map_iff.
        exists r. split; [reflexivity | exact Hr]. }
      simpl in Hh. apply Z.eqb_eq in Hh.
      rewrite map_map, range_succ, map_app, sum_app in Hh by exact Hnc.
      simpl in Hh. pose proof (Value_range a (TeamAlloc.games p1 r num_courts)).
      assert (sum (map (fun court => ind r court) (range num_courts))
              <= sum (map (fun x => Value a (TeamAlloc.games p1 r x)) (range num_courts)))
        by (apply sum_map_le; intros c _; apply Hind).
      unfold sum in *. lia. }
    assert (Hle : sum (map (fun round => sum (map (fun court => ind round court)
                                              (range num_courts)))
                       (range num_rounds))
                  <= sum (map (fun _ : Z => 1) (range num_rounds))).
    { apply sum_map_le. exact Hrow1. }
    rewrite sum_of_ones_scaled, length_range in Hle by exact Hnr. lia.
Qed.

(** On a solution of the team model the spread [maxCount - minCount] is
    below [num_rounds], the initial [_best]: the first call of the
    callback always stores the spread it finds, and it emits the solution
    exactly when [sameplayers] is at most [num_players*(num_players+1)/2]. *)
Theorem team_first_callback
  (num_players num_rounds num_courts limit : Z) (bench_list : list Z)
  (m : CpModel TeamAlloc.var) (a : valuation TeamAlloc.var)
  (s' : TeamAlloc.printer) (printit stop : bool) :
  TeamAlloc.main num_players num_rounds num_courts bench_list = Ok m ->
  solution m a = true ->
  TeamAlloc.on_solution_callback (TeamAlloc.init num_players num_rounds limit)
    a num_players num_rounds num_courts = Ok (s', printit, stop) ->
  0 <= TeamAlloc._best s' < num_rounds
  /\ (printit = true <->
      TeamAlloc.sameplayers a num_players num_rounds num_courts
      <= num_players * (num_players + 1) / 2).
Proof.
  intros Hmain Hsol H.
  unfold TeamAlloc.on_solution_callback, TeamAlloc.print_schedule in H.
  destruct (py_max _) as [e|maxCount] eqn:Emax; [discriminate|]. cbn [bind] in H.
  destruct (py_min _) as [e|minCount] eqn:Emin; [discriminate|]. cbn [bind] in H.
  assert (Hall : forall y,
            In y (TeamAlloc.paircounts a num_players num_rounds num_courts) ->
            1 <= y <= num_rounds).
  { intros y Hy. unfold TeamAlloc.paircounts in Hy. apply in_flat_map in Hy.
    destruct Hy as (p1 & Hp1 & Hy). apply in_map_iff in Hy.
    destruct Hy as (p2 & <- & Hp2).
    apply in_range in Hp1. apply in_range2 in Hp2.
    apply (paircount_bounds _ _ _ _ m a Hmain Hsol); lia. }
  pose proof (py_max_bounds _ _ _ _ Emax Hall) as HM.
  pose proof (py_min_bounds _ _ _ _ Emin Hall) as Hm.
  assert (Hmm : minCount <= maxCount).
  { destruct (TeamAlloc.paircounts a num_players num_rounds num_courts) as [|h t];
      [discriminate|].
    injection Emax as <-. injection Emin as <-.
    assert (Hmin : forall l x, fold_left Z.min l x <= x).
    { induction l as [|y l IH]; intros x; simpl; [lia|].
      specialize (IH (Z.min x y)). lia. }
    assert (Hmax : forall l x, x <= fold_left Z.max l x).
    { induction l as [|y l IH]; intros x; simpl; [lia|].
      specialize (IH (Z.max x y)). lia. }
    specialize (Hmin t h). specialize (Hmax t h). lia. }
  match type of H with
  | context [TeamAlloc.accept ?s1 ?x ?y ?z] =>
      pose proof (team_accept_spec s1 x y z) as Hspec;
      destruct (TeamAlloc.accept s1 x y z) as [s2 p]
  end.
  cbn [bind] in H. injection H as <- <- _.
  cbn [fst snd TeamAlloc._best TeamAlloc._better TeamAlloc.init] in Hspec.
  destruct Hspec as (_ & Hin & _).
  destruct (Hin ltac:(lia)) as [Hbest Hiff].
  split; [lia | exact Hiff].
Qed.

Lemma team_first_callback_witness :
  exists s' stop,
    TeamAlloc.on_solution_callback (TeamAlloc.init 4 2 50000)
      schedule_4_2_1 4 2 1 = Ok (s', false, stop)
    /\ 0 <= TeamAlloc._best s' < 2
    /\ (false = true <-> TeamAlloc.sameplayers schedule_4_2_1 4 2 1 <= 4 * (4 + 1) / 2).
Proof.
  destruct (TeamAlloc.on_solution_callback (TeamAlloc.init 4 2 50000)
              schedule_4_2_1 4 2 1) as [e|[[s' p] stop]] eqn:E;
    [vm_compute in E; discriminate|].
  assert (Hp : p = false) by (vm_compute in E; injection E as _ <- _; reflexivity).
  subst p. exists s', stop. split; [reflexivity|].
  apply (team_first_callback 4 2 1 50000 []
           (match TeamAlloc.main 4 2 1 [] with
            | Ok m => m
            | Raise _ => {| constraints := []; objective := None |}
            end)
           schedule_4_2_1 s' false stop);
    [vm_compute; reflexivity | vm_compute; reflexivity | exact E].
Defined.

(** ** courtAlloc.py: the rows of the bench matrix *)








Lemma bench_bounds_raise (num_rounds num_bench : Z) (k : Z -> result unit) :
  (min_bench <- floor_div (num_rounds * num_bench) 0 ;; k min_bench)
  = Raise ZeroDivisionError.
Proof. reflexivity. Qed.



(** ** validate_sat.py: the groups seen by the validator *)

Lemma for_each_sim {A S} (l : list A) (f g : A -> S -> result S) :
  (forall x s s', In x l -> f x s = Ok s' -> g x s = Ok s') ->
  forall s s', for_each l f s = Ok s' -> for_each l g s = Ok s'.
Proof.
  induction l as [|h t IH]; intros Hsim s s' H; cbn [for_each] in *; [exact H|].
  destruct (f h s) as [e|s1] eqn:E; [discriminate|]. cbn [bind] in H.
  rewrite (Hsim h s s1 (or_introl eq_refl) E). cbn [bind].
  apply IH; [|exact H]. intros x u u' Hx. apply Hsim. right. exact Hx.
Qed.

Lemma validator_member (groupMembers : list Z) (round court i : Z)
  (ga ga' : list (list (list Z))) :
  CourtReader.read_member groupMembers round court i ga = Ok ga' ->
  GroupTeams.set_member ga round court groupMembers i = Ok ga'.
Proof.
  unfold CourtReader.read_member, CourtReader.set_cell, GroupTeams.set_member.
  intros H.
  destruct (py_get groupMembers i) as [e|v]; [discriminate|]. cbn [bind] in *.
  destruct (py_get ga round) as [e|by_round]; [discriminate|]. cbn [bind] in *.
  destruct (py_get by_round court) as [e|by_court]; [discriminate|].
  cbn [bind] in *. exact H.
Qed.

Lemma validator_court (group_ass : json_object (list Z)) (round court : Z)
  (ga ga' : list (list (list Z))) :
  CourtReader.read_group group_ass round court ga = Ok ga' ->
  GroupTeams.read_court group_ass round court ga = Ok ga'.
Proof.
  unfold CourtReader.read_group, GroupTeams.read_court. intros H.
  destruct (dict_get group_ass (py_str court)) as [e|ms]; [discriminate|].
  cbn [bind] in *. change (range 4) with [0; 1; 2; 3] in H. cbn [for_each] in H.
  destruct (CourtReader.read_member ms round court 0 ga) as [e|ga1] eqn:E0;
    [discriminate|]. cbn [bind] in H.
  destruct (CourtReader.read_member ms round court 1 ga1) as [e|ga2] eqn:E1;
    [discriminate|]. cbn [bind] in H.
  destruct (CourtReader.read_member ms round court 2 ga2) as [e|ga3] eqn:E2;
    [discriminate|]. cbn [bind] in H.
  destruct (CourtReader.read_member ms round court 3 ga3) as [e|ga4] eqn:E3;
    [discriminate|]. cbn [bind] in H. injection H as <-.
  rewrite (validator_member _ _ _ _ _ _ E0). cbn [bind].
  rewrite (validator_member _ _ _ _ _ _ E1). cbn [bind].
  rewrite (validator_member _ _ _ _ _ _ E2). cbn [bind].
  exact (validator_member _ _ _ _ _ _ E3).
Qed.

Lemma validator_groups (num_players num_rounds num_courts : Z)
  (groups : list (json_object (list Z))) (ga : list (list (list Z))) :
  CourtReader.read_groups num_players num_rounds num_courts groups = Ok ga ->
  GroupTeams.read_team_groups num_players num_rounds num_courts groups = Ok ga.
Proof.
  unfold CourtReader.read_groups, GroupTeams.read_team_groups.
  apply for_each_sim. intros round s s' _ H.
  unfold CourtReader.read_round in H.
  destruct (py_get groups round) as [e|group_ass]; [discriminate|].
  cbn [bind] in *. revert s s' H. apply for_each_sim.
  intros court u u' _. apply validator_court.
Qed.

Lemma team_stat_of_matrix (a : valuation TeamAlloc.var)
  (num_players num_rounds num_courts : Z) :
  GroupTeams.print_player_stat
    (group_matrix_of (fun r g p => a (TeamAlloc.games p r g))
       num_players num_rounds num_courts)
    num_players num_rounds num_courts
  = Ok (TeamAlloc.sameplayers a num_players num_rounds num_courts).
Proof.
  transitivity (Ok (0 + TeamAlloc.sameplayers a num_players num_rounds num_courts));
    [|reflexivity].
  unfold GroupTeams.print_player_stat, TeamAlloc.sameplayers.
  rewrite sum_flat_map. apply (for_each_sum (range num_players)).
  intros p1 c Hp1. rewrite sum_flat_map.
  apply (for_each_sum (range2 (p1 + 1) num_players)).
  intros p2 c2 Hp2. rewrite sum_flat_map.
  assert (Hp2' : In p2 (range num_players)).
  { apply in_range2 in Hp2. apply in_range in Hp1. apply in_range. lia. }
  apply (for_each_sum (range num_rounds)).
  intros r1 c3 Hr1. cbv zeta. rewrite sum_flat_map.
  assert (Hrn : In ((r1 + 1) mod num_rounds) (range num_rounds)).
  { apply in_range in Hr1. apply in_range. apply Z.mod_pos_bound. lia. }
  apply (for_each_sum (range num_courts)).
  intros court1 c4 Hc1.
  apply (for_each_sum (range num_courts)).
  intros court2 c5 Hc2.
  rewrite !group_cell_of_matrix by assumption. cbn [bind]. unfold Value.
  destruct (_ =? 4); f_equal; lia.
Qed.

(** The validator shows what the pairer showed: [read_team_groups]
    reads the groups file written by teamAlloc.py from a solution of its
    model without error, and [print_player_stat] of the validator then
    computes the number [sameplayers] that the callback of teamAlloc.py
    computes on that solution. *)
Theorem validator_shows_pairer_groups
  (num_players num_rounds num_courts : Z) (bench_list : list Z)
  (m : CpModel TeamAlloc.var) (a : valuation TeamAlloc.var) :
  TeamAlloc.main num_players num_rounds num_courts bench_list = Ok m ->
  solution m a = true ->
  exists group_assignements,
    GroupTeams.read_team_groups num_players num_rounds num_courts
      (TeamWriter.write_bench a num_players num_rounds num_courts)
    = Ok group_assignements
    /\ group_assignements
       = group_matrix_of (fun r g p => a (TeamAlloc.games p r g))
           num_players num_rounds num_courts
    /\ GroupTeams.print_player_stat group_assignements
         num_players num_rounds num_courts
       = Ok (TeamAlloc.sameplayers a num_players num_rounds num_courts).
Proof.
  intros Hmain Hsol.
  exists (group_matrix_of (fun r g p => a (TeamAlloc.games p r g))
            num_players num_rounds num_courts).
  split; [|split].
  - apply validator_groups. exact (read_written_groups _ _ _ _ m a Hmain Hsol).
  - reflexivity.
  - apply team_stat_of_matrix.
Qed.

Lemma validator_shows_pairer_groups_witness :
  exists group_assignements,
    GroupTeams.read_team_groups 5 5 1 (TeamWriter.write_bench schedule_5_5_1 5 5 1)
    = Ok group_assignements
    /\ group_assignements
       = group_matrix_of (fun r g p => schedule_5_5_1 (TeamAlloc.games p r g)) 5 5 1
    /\ GroupTeams.print_player_stat group_assignements 5 5 1
       = Ok (TeamAlloc.sameplayers schedule_5_5_1 5 5 1).
Proof.
  eapply (validator_shows_pairer_groups 5 5 1 [1; 2; 3; 4; 5]);
    [vm_compute; reflexivity | vm_compute; reflexivity].
Defined.
